(** * kmscon console characters and the glyph cache (src/console_char.c)

    A shallow embedding of [console_char.c]: the growable character buffer
    [kmscon_char], the reference-counted [kmscon_glyph], and the per-font
    glyph cache with its DJB hash table, width measurement and draw dispatch.

    Conventions of the embedding.
    - A C function returning [int] (0 or a negative errno) returns a
      [result]: [Ok] for 0, [Err e] for [-e].  Out-parameters become the
      value carried by [Ok]; the flag [out] says whether the out-pointer the
      caller passed is non-NULL.
    - Character buffers and fonts are exclusively owned and never aliased, so
      they are values; a function that mutates its receiver returns the
      receiver's new state next to its status, on the error paths too.  The
      receiver of such a function is the object itself.
    - Glyphs are shared between the hash table and the callers of the
      lookup, so they live in a store ([heap]) and are passed by address.
    - A pointer argument that is only read is an [option] ([None] is NULL).
    - Every request for memory ([malloc], [realloc], and the engine's object
      constructors) is answered by an oracle carried in the machine state, so
      that each allocation can fail independently.
    - [size_t] lengths are natural numbers: a length is bounded by the size
      of an object in memory, so [ch->len + len] cannot wrap.  Reference
      counters and the [unsigned int]/[guint]/[uint32_t] quantities are
      integers with their wrap-around written out. *)

From Stdlib Require Import ZArith Lia.
From Stdlib Require Strings.Byte.
From stdpp Require Import list.

Set Default Proof Using "Type".

(** ** Error numbers and results *)

Inductive errno := EINVAL | ENOMEM | EFAULT.

Inductive result (A : Type) :=
| Ok (a : A)
| Err (e : errno)
| Undef.  (* the C program dereferenced a dangling or freed glyph pointer *)
Arguments Ok {A} a.
Arguments Err {A} e.
Arguments Undef {A}.

(** The error kinds the specification names, and the errno each one stands
    for in this file: [-EINVAL] is returned by every argument guard
    ([!height], [!ch->len], NULL pointers), [-ENOMEM] by every failed
    [malloc], and [-EFAULT] by a failed code-point conversion, by
    [measure_width] when no probe glyph has a width, and by the default
    branch of the draw dispatch. *)
Inductive error_kind :=
| InvalidArgument | OutOfMemory | EncodingFailure | ShapingFailure
| UnsupportedState.

Definition errno_of_kind (k : error_kind) : errno :=
  match k with
  | InvalidArgument => EINVAL
  | OutOfMemory => ENOMEM
  | EncodingFailure => EFAULT
  | ShapingFailure => EFAULT
  | UnsupportedState => EFAULT
  end.

(** ** Machine integers and bytes *)

Abbreviation byte := Byte.byte.

Definition to_uint (z : Z) : Z := (z mod 2 ^ 32)%Z.     (* unsigned int, guint, uint32_t *)
Definition to_size_t (z : Z) : Z := (z mod 2 ^ 64)%Z.
Definition SIZE_MAX : Z := (2 ^ 64 - 1)%Z.

(** The value of a byte read through [unsigned char]. *)
Definition uchar (b : byte) : Z := Z.of_N (Byte.to_N b).

(** [(char) i] for an unsigned [i]. *)
Definition char_of_uint (i : Z) : byte :=
  default Byte.x00 (Byte.of_N (Z.to_N (i mod 256))).

(** Whether plain [char] is signed is left to the platform by C. *)
Class CPlatform := { char_is_signed : bool }.

(** The value of a byte read through plain [char] and promoted to [int]. *)
Definition char_to_int `{CPlatform} (b : byte) : Z :=
  if char_is_signed && (128 <=? uchar b)%Z then (uchar b - 256)%Z else uchar b.

(** ** struct kmscon_char *)

(* maximum size of a single character *)
Definition KMSCON_CHAR_SIZE : nat := 6.

Record kmscon_char := Char {
  ch_buf : list byte;   (* the [size] bytes [buf] points to *)
  ch_size : nat;
  ch_len : nat
}.

(** The bytes a buffer holds: the first [len] bytes of [buf]. *)
Definition content (ch : kmscon_char) : list byte :=
  take (ch_len ch) (ch_buf ch).

(** The representation invariant of a constructed buffer. *)
Definition char_wf (ch : kmscon_char) : Prop :=
  length (ch_buf ch) = ch_size ch /\ ch_len ch <= ch_size ch.

(** ** The text engine (Pango) and the drawing target (cairo)

    The engine is an external collaborator.  Its objects are values; what
    it measures for a layout is given by the functions of [PangoEngine].
    The engine's own reference counts ([g_object_ref], [g_object_unref],
    [pango_glyph_string_free]) are not tracked. *)

Definition PangoFont := nat.
Definition PangoGlyphString := list (nat * Z).   (* glyph index, advance *)

Record PangoContext := PangoCtx { ctx_height : Z }.

Record PangoLayout := Layout {
  layout_ctx : PangoContext;
  layout_text : list byte
}.

(* a run of a line: [item->analysis.font] and [glyphs] *)
Record PangoGlyphItem := GlyphItem {
  item_font : PangoFont;
  item_glyphs : PangoGlyphString
}.

(* [runs] of a PangoLayoutLine, a GSList *)
Record PangoLayoutLine := Line { runs : list PangoGlyphItem }.

Class PangoEngine := {
  (* [rec.width] after [pango_layout_get_extents(layout, NULL, &rec)], an int
     in Pango units *)
  pango_layout_get_extents_width : PangoLayout -> Z;
  (* [pango_layout_get_line_readonly(layout, 0)], NULL when there is none *)
  pango_layout_get_line_readonly0 : PangoLayout -> option PangoLayoutLine;
  (* [pango_layout_get_baseline(layout)], an int in Pango units *)
  pango_layout_get_baseline : PangoLayout -> Z
}.

(** Modelled from the spec: Pango's header macros are not part of the
    sources.  [PANGO_PIXELS] is the "plain rounding" of a length in Pango
    units (1/1024 of a pixel) to whole pixels and [PANGO_PIXELS_CEIL] is the
    rounding up ("ceiling"); both are written as Pango defines them, an add
    and an arithmetic shift by ten bits. *)
Definition PANGO_PIXELS (d : Z) : Z := Z.shiftr (d + 512) 10.
Definition PANGO_PIXELS_CEIL (d : Z) : Z := Z.shiftr (d + 1023) 10.

Definition cairo_t := nat.

Inductive cairo_op :=
| cairo_move_to (cr : cairo_t) (x y : Z)
| pango_cairo_update_layout (cr : cairo_t) (layout : PangoLayout)
| pango_cairo_show_layout (cr : cairo_t) (layout : PangoLayout)
| pango_cairo_show_glyph_string (cr : cairo_t) (font : PangoFont)
    (str : PangoGlyphString).

(** ** struct kmscon_glyph *)

(** [enum glyph_type] together with the union [src] it selects. *)
Inductive glyph_type :=
| GLYPH_NONE
| GLYPH_LAYOUT (layout : PangoLayout)
| GLYPH_STR (font : PangoFont) (str : PangoGlyphString) (ascent : Z).

Record kmscon_glyph := Glyph {
  glyph_ref : Z;
  glyph_ch : option kmscon_char;
  glyph_width : Z;
  glyph_src : glyph_type
}.

Definition glyph_ptr := nat.

(** ** The machine state *)

Inductive alloc_outcome :=
| AllocFail                  (* the request returns NULL *)
| AllocGrant (junk : byte).  (* it succeeds; fresh memory holds [junk] *)

Record machine := Machine {
  allocs : list alloc_outcome;        (* answers to the coming requests *)
  heap : list (option kmscon_glyph);  (* glyph objects; [None] once freed *)
  cairo : list cairo_op               (* drawing commands issued, oldest first *)
}.

Definition set_allocs (a : list alloc_outcome) (m : machine) : machine :=
  Machine a (heap m) (cairo m).
Definition set_heap (h : list (option kmscon_glyph)) (m : machine) : machine :=
  Machine (allocs m) h (cairo m).
Definition emit (ops : list cairo_op) (m : machine) : machine :=
  Machine (allocs m) (heap m) (cairo m ++ ops).

(** State and error monad of the embedding. *)
Definition M (A : Type) : Type := machine -> result A * machine.

Definition ret {A} (a : A) : M A := fun m => (Ok a, m).
Definition fail {A} (e : errno) : M A := fun m => (Err e, m).
Definition bind {A B} (c : M A) (k : A -> M B) : M B :=
  fun m =>
    match c m with
    | (Ok a, m') => k a m'
    | (Err e, m') => (Err e, m')
    | (Undef, m') => (Undef, m')
    end.

Notation "x <- c ;; k" := (bind c (fun x => k))
  (at level 100, c at next level, right associativity).
Notation "c ;;; k" := (bind c (fun _ => k))
  (at level 100, right associativity).

(** One request to the allocator: NULL, or fresh memory and what it holds.
    When the oracle has run out, requests succeed. *)
Definition malloc (m : machine) : option byte * machine :=
  match allocs m with
  | [] => (Some Byte.x00, m)
  | AllocFail :: rest => (None, set_allocs rest m)
  | AllocGrant junk :: rest => (Some junk, set_allocs rest m)
  end.

(** [realloc(buf, n)]: NULL and [buf] untouched, or a block of [n] bytes that
    starts with the old bytes. *)
Definition realloc (buf : list byte) (n : nat) (m : machine)
  : option (list byte) * machine :=
  match malloc m with
  | (None, m') => (None, m')
  | (Some junk, m') =>
      (Some (take n buf ++ replicate (n - length buf) junk), m')
  end.

(** [memcpy(&dst[off], src, n)]; [src] holds at least [n] bytes and [dst] at
    least [off + n]. *)
Definition memcpy (dst : list byte) (off : nat) (src : list byte) (n : nat)
  : list byte :=
  take off dst ++ take n src ++ drop (off + n) dst.

(** ** Operations on kmscon_char *)

Definition new_char (out : bool) (size : nat) : M kmscon_char :=
  fun m =>
    if negb out then (Err EINVAL, m)
    else
      let size := if (size =? 0)%nat then KMSCON_CHAR_SIZE else size in
      match malloc m with
      | (None, m1) => (Err ENOMEM, m1)
      | (Some _, m1) =>
          match malloc m1 with
          | (None, m2) => (Err ENOMEM, m2)
          | (Some _, m2) => (Ok (Char (replicate size Byte.x00) size 0), m2)
          end
      end.

Definition kmscon_char_new (out : bool) : M kmscon_char := new_char out 0.

Definition kmscon_char_set_u8 (ch : kmscon_char) (str : list byte) (len : nat)
  (m : machine) : result unit * kmscon_char * machine :=
  if (ch_size ch <? len)%nat then
    match realloc (ch_buf ch) len m with
    | (None, m1) => (Err ENOMEM, ch, m1)
    | (Some buf, m1) => (Ok tt, Char (memcpy buf 0 str len) len len, m1)
    end
  else (Ok tt, Char (memcpy (ch_buf ch) 0 str len) (ch_size ch) len, m).

(* [free] of an exclusively owned value leaves nothing behind *)
Definition kmscon_char_free (ch : option kmscon_char) : M unit := ret tt.

Definition kmscon_char_new_u8 (out : bool) (str : option (list byte))
  (len : nat) : M kmscon_char :=
  if (len =? 0)%nat then kmscon_char_new out
  else
    match out, str with
    | true, Some s =>
        ch <- new_char true len ;;
        fun m =>
          match kmscon_char_set_u8 ch s len m with
          | (Ok _, ch', m1) => (Ok ch', m1)
          | (Err e, ch', m1) => (kmscon_char_free (Some ch') ;;; fail e) m1
          | (Undef, _, m1) => (Undef, m1)
          end
    | _, _ => fail EINVAL
    end.

Definition kmscon_char_dup (out : bool) (orig : option kmscon_char)
  : M kmscon_char :=
  match out, orig with
  | true, Some o =>
      ch <- new_char true (ch_size o) ;;
      fun m =>
        match kmscon_char_set_u8 ch (ch_buf o) (ch_len o) m with
        | (Ok _, ch', m1) => (Ok ch', m1)
        | (Err e, ch', m1) => (kmscon_char_free (Some ch') ;;; fail e) m1
        | (Undef, _, m1) => (Undef, m1)
        end
  | _, _ => fail EINVAL
  end.

Definition kmscon_char_reset (ch : kmscon_char) : kmscon_char :=
  Char (ch_buf ch) (ch_size ch) 0.

Definition kmscon_char_get_u8 (ch : option kmscon_char) : option (list byte) :=
  match ch with
  | None => None
  | Some c => Some (ch_buf c)
  end.

Definition kmscon_char_get_len (ch : option kmscon_char) : nat :=
  match ch with
  | None => 0
  | Some c => ch_len c
  end.

Definition kmscon_char_append_u8 (ch : kmscon_char) (str : list byte)
  (len : nat) (m : machine) : result unit * kmscon_char * machine :=
  let nlen := ch_len ch + len in
  if (ch_size ch <? nlen)%nat then
    match realloc (ch_buf ch) nlen m with
    | (None, m1) => (Err EINVAL, ch, m1)
    | (Some buf, m1) =>
        (Ok tt, Char (memcpy buf (ch_len ch) str len) nlen (ch_len ch + len), m1)
    end
  else
    (Ok tt,
     Char (memcpy (ch_buf ch) (ch_len ch) str len) (ch_size ch) (ch_len ch + len),
     m).

(** The hash loop: [n] iterations remain, the next index is [i]. *)
Fixpoint kmscon_char_hash_from `{CPlatform} (ch : kmscon_char) (i n : nat)
  (val : Z) : Z :=
  match n with
  | O => val
  | S n' =>
      kmscon_char_hash_from ch (S i) n'
        (to_uint (val * 33 + char_to_int (nth i (ch_buf ch) Byte.x00)))
  end.

Definition kmscon_char_hash `{CPlatform} (key : kmscon_char) : Z :=
  kmscon_char_hash_from key 0 (ch_len key) 5381.

(** [memcmp(a, b, n)]: the difference of the first pair of bytes that differ,
    read as [unsigned char]. *)
Fixpoint memcmp (a b : list byte) (n : nat) : Z :=
  match n, a, b with
  | S n', x :: a', y :: b' =>
      if (uchar x =? uchar y)%Z then memcmp a' b' n' else (uchar x - uchar y)%Z
  | _, _, _ => 0%Z
  end.

Definition kmscon_char_equal (a b : kmscon_char) : bool :=
  if negb (ch_len a =? ch_len b)%nat then false
  else (memcmp (ch_buf a) (ch_buf b) (ch_len a) =? 0)%Z.

(** ** Glyphs *)

Definition undef {A} : M A := fun m => (Undef, m).

(** Reading and writing the glyph object at an address. *)
Definition load (p : glyph_ptr) : M kmscon_glyph :=
  fun m =>
    match heap m !! p with
    | Some (Some g) => (Ok g, m)
    | _ => (Undef, m)
    end.

Definition store (p : glyph_ptr) (g : kmscon_glyph) : M unit :=
  fun m => (Ok tt, set_heap (<[p := Some g]> (heap m)) m).

Definition free_glyph (p : glyph_ptr) : M unit :=
  fun m => (Ok tt, set_heap (<[p := None]> (heap m)) m).

(** What an [unsigned int] of fresh memory reads as. *)
Definition junk_uint (junk : byte) : Z := (uchar junk * 16843009)%Z.

Definition kmscon_glyph_new (out : bool) (ch : option kmscon_char)
  : M glyph_ptr :=
  match out, ch with
  | true, Some c =>
      if (ch_len c =? 0)%nat then fail EINVAL
      else
        fun m =>
          match malloc m with
          | (None, m1) => (Err ENOMEM, m1)
          | (Some junk, m1) =>
              let glyph := length (heap m1) in
              let g := Glyph 1 None (junk_uint junk) GLYPH_NONE in
              let m2 := set_heap (heap m1 ++ [Some g]) m1 in
              match kmscon_char_dup true ch m2 with
              | (Ok c', m3) =>
                  (store glyph (Glyph 1 (Some c') (junk_uint junk) GLYPH_NONE) ;;;
                   ret glyph) m3
              | (Err e, m3) => (free_glyph glyph ;;; fail e) m3
              | (Undef, m3) => (Undef, m3)
              end
          end
  | _, _ => fail EINVAL
  end.

Definition kmscon_glyph_reset (glyph : option glyph_ptr) : M unit :=
  match glyph with
  | None => ret tt
  | Some p =>
      g <- load p ;;
      store p (Glyph (glyph_ref g) (glyph_ch g) 0 GLYPH_NONE)
  end.

Definition kmscon_glyph_ref (glyph : option glyph_ptr) : M unit :=
  match glyph with
  | None => ret tt
  | Some p =>
      g <- load p ;;
      store p (Glyph (to_size_t (glyph_ref g + 1)) (glyph_ch g) (glyph_width g)
                 (glyph_src g))
  end.

Definition kmscon_glyph_unref (glyph : option glyph_ptr) : M unit :=
  match glyph with
  | None => ret tt
  | Some p =>
      g <- load p ;;
      if (glyph_ref g =? 0)%Z then ret tt
      else
        let r := to_size_t (glyph_ref g - 1) in
        store p (Glyph r (glyph_ch g) (glyph_width g) (glyph_src g)) ;;;
        if negb (r =? 0)%Z then ret tt
        else
          kmscon_glyph_reset glyph ;;;
          kmscon_char_free (glyph_ch g) ;;;
          free_glyph p
  end.

(** ** struct kmscon_font and its hash table *)

(** A GHashTable created with [kmscon_char_hash], [kmscon_char_equal],
    [kmscon_char_free] for keys and [kmscon_glyph_unref] for values: the
    entries, each an owned key and a glyph pointer. *)
Abbreviation GHashTable := (list (kmscon_char * glyph_ptr)).

Record kmscon_font := Font {
  font_ref : Z;
  font_width : Z;
  font_height : Z;
  font_glyphs : GHashTable;
  font_ctx : PangoContext
}.

Definition set_glyphs (tbl : GHashTable) (font : kmscon_font) : kmscon_font :=
  Font (font_ref font) (font_width font) (font_height font) tbl (font_ctx font).
Definition set_width (w : Z) (font : kmscon_font) : kmscon_font :=
  Font (font_ref font) w (font_height font) (font_glyphs font) (font_ctx font).

(** GLib compares the stored hash first and then calls the equality function
    on the stored key and the key looked for. *)
Definition key_matches `{CPlatform} (stored key : kmscon_char) : bool :=
  (kmscon_char_hash stored =? kmscon_char_hash key)%Z
  && kmscon_char_equal stored key.

Fixpoint g_hash_table_lookup `{CPlatform} (tbl : GHashTable)
  (key : kmscon_char) : option glyph_ptr :=
  match tbl with
  | [] => None
  | (k, v) :: rest =>
      if key_matches k key then Some v else g_hash_table_lookup rest key
  end.

(** [g_hash_table_insert]: a new entry, or, when an equal key is present, the
    new value in its place; then the key passed in and the old value are
    handed to their destroy functions. *)
Fixpoint g_hash_table_insert `{CPlatform} (tbl : GHashTable)
  (key : kmscon_char) (value : glyph_ptr) : M GHashTable :=
  match tbl with
  | [] => ret [(key, value)]
  | (k, v) :: rest =>
      if key_matches k key then
        kmscon_char_free (Some key) ;;;
        kmscon_glyph_unref (Some v) ;;;
        ret ((k, value) :: rest)
      else
        tbl' <- g_hash_table_insert rest key value ;;
        ret ((k, v) :: tbl')
  end.

(** The engine's constructors ask the allocator like everybody else. *)
Definition pango_layout_new (ctx : PangoContext) (m : machine)
  : option PangoLayout * machine :=
  match malloc m with
  | (None, m') => (None, m')
  | (Some _, m') => (Some (Layout ctx []), m')
  end.

Definition pango_layout_set_text (layout : PangoLayout) (text : list byte)
  (len : nat) : PangoLayout :=
  Layout (layout_ctx layout) (take len text).

Definition pango_glyph_string_copy (str : PangoGlyphString) (m : machine)
  : option PangoGlyphString * machine :=
  match malloc m with
  | (None, m') => (None, m')
  | (Some _, m') => (Some str, m')
  end.

Definition set_src (p : glyph_ptr) (t : glyph_type) : M unit :=
  g <- load p ;;
  store p (Glyph (glyph_ref g) (glyph_ch g) (glyph_width g) t).

Definition set_glyph_width (p : glyph_ptr) (w : Z) : M unit :=
  g <- load p ;;
  store p (Glyph (glyph_ref g) (glyph_ch g) w (glyph_src g)).

Definition kmscon_glyph_set `{PangoEngine} (glyph : option glyph_ptr)
  (font : option kmscon_font) : M unit :=
  match glyph, font with
  | Some p, Some f =>
      fun m =>
        match pango_layout_new (font_ctx f) m with
        | (None, m1) => (Err EINVAL, m1)
        | (Some layout, m1) =>
            (g <- load p ;;
             ch <- match glyph_ch g with Some c => ret c | None => undef end ;;
             let layout := pango_layout_set_text layout (ch_buf ch) (ch_len ch) in
             let rec_width := pango_layout_get_extents_width layout in
             let line := pango_layout_get_line_readonly0 layout in
             let use_layout :=
               kmscon_glyph_reset glyph ;;;
               set_src p (GLYPH_LAYOUT layout) in
             match line with
             | None => use_layout
             | Some l =>
                 match runs l with
                 | [] => use_layout
                 | tmp :: next =>
                     match next with
                     | _ :: _ => use_layout
                     | [] =>
                         fun m2 =>
                           match pango_glyph_string_copy (item_glyphs tmp) m2 with
                           | (None, m3) => (Err ENOMEM, m3)
                           | (Some str, m3) =>
                               (kmscon_glyph_reset glyph ;;;
                                set_src p
                                  (GLYPH_STR (item_font tmp) str
                                     (to_uint (PANGO_PIXELS_CEIL
                                        (pango_layout_get_baseline layout))))) m3
                           end
                     end
                 end
             end ;;;
             set_glyph_width p (to_uint (PANGO_PIXELS rec_width))) m1
        end
  | _, _ => fail EINVAL
  end.

(** ** Lookup, drawing and width measurement *)

(** Get the glyph for [key]; a glyph that is not in the table is created,
    shaped and inserted.  The font is written to by [g_hash_table_insert]
    alone. *)
Definition kmscon_font_lookup `{CPlatform} `{PangoEngine} (font : kmscon_font)
  (key : option kmscon_char) (out : bool) (m : machine)
  : result glyph_ptr * kmscon_font * machine :=
  match key, out with
  | Some k, true =>
      match g_hash_table_lookup (font_glyphs font) k with
      | Some glyph =>
          match kmscon_glyph_ref (Some glyph) m with
          | (Ok _, m1) => (Ok glyph, font, m1)
          | (Err e, m1) => (Err e, font, m1)
          | (Undef, m1) => (Undef, font, m1)
          end
      | None =>
          match kmscon_char_dup true key m with
          | (Err e, m1) => (Err e, font, m1)
          | (Undef, m1) => (Undef, font, m1)
          | (Ok ch, m1) =>
              match kmscon_glyph_new true key m1 with
              | (Err e, m2) =>
                  (* err_char *)
                  (Err e, font, snd (kmscon_char_free (Some ch) m2))
              | (Undef, m2) => (Undef, font, m2)
              | (Ok glyph, m2) =>
                  match kmscon_glyph_set (Some glyph) (Some font) m2 with
                  | (Err e, m3) =>
                      (* err_glyph, err_char *)
                      let m4 := snd (kmscon_glyph_unref (Some glyph) m3) in
                      (Err e, font, snd (kmscon_char_free (Some ch) m4))
                  | (Undef, m3) => (Undef, font, m3)
                  | (Ok _, m3) =>
                      match g_hash_table_insert (font_glyphs font) ch glyph m3 with
                      | (Ok tbl, m4) =>
                          match kmscon_glyph_ref (Some glyph) m4 with
                          | (Ok _, m5) => (Ok glyph, set_glyphs tbl font, m5)
                          | (Err e, m5) => (Err e, set_glyphs tbl font, m5)
                          | (Undef, m5) => (Undef, set_glyphs tbl font, m5)
                          end
                      | (Err e, m4) => (Err e, font, m4)
                      | (Undef, m4) => (Undef, font, m4)
                      end
                  end
              end
          end
      end
  | _, _ => (Err EINVAL, font, m)
  end.

(** Draw the glyph for [ch] on [dcr] with its upper-left corner at [x]/[y].
    The local [ret] holds the status of the dispatch; the function ends in
    [return 0]. *)
Definition kmscon_font_draw `{CPlatform} `{PangoEngine} (font : kmscon_font)
  (ch : option kmscon_char) (dcr : option cairo_t) (x y : Z) (m : machine)
  : result unit * kmscon_font * machine :=
  match ch, dcr with
  | Some _, Some cr =>
      match kmscon_font_lookup font ch true m with
      | (Err e, font1, m1) => (Err e, font1, m1)
      | (Undef, font1, m1) => (Undef, font1, m1)
      | (Ok glyph, font1, m1) =>
          match load glyph m1 with
          | (Ok g, m2) =>
              let '(ret, m3) :=
                match glyph_src g with
                | GLYPH_LAYOUT layout =>
                    (@Ok unit tt,
                     emit [cairo_move_to cr x y;
                           pango_cairo_update_layout cr layout;
                           pango_cairo_show_layout cr layout] m2)
                | GLYPH_STR pfont str ascent =>
                    (Ok tt,
                     emit [cairo_move_to cr x (to_uint (y + ascent));
                           pango_cairo_show_glyph_string cr pfont str] m2)
                | GLYPH_NONE => (Err EFAULT, m2)
                end in
              match kmscon_glyph_unref (Some glyph) m3 with
              | (Undef, m4) => (Undef, font1, m4)
              | (_, m4) => (Ok tt, font1, m4)
              end
          | (_, m2) => (Undef, font1, m2)
          end
      end
  | _, _ => (Err EINVAL, font, m)
  end.

(** The state of the loop of [measure_width]. *)
Record measure_state := MeasureState {
  ms_ch : kmscon_char;
  ms_font : kmscon_font;
  ms_num : Z;
  ms_width : Z
}.

(** [n] iterations of [for (i = ...; i < 127; ++i)] starting at [i].  A
    failed [kmscon_char_set_u8] or lookup is skipped with [continue]. *)
Fixpoint measure_width_loop `{CPlatform} `{PangoEngine} (n : nat) (i : Z)
  (st : measure_state) (m : machine) : result measure_state * machine :=
  match n with
  | O => (Ok st, m)
  | S n' =>
      let buf := char_of_uint i in
      match kmscon_char_set_u8 (ms_ch st) [buf] 1 m with
      | (Ok _, ch, m1) =>
          match kmscon_font_lookup (ms_font st) (Some ch) true m1 with
          | (Ok glyph, font, m2) =>
              match load glyph m2 with
              | (Ok g, _) =>
                  let st' :=
                    if (0 <? glyph_width g)%Z then
                      MeasureState ch font (to_uint (ms_num st + 1))
                        (to_uint (ms_width st + glyph_width g))
                    else MeasureState ch font (ms_num st) (ms_width st) in
                  match kmscon_glyph_unref (Some glyph) m2 with
                  | (Undef, m3) => (Undef, m3)
                  | (_, m3) => measure_width_loop n' (i + 1) st' m3
                  end
              | (_, m3) => (Undef, m3)
              end
          | (Err _, font, m2) =>
              measure_width_loop n' (i + 1)
                (MeasureState ch font (ms_num st) (ms_width st)) m2
          | (Undef, _, m2) => (Undef, m2)
          end
      | (Err _, ch, m1) =>
          measure_width_loop n' (i + 1)
            (MeasureState ch (ms_font st) (ms_num st) (ms_width st)) m1
      | (Undef, _, m1) => (Undef, m1)
      end
  end.

(** Measure the font width.  The source declares [unsigned int i, num, width],
    assigns [num = 0] and never assigns [width] before the loop adds to it:
    [width0] is the value the automatic variable happens to hold on entry. *)
Definition measure_width `{CPlatform} `{PangoEngine} (font : kmscon_font)
  (width0 : Z) (m : machine) : result unit * kmscon_font * machine :=
  match kmscon_char_new true m with
  | (Err e, m1) => (Err e, font, m1)
  | (Undef, m1) => (Undef, font, m1)
  | (Ok ch, m1) =>
      match measure_width_loop 127 0 (MeasureState ch font 0 width0) m1 with
      | (Ok st, m2) =>
          let m3 := snd (kmscon_char_free (Some (ms_ch st)) m2) in
          if (ms_num st =? 0)%Z then (Err EFAULT, ms_font st, m3)
          else (Ok tt, set_width (ms_width st / ms_num st) (ms_font st), m3)
      | (Err e, m2) => (Err e, font, m2)
      | (Undef, m2) => (Undef, font, m2)
      end
  end.

Definition kmscon_font_get_width (font : option kmscon_font) : Z :=
  match font with
  | None => 0
  | Some f => font_width f
  end.

(** ** Assumptions the statements use *)

Definition granted (o : alloc_outcome) : bool :=
  match o with
  | AllocFail => false
  | AllocGrant _ => true
  end.

(** No coming request for memory is refused. *)
Definition all_granted (m : machine) : Prop :=
  forallb granted (allocs m) = true.

(** The DJB2 fold as the specification words it: seed 5381, then
    [h = h*33 + byte] for each byte in order, over the integers; [value]
    says how a byte is read as a number. *)
Definition djb2 (value : byte -> Z) (bytes : list byte) : Z :=
  fold_left (fun h b => (h * 33 + value b)%Z) bytes 5381%Z.

(** How many entries of the table point to the glyph at [p]. *)
Definition table_refs (tbl : GHashTable) (p : glyph_ptr) : nat :=
  length (filter (fun e => snd e = p) tbl).

(** The invariant of a font's table in a machine state: keys are
    well-formed and non-empty, every value is the address of a live glyph
    that holds a reference for the table and owns a copy of the key, and no
    glyph is entered twice. *)
Definition entry_wf (m : machine) (e : kmscon_char * glyph_ptr) : Prop :=
  char_wf (fst e) /\ 0 < ch_len (fst e) /\
  exists g, heap m !! snd e = Some (Some g) /\ (0 < glyph_ref g <= SIZE_MAX)%Z /\
            glyph_src g <> GLYPH_NONE.

Definition font_wf (font : kmscon_font) (m : machine) : Prop :=
  Forall (entry_wf m) (font_glyphs font) /\ NoDup (font_glyphs font).*2.

(** The description [kmscon_glyph_set] attaches, in the specification's
    words: a line with exactly one run gives the copied run, its font and the
    baseline rounded up; anything else gives the layout. *)
Definition shaped_src `{PangoEngine} (layout : PangoLayout) : glyph_type :=
  match pango_layout_get_line_readonly0 layout with
  | Some (Line [run]) =>
      GLYPH_STR (item_font run) (item_glyphs run)
        (to_uint (PANGO_PIXELS_CEIL (pango_layout_get_baseline layout)))
  | _ => GLYPH_LAYOUT layout
  end.

Definition glyph_layout (font : kmscon_font) (ch : kmscon_char) : PangoLayout :=
  Layout (font_ctx font) (content ch).

Definition shaped_glyph `{PangoEngine} (font : kmscon_font) (g : kmscon_glyph)
  (ch : kmscon_char) : kmscon_glyph :=
  Glyph (glyph_ref g) (glyph_ch g)
    (to_uint (PANGO_PIXELS
       (pango_layout_get_extents_width (glyph_layout font ch))))
    (shaped_src (glyph_layout font ch)).

(** The line has exactly one run. *)
Definition single_run (line : option PangoLayoutLine) : bool :=
  match line with
  | Some (Line [_]) => true
  | _ => false
  end.

(** The loop state with [w0] added to the accumulated width. *)
Definition shift_width (w0 : Z) (st : measure_state) : measure_state :=
  MeasureState (ms_ch st) (ms_font st) (ms_num st) (to_uint (w0 + ms_width st)).

(** The average the specification describes, read off the glyphs in the
    store: the sum, from zero, of the widths that are not zero, divided by
    their number. *)
Definition average_width (h : list (option kmscon_glyph)) : Z :=
  let widths :=
    filter (fun w => (0 < w)%Z) (omap (fmap glyph_width) h) in
  (foldr Z.add 0 widths / Z.of_nat (length widths))%Z.

(** ** Sample data *)

Definition signed_char : CPlatform := {| char_is_signed := true |}.
Definition unsigned_char : CPlatform := {| char_is_signed := false |}.

(** An engine with cells of 8 pixels: a single byte is shaped to one run,
    longer text to two runs, and empty text has no line. *)
Definition demo_engine : PangoEngine := {|
  pango_layout_get_extents_width l :=
    (8192 * Z.of_nat (length (layout_text l)))%Z;
  pango_layout_get_line_readonly0 l :=
    match layout_text l with
    | [] => None
    | [b] => Some (Line [GlyphItem 1 [(N.to_nat (Byte.to_N b), 8192%Z)]])
    | b :: _ =>
        Some (Line [GlyphItem 1 [(N.to_nat (Byte.to_N b), 8192%Z)];
                    GlyphItem 2 []])
    end;
  pango_layout_get_baseline l := 12388%Z
|}.

Definition demo_machine : machine := Machine [] [] [].
Definition demo_font : kmscon_font := Font 1 0 16 [] (PangoCtx 16).
Definition key_A : kmscon_char :=
  Char [Byte.x41; Byte.x00; Byte.x00; Byte.x00; Byte.x00; Byte.x00] 6 1.
(* the same content in a buffer of another capacity *)
Definition key_A' : kmscon_char := Char [Byte.x41; Byte.x7a] 2 1.
Definition key_empty : kmscon_char :=
  Char (replicate KMSCON_CHAR_SIZE Byte.x00) KMSCON_CHAR_SIZE 0.
Definition key_e_acute : kmscon_char := Char [Byte.xc3; Byte.xa9] 2 2.

(** A font whose table holds, for the key "A", a glyph without a
    description. *)
Definition unset_glyph : kmscon_glyph := Glyph 1 (Some key_A) 0 GLYPH_NONE.
Definition unset_font : kmscon_font := Font 1 8 16 [(key_A, 0)] (PangoCtx 16).
Definition unset_machine : machine := Machine [] [Some unset_glyph] [].

(** The first lookup of "A" in the empty cache. *)
Definition first_lookup : result glyph_ptr * kmscon_font * machine :=
  @kmscon_font_lookup signed_char demo_engine demo_font (Some key_A) true
    demo_machine.
Definition font_after_A : kmscon_font := snd (fst first_lookup).
Definition machine_after_A : machine := snd first_lookup.

(** ** Further operations of the file *)

(** [kmscon_char_set(ch, orig)] reads [orig->buf] and [orig->len] without a
    check of [orig]. *)
Definition kmscon_char_set (ch : kmscon_char) (orig : option kmscon_char)
  (m : machine) : result unit * kmscon_char * machine :=
  match orig with
  | None => (Undef, ch, m)
  | Some o => kmscon_char_set_u8 ch (ch_buf o) (ch_len o) m
  end.

(** GLib's conversion of code points, an external collaborator:
    [g_ucs4_to_utf8(str, len, NULL, &siz, NULL)] is the UTF-8 string, or NULL
    when a code point cannot be encoded; [siz] is the length of the string,
    so the test [siz < 0] of the callers never fires. *)
Class GLibUnicode := {
  g_ucs4_to_utf8 : list Z -> nat -> option (list byte)
}.

Definition kmscon_char_new_ucs4 `{GLibUnicode} (out : bool)
  (str : option (list Z)) (len : nat) : M kmscon_char :=
  if (len =? 0)%nat then kmscon_char_new out
  else
    match out, str with
    | true, Some s =>
        match g_ucs4_to_utf8 s len with
        | None => fail EFAULT
        | Some str8 =>
            let siz := length str8 in
            ch <- new_char true siz ;;
            fun m =>
              match kmscon_char_set_u8 ch str8 siz m with
              | (Ok _, ch', m1) => (Ok ch', m1)
              | (Err e, ch', m1) => (kmscon_char_free (Some ch') ;;; fail e) m1
              | (Undef, _, m1) => (Undef, m1)
              end
        end
    | _, _ => fail EINVAL
    end.

Definition kmscon_char_set_ucs4 `{GLibUnicode} (ch : kmscon_char)
  (str : list Z) (len : nat) (m : machine)
  : result unit * kmscon_char * machine :=
  match g_ucs4_to_utf8 str len with
  | None => (Err EFAULT, ch, m)
  | Some str8 => kmscon_char_set_u8 ch str8 (length str8) m
  end.

(** A conversion for ASCII only, to run the code-point operations on. *)
Definition ascii_only : GLibUnicode := {|
  g_ucs4_to_utf8 str len :=
    let cps := take len str in
    if forallb (fun c => (0 <? c)%Z && (c <? 128)%Z) cps
    then Some (map char_of_uint cps) else None
|}.

(** What the dispatch of [kmscon_font_draw] issues for a glyph
    description, with the upper-left corner at [x]/[y]. *)
Definition draw_commands (cr : cairo_t) (x y : Z) (t : glyph_type)
  : list cairo_op :=
  match t with
  | GLYPH_LAYOUT layout =>
      [cairo_move_to cr x y; pango_cairo_update_layout cr layout;
       pango_cairo_show_layout cr layout]
  | GLYPH_STR font str ascent =>
      [cairo_move_to cr x (to_uint (y + ascent));
       pango_cairo_show_glyph_string cr font str]
  | GLYPH_NONE => []
  end.


(** No glyph that [key] hits has a saturated reference counter. *)
Definition hit_not_saturated `{CPlatform} (font : kmscon_font)
  (key : kmscon_char) (m : machine) : Prop :=
  forall p g,
    g_hash_table_lookup (font_glyphs font) key = Some p ->
    heap m !! p = Some (Some g) -> (glyph_ref g < SIZE_MAX)%Z.

(** ** Creating and releasing a font *)

(** [g_hash_table_unref] of the only reference to the table: every entry is
    destroyed, its key by [kmscon_char_free] and its value by
    [kmscon_glyph_unref]. *)
Fixpoint g_hash_table_unref (tbl : GHashTable) : M unit :=
  match tbl with
  | [] => ret tt
  | (k, v) :: rest =>
      kmscon_char_free (Some k) ;;;
      kmscon_glyph_unref (Some v) ;;;
      g_hash_table_unref rest
  end.

(** Whether a context has cairo font options attached
    ([pango_cairo_context_get_font_options] is not NULL), as the engine
    reports it. *)
Class PangoCairo := {
  pango_cairo_context_get_font_options : PangoContext -> bool
}.

(** Modelled from the spec: Pango's header constant is not part of the
    sources.  A length in Pango units is 1/1024 of a pixel, the ten bits
    [PANGO_PIXELS] shifts by. *)
Definition PANGO_SCALE : Z := 1024.

(** Creates a new font of the given pixel height, an [unsigned int].  The
    calls into the engine that hand back a pointer the source checks for
    NULL ask the oracle, in the order of the source: the font itself, the
    default font map, the context, the font description, the default
    language, the font options (only when the context has none), the hash
    table.  The description is sized with
    [pango_font_description_set_absolute_size(desc, PANGO_SCALE * height)],
    a product in [unsigned int] that wraps; the context of a font is known by
    the pixel size of its description, that product over [PANGO_SCALE].  Its
    family ("monospace"), base direction and language are the same for every
    font.  [width0] is passed on to [measure_width]. *)
Definition kmscon_font_new `{CPlatform} `{PangoEngine} `{PangoCairo}
  (out : bool) (height : Z) (width0 : Z) : M kmscon_font :=
  if negb out || (height =? 0)%Z then fail EINVAL
  else
    fun m =>
      match malloc m with
      | (None, m1) => (Err ENOMEM, m1)
      | (Some junk, m1) =>
          (* font->ref = 1; font->height = height *)
          match malloc m1 with   (* pango_cairo_font_map_get_default *)
          | (None, m2) => (Err EFAULT, m2)
          | (Some _, m2) =>
              match malloc m2 with   (* pango_font_map_create_context *)
              | (None, m3) => (Err EFAULT, m3)
              | (Some _, m3) =>
                  let ctx :=
                    PangoCtx (to_uint (PANGO_SCALE * height) / PANGO_SCALE) in
                  match malloc m3 with   (* pango_font_description_from_string *)
                  | (None, m4) => (Err EFAULT, m4)
                  | (Some _, m4) =>
                      match malloc m4 with   (* pango_language_get_default *)
                      | (None, m5) => (Err EFAULT, m5)
                      | (Some _, m5) =>
                          let '(opt, m6) :=
                            if pango_cairo_context_get_font_options ctx
                            then (Some Byte.x00, m5)
                            else malloc m5 (* cairo_font_options_create *) in
                          match opt with
                          | None => (Err EFAULT, m6)
                          | Some _ =>
                              match malloc m6 with   (* g_hash_table_new_full *)
                              | (None, m7) => (Err ENOMEM, m7)
                              | (Some _, m7) =>
                                  let font :=
                                    Font 1 (junk_uint junk) height [] ctx in
                                  match measure_width font width0 m7 with
                                  | (Ok _, font', m8) => (Ok font', m8)
                                  | (Err e, font', m8) =>
                                      (* err_hash *)
                                      (g_hash_table_unref (font_glyphs font') ;;;
                                       fail e) m8
                                  | (Undef, _, m8) => (Undef, m8)
                                  end
                              end
                          end
                      end
                  end
              end
          end
      end.

Definition kmscon_font_ref (font : kmscon_font) : kmscon_font :=
  Font (to_size_t (font_ref font + 1)) (font_width font) (font_height font)
    (font_glyphs font) (font_ctx font).

(** [kmscon_font_unref]: the font that remains, or [None] once it has been
    destroyed. *)
Definition kmscon_font_unref (font : kmscon_font) : M (option kmscon_font) :=
  if (font_ref font =? 0)%Z then ret (Some font)
  else
    let r := to_size_t (font_ref font - 1) in
    if negb (r =? 0)%Z then
      ret (Some (Font r (font_width font) (font_height font)
                   (font_glyphs font) (font_ctx font)))
    else
      g_hash_table_unref (font_glyphs font) ;;;
      ret None.

Definition kmscon_font_get_height (font : option kmscon_font) : Z :=
  match font with
  | None => 0
  | Some f => font_height f
  end.

(** A cache all of whose glyphs are held by the table alone: well formed,
    and every count is 1. *)
Definition cache_quiet (font : kmscon_font) (m : machine) : Prop :=
  font_wf font m
  /\ Forall (fun e => exists g, heap m !! snd e = Some (Some g)
                                /\ glyph_ref g = 1%Z) (font_glyphs font).

(** The glyph store is [h0] followed by cells that are free or belong to
    the table of [font], and the table points behind [h0] only. *)
Definition grown_from (h0 : list (option kmscon_glyph)) (font : kmscon_font)
  (m : machine) : Prop :=
  (exists t, heap m = h0 ++ t)
  /\ Forall (fun q => length h0 <= q) (font_glyphs font).*2
  /\ forall q g, length h0 <= q -> heap m !! q = Some (Some g) ->
                 q ∈ (font_glyphs font).*2.

(** A context without font options, as the engine hands it out. *)
Definition plain_cairo : PangoCairo := {|
  pango_cairo_context_get_font_options ctx := false
|}.

(** An engine for which nothing has a width. *)
Definition blank_engine : PangoEngine := {|
  pango_layout_get_extents_width l := 0%Z;
  pango_layout_get_line_readonly0 l := None;
  pango_layout_get_baseline l := 0%Z
|}.

(** * Properties *)

(** ** Bytes and wrap-around *)

Lemma uchar_inj (x y : byte) : uchar x = uchar y -> x = y.
Proof.
  unfold uchar. intros E. apply N2Z.inj in E.
  assert (Some x = Some y) as [= ->]; [|done].
  by rewrite <- (Byte.of_to_N x), <- (Byte.of_to_N y), E.
Qed.

Lemma to_uint_step (v c : Z) :
  to_uint (to_uint v * 33 + c) = to_uint (v * 33 + c).
Proof.
  unfold to_uint.
  rewrite <- (Zplus_mod_idemp_l (v mod 2 ^ 32 * 33)).
  rewrite Zmult_mod_idemp_l. by rewrite Zplus_mod_idemp_l.
Qed.

Lemma char_to_int_uchar `{CPlatform} (b : byte) :
  char_is_signed = false \/ (uchar b < 128)%Z -> char_to_int b = uchar b.
Proof.
  unfold char_to_int. intros [-> | Hb]; [done|].
  destruct (Z.leb_spec 128 (uchar b)); [lia|].
  by rewrite andb_false_r.
Qed.

(** ** The hash and the key equality *)

Lemma hash_from_fold `{CPlatform} (ch : kmscon_char) (n i : nat) (v : Z) :
  i + n <= length (ch_buf ch) ->
  kmscon_char_hash_from ch i n (to_uint v)
  = to_uint (fold_left (fun h b => (h * 33 + char_to_int b)%Z)
               (take n (drop i (ch_buf ch))) v).
Proof.
  revert i v. induction n as [|n IH]; intros i v Hi; simpl.
  - done.
  - destruct (lookup_lt_is_Some_2 (ch_buf ch) i) as [x Hx]; [lia|].
    rewrite (drop_S _ _ _ Hx). simpl.
    rewrite nth_lookup, Hx. simpl.
    rewrite to_uint_step. apply IH. lia.
Qed.

Lemma djb2_value_ext (f g : byte -> Z) (bytes : list byte) :
  Forall (fun b => f b = g b) bytes -> djb2 f bytes = djb2 g bytes.
Proof.
  unfold djb2. generalize 5381%Z.
  induction bytes as [|b bytes IH]; intros h Hall; [done|].
  inversion Hall as [|? ? Hb Hrest]; subst. simpl. rewrite Hb. by apply IH.
Qed.

Lemma kmscon_char_hash_djb2 `{CPlatform} (ch : kmscon_char) :
  char_wf ch -> kmscon_char_hash ch = to_uint (djb2 char_to_int (content ch)).
Proof.
  intros [Hlen Hle]. unfold kmscon_char_hash, djb2, content.
  change 5381%Z with (to_uint 5381) at 1.
  rewrite hash_from_fold by (simpl; lia). by rewrite drop_0.
Qed.

Lemma memcmp_zero (n : nat) (a b : list byte) :
  n <= length a -> n <= length b ->
  memcmp a b n = 0%Z <-> take n a = take n b.
Proof.
  revert a b. induction n as [|n IH]; intros a b Ha Hb.
  { simpl. destruct a, b; simpl; done. }
  destruct a as [|x a]; [simpl in Ha; lia|].
  destruct b as [|y b]; [simpl in Hb; lia|].
  simpl in *. destruct (Z.eqb_spec (uchar x) (uchar y)) as [E|NE].
  - apply uchar_inj in E as ->. rewrite IH by lia.
    split; [by intros ->|by intros [= ->]].
  - split; [lia|]. intros [= -> _]. done.
Qed.

Lemma kmscon_char_equal_content (a b : kmscon_char) :
  char_wf a -> char_wf b ->
  kmscon_char_equal a b = true <-> ch_len a = ch_len b /\ content a = content b.
Proof.
  intros [Ha1 Ha2] [Hb1 Hb2]. unfold kmscon_char_equal, content.
  destruct (Nat.eqb_spec (ch_len a) (ch_len b)) as [E|NE]; simpl.
  - rewrite Z.eqb_eq, memcmp_zero by lia. rewrite <- E. tauto.
  - split; [done|]. by intros [? _].
Qed.

Lemma content_length (ch : kmscon_char) :
  char_wf ch -> length (content ch) = ch_len ch.
Proof. intros [H1 H2]. unfold content. rewrite length_take. lia. Qed.

Lemma key_matches_content `{CPlatform} (a b : kmscon_char) :
  char_wf a -> char_wf b ->
  key_matches a b = true <-> content a = content b.
Proof.
  intros Ha Hb. unfold key_matches.
  rewrite andb_true_iff, Z.eqb_eq, kmscon_char_equal_content by done.
  rewrite !kmscon_char_hash_djb2 by done. split; [by intros (_ & _ & ?)|].
  intros E. split; [by rewrite E|]. split; [|done].
  by rewrite <- (content_length a), <- (content_length b), E.
Qed.

(** C9, as amended: the hash of a constructed buffer is the DJB2 fold over
    its content bytes, seed 5381 and [h = h*33 + c] in order, kept in the 32
    bits of a [guint], where [c] is the byte as a C [char] holds it: the byte
    value, less 256 when [char] is signed and the byte is 128 or more.  It is
    the fold over the byte values whenever [char] is unsigned or every
    content byte is below 128.  Two keys are equal exactly when their lengths
    and their contents are equal. *)
Theorem kmscon_char_hash_char_values `{CPlatform} (a b : kmscon_char) :
  char_wf a -> char_wf b ->
  kmscon_char_hash a
  = to_uint
      (djb2 (fun c => if char_is_signed && (128 <=? uchar c)%Z
                      then (uchar c - 256)%Z else uchar c)
         (content a))
  /\ (char_is_signed = false \/ Forall (fun c => (uchar c < 128)%Z) (content a) ->
      kmscon_char_hash a = to_uint (djb2 uchar (content a)))
  /\ (kmscon_char_equal a b = true <->
      ch_len a = ch_len b /\ content a = content b).
Proof.
  intros Ha Hb. split; [by apply kmscon_char_hash_djb2|]. split.
  - intros Hu. rewrite kmscon_char_hash_djb2 by done. f_equal.
    apply djb2_value_ext. destruct Hu as [Hu|Hu].
    + apply Forall_forall. intros c _. apply char_to_int_uchar. by left.
    + eapply Forall_impl; [exact Hu|]. intros c Hc.
      apply char_to_int_uchar. by right.
  - by apply kmscon_char_equal_content.
Qed.

Lemma kmscon_char_hash_char_values_witness :
  char_wf key_e_acute /\ char_wf key_A /\
  @kmscon_char_hash signed_char key_e_acute = 5857809%Z
  /\ @kmscon_char_hash unsigned_char key_e_acute = 5866513%Z
  /\ @kmscon_char_hash signed_char key_A = 177638%Z.
Proof.
  assert (char_wf key_e_acute) as Ha by (split; simpl; lia).
  assert (char_wf key_A) as Hb by (split; simpl; lia).
  split; [exact Ha|]. split; [exact Hb|].
  destruct (@kmscon_char_hash_char_values signed_char key_e_acute key_A Ha Hb)
    as (Hs & _ & _).
  destruct (@kmscon_char_hash_char_values unsigned_char key_e_acute key_A Ha Hb)
    as (_ & Hu & _).
  destruct (@kmscon_char_hash_char_values signed_char key_A key_A Hb Hb)
    as (_ & HA & _).
  split; [rewrite Hs; reflexivity|].
  split; [rewrite Hu; [reflexivity|by left]|].
  rewrite HA; [reflexivity|]. right. repeat constructor.
Defined.

(** C9, as the claim words it, fails where [char] is signed: for the two
    bytes c3 a9 the fold over the byte values is 5866513, and the hash is
    5857809. *)
Lemma hash_of_signed_char_differs :
  char_wf key_e_acute
  /\ content key_e_acute = [Byte.xc3; Byte.xa9]
  /\ djb2 uchar (content key_e_acute) = 5866513%Z
  /\ @kmscon_char_hash signed_char key_e_acute = 5857809%Z
  /\ @kmscon_char_hash signed_char key_e_acute
     <> djb2 uchar (content key_e_acute)
  /\ @kmscon_char_hash signed_char key_e_acute
     <> to_uint (djb2 uchar (content key_e_acute)).
Proof.
  split; [split; simpl; lia|]. split; [reflexivity|].
  split; [reflexivity|]. split; [reflexivity|]. split; by vm_compute.
Qed.

(** ** Allocation *)

Lemma malloc_frame (m m' : machine) (r : option byte) :
  malloc m = (r, m') -> heap m' = heap m /\ cairo m' = cairo m.
Proof.
  unfold malloc. destruct (allocs m) as [|[|j] rest]; intros [= <- <-]; done.
Qed.

Lemma malloc_granted (m : machine) :
  all_granted m ->
  exists junk m', malloc m = (Some junk, m') /\ all_granted m'.
Proof.
  unfold all_granted, malloc. destruct (allocs m) as [|[|j] rest] eqn:E; simpl.
  - intros _. exists Byte.x00, m. by rewrite E.
  - done.
  - intros Hg. by exists j, (set_allocs rest m).
Qed.

(** ** Character buffers *)

Lemma new_char_inv (out : bool) (n : nat) (m m' : machine) (ch : kmscon_char) :
  new_char out n m = (Ok ch, m') ->
  let size := if (n =? 0)%nat then KMSCON_CHAR_SIZE else n in
  ch = Char (replicate size Byte.x00) size 0
  /\ heap m' = heap m /\ cairo m' = cairo m.
Proof.
  unfold new_char. destruct out; simpl; [|done].
  destruct (malloc m) as [[j1|] m1] eqn:E1; [|done].
  destruct (malloc m1) as [[j2|] m2] eqn:E2; [|done].
  intros [= <- <-]. apply malloc_frame in E1 as [? ?], E2 as [? ?].
  split; [done|]. split; congruence.
Qed.

Lemma new_char_errno (out : bool) (n : nat) (m m' : machine) (e : errno) :
  new_char out n m = (Err e, m') ->
  (out = false /\ e = EINVAL \/ out = true /\ e = ENOMEM)
  /\ heap m' = heap m /\ cairo m' = cairo m.
Proof.
  unfold new_char. destruct out; simpl; [|intros [= <- <-]; by auto].
  destruct (malloc m) as [[j1|] m1] eqn:E1.
  - destruct (malloc m1) as [[j2|] m2] eqn:E2; [done|].
    intros [= <- <-]. apply malloc_frame in E1 as [? ?], E2 as [? ?].
    split; [by auto|]. split; congruence.
  - intros [= <- <-]. apply malloc_frame in E1 as [? ?]. by auto.
Qed.

Lemma new_char_not_undef (out : bool) (n : nat) (m m' : machine) :
  new_char out n m <> (Undef, m').
Proof.
  unfold new_char. destruct out; simpl; [|done].
  destruct (malloc m) as [[j1|] m1]; [|done].
  by destruct (malloc m1) as [[j2|] m2].
Qed.

Lemma new_char_granted (n : nat) (m : machine) :
  all_granted m ->
  exists ch m', new_char true n m = (Ok ch, m') /\ all_granted m'.
Proof.
  intros Hg. unfold new_char. simpl.
  destruct (malloc_granted m Hg) as (j1 & m1 & -> & Hg1).
  destruct (malloc_granted m1 Hg1) as (j2 & m2 & -> & Hg2).
  eauto.
Qed.

Lemma default_size_ge (n : nat) :
  n <= (if (n =? 0)%nat then KMSCON_CHAR_SIZE else n).
Proof. destruct (Nat.eqb_spec n 0); unfold KMSCON_CHAR_SIZE; lia. Qed.

(** A buffer that is large enough is written in place. *)
Lemma set_u8_in_place (ch : kmscon_char) (str : list byte) (len : nat)
  (m : machine) :
  len <= ch_size ch ->
  kmscon_char_set_u8 ch str len m
  = (Ok tt, Char (memcpy (ch_buf ch) 0 str len) (ch_size ch) len, m).
Proof.
  intros Hle. unfold kmscon_char_set_u8.
  by destruct (Nat.ltb_spec (ch_size ch) len); [lia|].
Qed.

Lemma memcpy_0_content (dst src : list byte) (n : nat) :
  n <= length src -> n <= length dst ->
  take n (memcpy dst 0 src n) = take n src
  /\ length (memcpy dst 0 src n) = length dst.
Proof.
  intros Hs Hd. unfold memcpy. simpl. split.
  - rewrite take_app_le by (rewrite length_take; lia).
    by rewrite take_take, Nat.min_id.
  - rewrite length_app, length_take, length_drop. lia.
Qed.

Lemma set_u8_ok (ch ch' : kmscon_char) (str : list byte) (len : nat)
  (m m' : machine) :
  char_wf ch -> len <= length str ->
  kmscon_char_set_u8 ch str len m = (Ok tt, ch', m') ->
  char_wf ch' /\ ch_len ch' = len /\ content ch' = take len str
  /\ heap m' = heap m /\ cairo m' = cairo m.
Proof.
  intros [Hb Hl] Hs. unfold kmscon_char_set_u8, realloc, content.
  destruct (Nat.ltb_spec (ch_size ch) len) as [Hlt|Hge].
  - destruct (malloc m) as [[j|] m1] eqn:E; [|done].
    intros [= <- <-]. apply malloc_frame in E as [? ?]. simpl.
    set (buf := take len (ch_buf ch) ++ replicate (len - length (ch_buf ch)) j).
    assert (length buf = len) as Hbuf.
    { unfold buf. rewrite length_app, length_take, length_replicate. lia. }
    destruct (memcpy_0_content buf str len) as [Hc Hn]; [lia..|].
    unfold char_wf; simpl. rewrite Hc, Hn. by auto.
  - intros [= <- <-]. simpl.
    destruct (memcpy_0_content (ch_buf ch) str len) as [Hc Hn]; [lia..|].
    unfold char_wf; simpl. rewrite Hc, Hn. by auto.
Qed.

(** A failed [realloc] in [kmscon_char_set_u8]: [-ENOMEM], buffer untouched. *)
Lemma set_u8_realloc_fails (ch : kmscon_char) (str : list byte) (len : nat)
  (m : machine) (rest : list alloc_outcome) :
  ch_size ch < len -> allocs m = AllocFail :: rest ->
  kmscon_char_set_u8 ch str len m = (Err ENOMEM, ch, set_allocs rest m).
Proof.
  intros Hlt Ha. unfold kmscon_char_set_u8, realloc, malloc. rewrite Ha.
  by destruct (Nat.ltb_spec (ch_size ch) len); [|lia].
Qed.

(** A failed [realloc] in [kmscon_char_append_u8]: buffer untouched, but the
    status is [-EINVAL]. *)
Lemma append_u8_realloc_fails (ch : kmscon_char) (str : list byte) (len : nat)
  (m : machine) (rest : list alloc_outcome) :
  ch_size ch < ch_len ch + len -> allocs m = AllocFail :: rest ->
  kmscon_char_append_u8 ch str len m = (Err EINVAL, ch, set_allocs rest m).
Proof.
  intros Hlt Ha. unfold kmscon_char_append_u8, realloc, malloc. rewrite Ha.
  by destruct (Nat.ltb_spec (ch_size ch) (ch_len ch + len)); [|lia].
Qed.

Lemma dup_ok (o d : kmscon_char) (m m' : machine) :
  char_wf o ->
  kmscon_char_dup true (Some o) m = (Ok d, m') ->
  char_wf d /\ ch_len d = ch_len o /\ content d = content o
  /\ heap m' = heap m /\ cairo m' = cairo m.
Proof.
  intros [Hb Hl]. unfold kmscon_char_dup, bind.
  destruct (new_char true (ch_size o) m) as [[ch| |] m1] eqn:E; [|done..].
  apply new_char_inv in E as (-> & Hh & Hc).
  set (size := if (ch_size o =? 0)%nat then KMSCON_CHAR_SIZE else ch_size o) in *.
  assert (ch_size o <= size) as Hsz by apply default_size_ge.
  rewrite set_u8_in_place by (simpl; lia).
  intros [= <- <-]. simpl.
  destruct (memcpy_0_content (replicate size Byte.x00) (ch_buf o) (ch_len o))
    as [Hc' Hn]; [rewrite ?length_replicate; lia..|].
  unfold char_wf, content; simpl. rewrite Hc', Hn, length_replicate.
  repeat split; auto; lia.
Qed.

Lemma dup_errno (o : kmscon_char) (m m' : machine) (e : errno) :
  kmscon_char_dup true (Some o) m = (Err e, m') ->
  e = ENOMEM /\ heap m' = heap m /\ cairo m' = cairo m.
Proof.
  unfold kmscon_char_dup, bind.
  destruct (new_char true (ch_size o) m) as [[ch|e'|] m1] eqn:E.
  - apply new_char_inv in E as (-> & Hh & Hc).
    unfold kmscon_char_set_u8, realloc, kmscon_char_free, ret, fail. simpl.
    destruct (_ <? _)%nat; [|done].
    destruct (malloc m1) as [[j|] m2] eqn:E2; [done|].
    intros [= <- <-]. apply malloc_frame in E2 as [? ?].
    split; [done|]. split; congruence.
  - intros [= <- <-]. apply new_char_errno in E as ([[? ?]|[? ?]] & ? & ?); done.
  - done.
Qed.

Lemma dup_not_undef (o : kmscon_char) (m m' : machine) :
  kmscon_char_dup true (Some o) m <> (Undef, m').
Proof.
  unfold kmscon_char_dup, bind.
  destruct (new_char true (ch_size o) m) as [[ch|e'|] m1] eqn:E; [|done|].
  - unfold kmscon_char_set_u8, realloc, kmscon_char_free, ret, fail. simpl.
    destruct (_ <? _)%nat; [|done].
    by destruct (malloc m1) as [[j|] m2].
  - by apply new_char_not_undef in E.
Qed.

Lemma dup_granted (o : kmscon_char) (m : machine) :
  all_granted m ->
  exists d m', kmscon_char_dup true (Some o) m = (Ok d, m') /\ all_granted m'.
Proof.
  intros Hg. unfold kmscon_char_dup, bind.
  destruct (new_char_granted (ch_size o) m Hg) as (ch & m1 & E & Hg1).
  rewrite E. apply new_char_inv in E as (-> & _).
  unfold kmscon_char_set_u8, realloc. simpl.
  destruct (_ <? _)%nat; [|eauto].
  destruct (malloc_granted m1 Hg1) as (j & m2 & -> & Hg2). eauto.
Qed.

Lemma new_u8_ok (s : list byte) (ch : kmscon_char) (m m' : machine) :
  kmscon_char_new_u8 true (Some s) (length s) m = (Ok ch, m') ->
  char_wf ch /\ ch_len ch = length s /\ content ch = s.
Proof.
  unfold kmscon_char_new_u8, kmscon_char_new.
  destruct (Nat.eqb_spec (length s) 0) as [E0|NE].
  - intros E. apply new_char_inv in E as (-> & _). simpl.
    apply length_zero_iff_nil in E0 as ->.
    unfold char_wf, content; simpl. by auto with lia.
  - unfold bind.
    destruct (new_char true (length s) m) as [[c| |] m1] eqn:E; [|done..].
    apply new_char_inv in E as (-> & _).
    destruct (length s =? 0)%nat eqn:E0; [apply Nat.eqb_eq in E0; lia|].
    rewrite set_u8_in_place by (simpl; lia).
    intros [= <- <-]. simpl.
    destruct (memcpy_0_content (replicate (length s) Byte.x00) s (length s))
      as [Hc' Hn]; [rewrite ?length_replicate; lia..|].
    unfold char_wf, content; simpl.
    rewrite Hc', Hn, length_replicate, firstn_all. by auto.
Qed.

Lemma new_u8_granted (s : list byte) (m : machine) :
  all_granted m ->
  exists ch m',
    kmscon_char_new_u8 true (Some s) (length s) m = (Ok ch, m') /\ all_granted m'.
Proof.
  intros Hg. unfold kmscon_char_new_u8, kmscon_char_new.
  destruct (Nat.eqb_spec (length s) 0) as [E0|NE].
  - by apply new_char_granted.
  - unfold bind.
    destruct (new_char_granted (length s) m Hg) as (ch & m1 & E & Hg1).
    rewrite E. apply new_char_inv in E as (-> & _).
    destruct (length s =? 0)%nat eqn:E0; [apply Nat.eqb_eq in E0; lia|].
    rewrite set_u8_in_place by (simpl; lia). eauto.
Qed.

(** C8: for every byte sequence [s], the duplicate of the buffer created
    from [s] gives back [s] through its byte view and its length: whenever
    the two constructors return a buffer, and they do whenever no allocation
    is refused. *)
Theorem dup_new_u8_roundtrip (s : list byte) (m : machine) :
  (forall ch m1 d m2,
      kmscon_char_new_u8 true (Some s) (length s) m = (Ok ch, m1) ->
      kmscon_char_dup true (Some ch) m1 = (Ok d, m2) ->
      kmscon_char_get_len (Some d) = length s
      /\ take (kmscon_char_get_len (Some d)) <$> kmscon_char_get_u8 (Some d)
         = Some s)
  /\ (all_granted m ->
      exists ch m1 d m2,
        kmscon_char_new_u8 true (Some s) (length s) m = (Ok ch, m1)
        /\ kmscon_char_dup true (Some ch) m1 = (Ok d, m2)).
Proof.
  split.
  - intros ch m1 d m2 Hnew Hdup.
    apply new_u8_ok in Hnew as (Hwf & Hlen & Hc).
    apply dup_ok in Hdup as (_ & Hlen' & Hc' & _); [|done].
    simpl. split; [congruence|].
    f_equal. unfold content in *. congruence.
  - intros Hg.
    destruct (new_u8_granted s m Hg) as (ch & m1 & E1 & Hg1).
    destruct (dup_granted ch m1 Hg1) as (d & m2 & E2 & _).
    by exists ch, m1, d, m2.
Qed.

Lemma dup_new_u8_roundtrip_witness :
  all_granted demo_machine /\
  exists ch m1 d m2,
    kmscon_char_new_u8 true (Some [Byte.xc3; Byte.xa9]) 2 demo_machine
    = (Ok ch, m1)
    /\ kmscon_char_dup true (Some ch) m1 = (Ok d, m2)
    /\ kmscon_char_get_len (Some d) = 2
    /\ take (kmscon_char_get_len (Some d)) <$> kmscon_char_get_u8 (Some d)
       = Some [Byte.xc3; Byte.xa9].
Proof.
  assert (all_granted demo_machine) as Hg by reflexivity.
  split; [exact Hg|].
  destruct (dup_new_u8_roundtrip [Byte.xc3; Byte.xa9] demo_machine) as [Hp Ht].
  destruct (Ht Hg) as (ch & m1 & d & m2 & E1 & E2).
  exists ch, m1, d, m2.
  split; [exact E1|]. split; [exact E2|]. exact (Hp ch m1 d m2 E1 E2).
Defined.

(** C10: with length 0 the byte pointer is never looked at: the call is
    [kmscon_char_new], which never answers [-EINVAL] and, when memory is
    granted, returns an empty buffer of the default capacity, also for a NULL
    pointer; with a non-zero length a NULL pointer is refused with
    [-EINVAL]. *)
Theorem new_u8_zero_length (str : option (list byte)) (m : machine)
  (len : nat) :
  kmscon_char_new_u8 true str 0 m = kmscon_char_new_u8 true None 0 m
  /\ fst (kmscon_char_new_u8 true None 0 m)
     <> Err (errno_of_kind InvalidArgument)
  /\ (all_granted m ->
      exists m',
        kmscon_char_new_u8 true None 0 m
        = (Ok (Char (replicate KMSCON_CHAR_SIZE Byte.x00) KMSCON_CHAR_SIZE 0),
           m'))
  /\ kmscon_char_new_u8 true None (S len) m
     = (Err (errno_of_kind InvalidArgument), m).
Proof.
  split; [done|]. split.
  { unfold kmscon_char_new_u8, kmscon_char_new. simpl.
    destruct (new_char true 0 m) as [[ch|e|] m'] eqn:E; simpl; [done| |done].
    by apply new_char_errno in E as ([[? ?]|[? ->]] & _). }
  split; [|done].
  intros Hg. unfold kmscon_char_new_u8, kmscon_char_new. simpl.
  destruct (new_char_granted 0 m Hg) as (ch & m' & E & _).
  exists m'. rewrite E. by apply new_char_inv in E as (-> & _).
Qed.

Lemma new_u8_zero_length_witness :
  all_granted demo_machine /\
  exists m',
    kmscon_char_new_u8 true None 0 demo_machine
    = (Ok (Char (replicate KMSCON_CHAR_SIZE Byte.x00) KMSCON_CHAR_SIZE 0), m').
Proof.
  assert (all_granted demo_machine) as Hg by reflexivity.
  split; [exact Hg|].
  exact (proj1 (proj2 (proj2 (new_u8_zero_length None demo_machine 0))) Hg).
Defined.

(** C3, at a buffer too small for the new bytes: when [realloc] is refused
    both operations leave the buffer as it was; [kmscon_char_set_u8] reports
    [-ENOMEM] and [kmscon_char_append_u8] reports [-EINVAL]. *)
Theorem append_u8_realloc_failure_status :
  let m := Machine [AllocFail] [] [] in
  kmscon_char_set_u8 key_A' [Byte.x42; Byte.x43; Byte.x44] 3 m
  = (Err (errno_of_kind OutOfMemory), key_A', demo_machine)
  /\ kmscon_char_append_u8 key_A' [Byte.x42; Byte.x43] 2 m
     = (Err EINVAL, key_A', demo_machine)
  /\ EINVAL <> errno_of_kind OutOfMemory.
Proof. repeat split; done. Qed.

(** ** Glyph objects in the store *)

Lemma load_ok (m : machine) (p : glyph_ptr) (g : kmscon_glyph) :
  heap m !! p = Some (Some g) -> load p m = (Ok g, m).
Proof. unfold load. by intros ->. Qed.

Lemma load_inv (m m' : machine) (p : glyph_ptr) (g : kmscon_glyph) :
  load p m = (Ok g, m') -> heap m !! p = Some (Some g) /\ m' = m.
Proof.
  unfold load. destruct (heap m !! p) as [[g'|]|]; [|done..].
  by intros [= -> ->].
Qed.

Lemma glyph_reset_run (m : machine) (p : glyph_ptr) (g : kmscon_glyph) :
  heap m !! p = Some (Some g) ->
  kmscon_glyph_reset (Some p) m
  = (Ok tt,
     set_heap (<[p := Some (Glyph (glyph_ref g) (glyph_ch g) 0 GLYPH_NONE)]>
                 (heap m)) m).
Proof. intros Hp. unfold kmscon_glyph_reset, bind. by rewrite (load_ok _ _ _ Hp). Qed.

Lemma set_src_run (m : machine) (p : glyph_ptr) (g : kmscon_glyph)
  (t : glyph_type) :
  heap m !! p = Some (Some g) ->
  set_src p t m
  = (Ok tt,
     set_heap (<[p := Some (Glyph (glyph_ref g) (glyph_ch g) (glyph_width g) t)]>
                 (heap m)) m).
Proof. intros Hp. unfold set_src, bind. by rewrite (load_ok _ _ _ Hp). Qed.

Lemma set_glyph_width_run (m : machine) (p : glyph_ptr) (g : kmscon_glyph)
  (w : Z) :
  heap m !! p = Some (Some g) ->
  set_glyph_width p w m
  = (Ok tt,
     set_heap (<[p := Some (Glyph (glyph_ref g) (glyph_ch g) w (glyph_src g))]>
                 (heap m)) m).
Proof. intros Hp. unfold set_glyph_width, bind. by rewrite (load_ok _ _ _ Hp). Qed.

Lemma glyph_ref_run (m : machine) (p : glyph_ptr) (g : kmscon_glyph) :
  heap m !! p = Some (Some g) ->
  kmscon_glyph_ref (Some p) m
  = (Ok tt,
     set_heap (<[p := Some (Glyph (to_size_t (glyph_ref g + 1)) (glyph_ch g)
                              (glyph_width g) (glyph_src g))]> (heap m)) m).
Proof. intros Hp. unfold kmscon_glyph_ref, bind. by rewrite (load_ok _ _ _ Hp). Qed.

(** Dropping a reference that is not the last one. *)
Lemma glyph_unref_run (m : machine) (p : glyph_ptr) (g : kmscon_glyph) :
  heap m !! p = Some (Some g) -> (1 < glyph_ref g <= SIZE_MAX)%Z ->
  kmscon_glyph_unref (Some p) m
  = (Ok tt,
     set_heap (<[p := Some (Glyph (glyph_ref g - 1) (glyph_ch g) (glyph_width g)
                              (glyph_src g))]> (heap m)) m).
Proof.
  intros Hp Hr. unfold kmscon_glyph_unref, bind. rewrite (load_ok _ _ _ Hp).
  unfold SIZE_MAX in Hr.
  destruct (Z.eqb_spec (glyph_ref g) 0); [lia|].
  assert (to_size_t (glyph_ref g - 1) = (glyph_ref g - 1)%Z) as ->.
  { unfold to_size_t. apply Z.mod_small. lia. }
  unfold store. destruct (Z.eqb_spec (glyph_ref g - 1) 0); [lia|]. done.
Qed.


(** ** Shaping a glyph *)

(** [kmscon_glyph_set] on a live glyph that owns the key [c], step by step:
    the layout is requested, then, for a single run, the copy of the run. *)
Lemma glyph_set_run `{PangoEngine} (m : machine) (p : glyph_ptr)
  (g : kmscon_glyph) (c : kmscon_char) (f : kmscon_font) :
  heap m !! p = Some (Some g) -> glyph_ch g = Some c ->
  kmscon_glyph_set (Some p) (Some f) m
  = match malloc m with
    | (None, m1) => (Err EINVAL, m1)
    | (Some _, m1) =>
        if single_run (pango_layout_get_line_readonly0 (glyph_layout f c)) then
          match malloc m1 with
          | (None, m2) => (Err ENOMEM, m2)
          | (Some _, m2) =>
              (Ok tt, set_heap (<[p := Some (shaped_glyph f g c)]> (heap m)) m2)
          end
        else (Ok tt, set_heap (<[p := Some (shaped_glyph f g c)]> (heap m)) m1)
    end.
Proof.
  intros Hp Hch. unfold kmscon_glyph_set, pango_layout_new.
  destruct (malloc m) as [[j|] m1] eqn:E1; [|done].
  apply malloc_frame in E1 as [Hh1 _].
  assert (heap m1 !! p = Some (Some g)) as Hp1 by congruence.
  assert (p < length (heap m1)) as Hlt by (by eapply lookup_lt_Some).
  unfold bind at 1. rewrite (load_ok _ _ _ Hp1).
  unfold bind at 1. rewrite Hch. unfold ret at 1.
  change (pango_layout_set_text (Layout (font_ctx f) []) (ch_buf c) (ch_len c))
    with (glyph_layout f c).
  unfold shaped_glyph, shaped_src.
  set (w := to_uint (PANGO_PIXELS (pango_layout_get_extents_width (glyph_layout f c)))).
  assert (forall t m2, heap m2 = heap m1 ->
    (kmscon_glyph_reset (Some p);;; set_src p t) m2
    = (Ok tt,
       set_heap (<[p := Some (Glyph (glyph_ref g) (glyph_ch g) 0 t)]> (heap m)) m2))
    as Hsrc.
  { intros t m2 Hh2. unfold bind.
    rewrite (glyph_reset_run _ _ g) by congruence.
    erewrite set_src_run by (simpl; rewrite Hh2; by apply list_lookup_insert_eq).
    simpl. by rewrite !list_insert_insert_eq, Hh2, Hh1. }
  assert (forall t m2, heap m2 = heap m1 ->
    ((kmscon_glyph_reset (Some p);;; set_src p t);;; set_glyph_width p w) m2
    = (Ok tt,
       set_heap (<[p := Some (Glyph (glyph_ref g) (glyph_ch g) w t)]> (heap m)) m2))
    as Hall.
  { intros t m2 Hh2. unfold bind at 1. rewrite (Hsrc t m2 Hh2).
    erewrite set_glyph_width_run
      by (simpl; rewrite list_lookup_insert_eq; [done|congruence]).
    simpl. by rewrite !list_insert_insert_eq. }
  cbv zeta.
  destruct (pango_layout_get_line_readonly0 (glyph_layout f c)) as [[rs]|] eqn:El;
    cbn [runs single_run]; [|by apply Hall].
  destruct rs as [|tmp [|r2 rs]]; [by apply Hall| |by apply Hall].
  unfold bind at 1. unfold pango_glyph_string_copy.
  destruct (malloc m1) as [[j2|] m2] eqn:E2; [|done].
  apply malloc_frame in E2 as [Hh2 _].
  rewrite (Hsrc _ m2 Hh2).
  erewrite set_glyph_width_run
    by (simpl; rewrite list_lookup_insert_eq; [done|congruence]).
  simpl. by rewrite !list_insert_insert_eq.
Qed.

Lemma glyph_set_ok `{PangoEngine} (m m' : machine) (p : glyph_ptr)
  (g : kmscon_glyph) (c : kmscon_char) (f : kmscon_font) :
  heap m !! p = Some (Some g) -> glyph_ch g = Some c ->
  kmscon_glyph_set (Some p) (Some f) m = (Ok tt, m') ->
  heap m' = <[p := Some (shaped_glyph f g c)]> (heap m) /\ cairo m' = cairo m.
Proof.
  intros Hp Hch. rewrite (glyph_set_run m p g c f Hp Hch).
  destruct (malloc m) as [[j|] m1] eqn:E1; [|done].
  apply malloc_frame in E1 as [_ Hc1].
  destruct (single_run _).
  - destruct (malloc m1) as [[j2|] m2] eqn:E2; [|done].
    apply malloc_frame in E2 as [_ Hc2]. intros [= <-]. simpl.
    split; [done|congruence].
  - intros [= <-]. by simpl.
Qed.

Lemma glyph_set_failed `{PangoEngine} (m m' : machine) (p : glyph_ptr)
  (g : kmscon_glyph) (c : kmscon_char) (f : kmscon_font) (r : result unit) :
  heap m !! p = Some (Some g) -> glyph_ch g = Some c ->
  kmscon_glyph_set (Some p) (Some f) m = (r, m') -> r <> Ok tt ->
  (r = Err EINVAL \/ r = Err ENOMEM) /\ heap m' = heap m /\ cairo m' = cairo m.
Proof.
  intros Hp Hch. rewrite (glyph_set_run m p g c f Hp Hch).
  destruct (malloc m) as [[j|] m1] eqn:E1.
  - apply malloc_frame in E1 as [Hh1 Hc1].
    destruct (single_run _).
    + destruct (malloc m1) as [[j2|] m2] eqn:E2.
      * by intros [= <- <-].
      * apply malloc_frame in E2 as [Hh2 Hc2]. intros [= <- <-] _.
        split; [by right|]. split; congruence.
    + by intros [= <- <-].
  - apply malloc_frame in E1 as [Hh1 Hc1]. intros [= <- <-] _. by auto.
Qed.

Lemma PANGO_PIXELS_rounds (d : Z) :
  (1024 * PANGO_PIXELS d - 512 <= d < 1024 * PANGO_PIXELS d + 512)%Z.
Proof.
  unfold PANGO_PIXELS. rewrite Z.shiftr_div_pow2 by lia.
  change (2 ^ 10)%Z with 1024%Z.
  pose proof (Z.div_mod (d + 512) 1024 ltac:(lia)).
  pose proof (Z.mod_pos_bound (d + 512) 1024 ltac:(lia)). lia.
Qed.

Lemma PANGO_PIXELS_CEIL_rounds_up (d : Z) :
  (1024 * (PANGO_PIXELS_CEIL d - 1) < d <= 1024 * PANGO_PIXELS_CEIL d)%Z.
Proof.
  unfold PANGO_PIXELS_CEIL. rewrite Z.shiftr_div_pow2 by lia.
  change (2 ^ 10)%Z with 1024%Z.
  pose proof (Z.div_mod (d + 1023) 1024 ltac:(lia)).
  pose proof (Z.mod_pos_bound (d + 1023) 1024 ltac:(lia)). lia.
Qed.

(** When the engine returns no layout, [kmscon_glyph_set] fails with
    [-EINVAL] and leaves the glyph store as it was. *)
Lemma glyph_set_no_layout `{PangoEngine} (m : machine) (p : glyph_ptr)
  (f : kmscon_font) (rest : list alloc_outcome) :
  allocs m = AllocFail :: rest ->
  kmscon_glyph_set (Some p) (Some f) m = (Err EINVAL, set_allocs rest m)
  /\ heap (set_allocs rest m) = heap m.
Proof.
  intros Ha. unfold kmscon_glyph_set, pango_layout_new, malloc.
  by rewrite Ha.
Qed.

(** C4, at a live glyph for "A" when [pango_layout_new] returns NULL: the
    status of [kmscon_glyph_set] is [-EINVAL], the one it returns for a NULL
    glyph, and not the one that stands for a shaping failure; the glyph is
    left as it was. *)
Theorem glyph_set_no_layout_status :
  let m := Machine [AllocFail] [Some unset_glyph] [] in
  @kmscon_glyph_set demo_engine (Some 0) (Some unset_font) m
  = (Err EINVAL, unset_machine)
  /\ fst (@kmscon_glyph_set demo_engine (Some 0) (Some unset_font) m)
     = fst (@kmscon_glyph_set demo_engine None (Some unset_font) unset_machine)
  /\ EINVAL <> errno_of_kind ShapingFailure.
Proof. repeat split; done. Qed.

(** C6: after a successful [kmscon_glyph_set] the glyph holds, for a line
    with exactly one run, the run's glyph string, the run's font and the
    baseline rounded up to whole pixels, and in every other case (no line,
    no run, several runs) the layout; its width is the extent width of the
    layout rounded to the nearest pixel in both cases. *)
Theorem glyph_set_variant `{PangoEngine} (m m' : machine) (p : glyph_ptr)
  (g : kmscon_glyph) (c : kmscon_char) (f : kmscon_font) :
  heap m !! p = Some (Some g) -> glyph_ch g = Some c ->
  kmscon_glyph_set (Some p) (Some f) m = (Ok tt, m') ->
  let layout := Layout (font_ctx f) (content c) in
  let width := pango_layout_get_extents_width layout in
  let baseline := pango_layout_get_baseline layout in
  exists g',
    heap m' !! p = Some (Some g')
    /\ glyph_src g'
       = match pango_layout_get_line_readonly0 layout with
         | Some (Line [run]) =>
             GLYPH_STR (item_font run) (item_glyphs run)
               (to_uint (PANGO_PIXELS_CEIL baseline))
         | _ => GLYPH_LAYOUT layout
         end
    /\ glyph_width g' = to_uint (PANGO_PIXELS width)
    /\ ((0 <= width < 2 ^ 31)%Z -> glyph_width g' = PANGO_PIXELS width)
    /\ ((0 <= baseline < 2 ^ 31)%Z ->
        to_uint (PANGO_PIXELS_CEIL baseline) = PANGO_PIXELS_CEIL baseline)
    /\ (1024 * PANGO_PIXELS width - 512 <= width
        < 1024 * PANGO_PIXELS width + 512)%Z
    /\ (1024 * (PANGO_PIXELS_CEIL baseline - 1) < baseline
        <= 1024 * PANGO_PIXELS_CEIL baseline)%Z.
Proof.
  intros Hp Hch Hset layout width baseline.
  apply (glyph_set_ok m m' p g c f Hp Hch) in Hset as [Hh _].
  exists (shaped_glyph f g c). split.
  { rewrite Hh. apply list_lookup_insert_eq. by eapply lookup_lt_Some. }
  split; [done|]. split; [done|].
  pose proof (PANGO_PIXELS_rounds width) as Hw.
  pose proof (PANGO_PIXELS_CEIL_rounds_up baseline) as Hb.
  repeat split; try lia.
  - intros Hr. simpl. unfold to_uint. apply Z.mod_small. fold layout width. lia.
  - intros Hr. unfold to_uint. apply Z.mod_small. lia.
Qed.

Lemma glyph_set_variant_witness :
  exists g',
    heap (snd (@kmscon_glyph_set demo_engine (Some 0) (Some unset_font)
                 unset_machine)) !! 0 = Some (Some g')
    /\ glyph_src g' = GLYPH_STR 1 [(65, 8192%Z)] 13
    /\ glyph_width g' = 8%Z.
Proof.
  destruct (@glyph_set_variant demo_engine unset_machine
              (snd (@kmscon_glyph_set demo_engine (Some 0) (Some unset_font)
                      unset_machine))
              0 unset_glyph key_A unset_font eq_refl eq_refl eq_refl)
    as (g' & Hg & Hsrc & Hw & _).
  exists g'. split; [exact Hg|]. split; [exact Hsrc|exact Hw].
Defined.

(** ** The hash table *)

Lemma ght_lookup_in `{CPlatform} (tbl : GHashTable) (key : kmscon_char)
  (p : glyph_ptr) :
  g_hash_table_lookup tbl key = Some p ->
  exists k, (k, p) ∈ tbl /\ key_matches k key = true.
Proof.
  induction tbl as [|[k v] tbl IH]; simpl; [done|].
  destruct (key_matches k key) eqn:E.
  - intros [= ->]. exists k. split; [left|done].
  - intros Hl. destruct (IH Hl) as (k' & Hin & Hm).
    exists k'. split; [by right|done].
Qed.

Lemma ght_lookup_none `{CPlatform} (tbl : GHashTable) (key : kmscon_char) :
  g_hash_table_lookup tbl key = None <->
  Forall (fun e => key_matches (fst e) key = false) tbl.
Proof.
  induction tbl as [|[k v] tbl IH]; simpl.
  - split; [constructor|done].
  - destruct (key_matches k key) eqn:E.
    + split; [done|]. intros Hall. inversion Hall; simpl in *; congruence.
    + rewrite IH. split; [by constructor|]. by inversion 1.
Qed.

Lemma ght_lookup_ext `{CPlatform} (tbl : GHashTable) (key key2 : kmscon_char) :
  Forall (fun e => char_wf (fst e)) tbl -> char_wf key -> char_wf key2 ->
  content key2 = content key ->
  g_hash_table_lookup tbl key2 = g_hash_table_lookup tbl key.
Proof.
  intros Hall Hk Hk2 Hc. induction Hall as [|[k v] tbl Hwf _ IH]; [done|].
  simpl in *. rewrite IH.
  assert (key_matches k key2 = key_matches k key) as ->; [|done].
  apply eq_true_iff_eq. rewrite !key_matches_content by done. by rewrite Hc.
Qed.

Lemma ght_lookup_snoc `{CPlatform} (tbl : GHashTable) (k key : kmscon_char)
  (v : glyph_ptr) :
  g_hash_table_lookup tbl key = None -> key_matches k key = true ->
  g_hash_table_lookup (tbl ++ [(k, v)]) key = Some v.
Proof.
  intros Hn Hm. induction tbl as [|[k0 v0] tbl IH]; simpl in *.
  - by rewrite Hm.
  - destruct (key_matches k0 key); [done|]. by apply IH.
Qed.

Lemma ght_insert_fresh `{CPlatform} (tbl : GHashTable) (key : kmscon_char)
  (v : glyph_ptr) (m : machine) :
  Forall (fun e => key_matches (fst e) key = false) tbl ->
  g_hash_table_insert tbl key v m = (Ok (tbl ++ [(key, v)]), m).
Proof.
  induction 1 as [|[k0 v0] tbl Hm _ IH]; simpl in *; [done|].
  rewrite Hm. unfold bind. by rewrite IH.
Qed.

Lemma table_refs_absent (tbl : GHashTable) (p : glyph_ptr) :
  p ∉ tbl.*2 -> table_refs tbl p = 0.
Proof.
  unfold table_refs. induction tbl as [|[k v] tbl IH]; [done|].
  rewrite fmap_cons, not_elem_of_cons. intros [Hne Hnin].
  rewrite filter_cons. simpl in *. destruct (decide (v = p)); [done|].
  by apply IH.
Qed.

Lemma table_refs_once (tbl : GHashTable) (k : kmscon_char) (p : glyph_ptr) :
  NoDup tbl.*2 -> (k, p) ∈ tbl -> table_refs tbl p = 1.
Proof.
  unfold table_refs. induction tbl as [|[k0 v0] tbl IH]; [by inversion 2|].
  rewrite fmap_cons, NoDup_cons. intros [Hnin Hnd] Hin.
  rewrite filter_cons. simpl in *. destruct (decide (v0 = p)) as [->|Hne].
  - simpl. f_equal. by apply (table_refs_absent tbl p).
  - apply elem_of_cons in Hin as [[= _ ?]|Hin]; [done|]. by apply IH.
Qed.

Lemma table_refs_snoc (tbl : GHashTable) (k : kmscon_char) (p : glyph_ptr) :
  p ∉ tbl.*2 -> table_refs (tbl ++ [(k, p)]) p = 1.
Proof.
  intros Hnin. unfold table_refs. rewrite filter_app, length_app.
  fold (table_refs tbl p). rewrite (table_refs_absent tbl p Hnin).
  rewrite filter_cons. simpl. by destruct (decide (p = p)).
Qed.

(** ** Creating a glyph *)

Lemma glyph_new_empty (key : kmscon_char) (m : machine) :
  ch_len key = 0 -> kmscon_glyph_new true (Some key) m = (Err EINVAL, m).
Proof. intros E. unfold kmscon_glyph_new. by rewrite E. Qed.

Lemma glyph_new_ok (key : kmscon_char) (m m' : machine) (p : glyph_ptr) :
  char_wf key ->
  kmscon_glyph_new true (Some key) m = (Ok p, m') ->
  p = length (heap m) /\ 0 < ch_len key /\
  exists c w,
    heap m' = heap m ++ [Some (Glyph 1 (Some c) w GLYPH_NONE)]
    /\ char_wf c /\ ch_len c = ch_len key /\ content c = content key
    /\ cairo m' = cairo m.
Proof.
  intros Hwf. unfold kmscon_glyph_new.
  destruct (Nat.eqb_spec (ch_len key) 0) as [|Hne]; [done|].
  destruct (malloc m) as [[junk|] m1] eqn:E1; [|done].
  apply malloc_frame in E1 as [Hh1 Hc1].
  destruct (kmscon_char_dup _ _ _) as [[c| |] m3] eqn:E3; [|done..].
  apply dup_ok in E3 as (Hcwf & Hclen & Hcc & Hh3 & Hc3); [|done].
  simpl in Hh3, Hc3. unfold bind, store, ret. intros [= <- <-]. simpl.
  rewrite Hh3, Hh1. split; [done|]. split; [lia|].
  exists c, (junk_uint junk). split.
  - rewrite insert_app_r_alt by lia. by rewrite Nat.sub_diag.
  - split_and!; try done; congruence.
Qed.

(** ** Lookup *)

Lemma lookup_hit `{CPlatform} `{PangoEngine} (font : kmscon_font)
  (key : kmscon_char) (m : machine) (p : glyph_ptr) (g : kmscon_glyph) :
  g_hash_table_lookup (font_glyphs font) key = Some p ->
  heap m !! p = Some (Some g) ->
  kmscon_font_lookup font (Some key) true m
  = (Ok p, font,
     set_heap (<[p := Some (Glyph (to_size_t (glyph_ref g + 1)) (glyph_ch g)
                              (glyph_width g) (glyph_src g))]> (heap m)) m).
Proof.
  intros Hl Hp. unfold kmscon_font_lookup. rewrite Hl.
  by rewrite (glyph_ref_run m p g Hp).
Qed.

Lemma font_wf_live (font : kmscon_font) (m : machine) (k : kmscon_char)
  (p : glyph_ptr) :
  font_wf font m -> (k, p) ∈ font_glyphs font ->
  char_wf k /\ 0 < ch_len k /\
  exists g, heap m !! p = Some (Some g) /\ (0 < glyph_ref g <= SIZE_MAX)%Z
            /\ glyph_src g <> GLYPH_NONE.
Proof.
  intros [Hall _] Hin. rewrite Forall_forall in Hall. exact (Hall _ Hin).
Qed.

Lemma font_wf_keys (font : kmscon_font) (m : machine) :
  font_wf font m -> Forall (fun e => char_wf (fst e)) (font_glyphs font).
Proof.
  intros [Hall _]. eapply Forall_impl; [exact Hall|]. by intros e [? _].
Qed.

Lemma font_wf_fresh (font : kmscon_font) (m : machine) :
  font_wf font m -> length (heap m) ∉ (font_glyphs font).*2.
Proof.
  intros Hwf Hin. apply list_elem_of_fmap in Hin as ([k p] & Hp & Hin).
  simpl in Hp. destruct (font_wf_live font m k p Hwf Hin) as (_ & _ & g & Hg & _).
  apply lookup_lt_Some in Hg. lia.
Qed.

(** A miss that succeeds: a fresh glyph, shaped, with two references, is
    entered under a copy of the key. *)
Lemma lookup_miss `{CPlatform} `{PangoEngine} (font font' : kmscon_font)
  (key : kmscon_char) (m m' : machine) (p : glyph_ptr) :
  font_wf font m -> char_wf key ->
  g_hash_table_lookup (font_glyphs font) key = None ->
  kmscon_font_lookup font (Some key) true m = (Ok p, font', m') ->
  p = length (heap m) /\ 0 < ch_len key /\
  exists ch c w,
    char_wf ch /\ ch_len ch = ch_len key /\ content ch = content key
    /\ char_wf c /\ content c = content key
    /\ font' = set_glyphs (font_glyphs font ++ [(ch, p)]) font
    /\ heap m'
       = heap m ++ [Some (shaped_glyph font (Glyph 2 (Some c) w GLYPH_NONE) c)]
    /\ cairo m' = cairo m.
Proof.
  intros Hwf Hkey Hl. unfold kmscon_font_lookup. rewrite Hl.
  destruct (kmscon_char_dup true (Some key) m) as [[ch| |] m1] eqn:E1; [|done..].
  apply dup_ok in E1 as (Hchwf & Hchlen & Hchc & Hh1 & Hc1); [|done].
  destruct (kmscon_glyph_new true (Some key) m1) as [[q| |] m2] eqn:E2; [|done..].
  apply glyph_new_ok in E2 as (-> & Hpos & c & w & Hh2 & Hcwf & _ & Hcc & Hc2);
    [|done].
  set (g0 := Glyph 1 (Some c) w GLYPH_NONE) in *.
  assert (heap m2 !! length (heap m1) = Some (Some g0)) as Hq.
  { rewrite Hh2. by apply list_lookup_middle. }
  destruct (kmscon_glyph_set _ _ m2) as [[[]| |] m3] eqn:E3; [|done..].
  apply (glyph_set_ok m2 m3 _ g0 c font Hq eq_refl) in E3 as [Hh3 Hc3].
  rewrite ght_insert_fresh.
  2:{ apply ght_lookup_none in Hl. pose proof (font_wf_keys _ _ Hwf) as Hks.
      rewrite Forall_forall in Hl, Hks. apply Forall_forall. intros e He.
      specialize (Hl e He). specialize (Hks e He).
      destruct (key_matches (fst e) ch) eqn:Em; [|done].
      apply key_matches_content in Em; [|done..].
      rewrite <- Hl. symmetry. apply key_matches_content; [done..|congruence]. }
  assert (heap m3 = heap m ++ [Some (shaped_glyph font g0 c)]) as Hh3'.
  { rewrite Hh3, Hh2, Hh1. rewrite insert_app_r_alt by lia.
    by rewrite Nat.sub_diag. }
  erewrite glyph_ref_run by (rewrite Hh3', Hh1; by apply list_lookup_middle).
  intros [= <- <- <-]. split; [by rewrite Hh1|]. split; [done|].
  exists ch, c, w. split_and!; try done; try congruence.
  - simpl. rewrite Hh3', Hh1. rewrite insert_app_r_alt by lia.
    by rewrite Nat.sub_diag.
  - simpl. congruence.
Qed.

(** Dropping the last reference frees the glyph. *)
Lemma glyph_unref_last (m : machine) (p : glyph_ptr) (g : kmscon_glyph) :
  heap m !! p = Some (Some g) -> glyph_ref g = 1%Z ->
  kmscon_glyph_unref (Some p) m = (Ok tt, set_heap (<[p := None]> (heap m)) m).
Proof.
  intros Hp Hr. pose proof (lookup_lt_Some _ _ _ Hp) as Hlt.
  unfold kmscon_glyph_unref. unfold bind at 1.
  rewrite (load_ok _ _ _ Hp), Hr. simpl.
  unfold bind, store, load, kmscon_char_free, ret, free_glyph. simpl.
  rewrite list_lookup_insert_eq by done. simpl.
  by rewrite !list_insert_insert_eq.
Qed.

(** A lookup that fails leaves the table as it was, and of the glyph it may
    have started to build only a freed cell remains. *)
Lemma lookup_failed `{CPlatform} `{PangoEngine} (font font' : kmscon_font)
  (key : kmscon_char) (m m' : machine) (e : errno) :
  font_wf font m -> char_wf key ->
  kmscon_font_lookup font (Some key) true m = (Err e, font', m') ->
  font' = font /\ (e = EINVAL \/ e = ENOMEM)
  /\ (heap m' = heap m \/ heap m' = heap m ++ [None])
  /\ cairo m' = cairo m.
Proof.
  intros Hwf Hkey. unfold kmscon_font_lookup.
  destruct (g_hash_table_lookup (font_glyphs font) key) as [p|] eqn:Hl.
  { destruct (ght_lookup_in _ _ _ Hl) as (k & Hin & _).
    destruct (font_wf_live font m k p Hwf Hin) as (_ & _ & g & Hg & _).
    by rewrite (glyph_ref_run m p g Hg). }
  destruct (kmscon_char_dup true (Some key) m) as [[ch|e1|] m1] eqn:E1; [| |done].
  2:{ apply dup_errno in E1 as (-> & ? & ?). intros [= <- <- <-]. by auto. }
  apply dup_ok in E1 as (Hchwf & Hchlen & Hchc & Hh1 & Hc1); [|done].
  destruct (kmscon_glyph_new true (Some key) m1) as [[q|e2|] m2] eqn:E2; [| |done].
  2:{ intros [= <- <- <-]. split; [done|]. revert E2. unfold kmscon_glyph_new.
      destruct (ch_len key =? 0)%nat; [by intros [= <- <-]; auto|].
      destruct (malloc m1) as [[junk|] m1'] eqn:Em.
      2:{ apply malloc_frame in Em as [? ?]. intros [= <- <-]. simpl.
          split; [by auto|]. split; [left|]; congruence. }
      apply malloc_frame in Em as [Hh1' Hc1'].
      destruct (kmscon_char_dup _ _ _) as [[c|e3|] m3] eqn:E3; [done| |done].
      apply dup_errno in E3 as (-> & Hh3 & Hc3). simpl in Hh3, Hc3.
      unfold bind, free_glyph, fail. intros [= <- <-]. simpl.
      split; [by auto|]. split; [right|congruence].
      rewrite Hh3, insert_app_r_alt by lia.
      rewrite Nat.sub_diag. simpl. congruence. }
  apply glyph_new_ok in E2 as (-> & Hpos & c & w & Hh2 & Hcwf & _ & Hcc & Hc2);
    [|done].
  set (g0 := Glyph 1 (Some c) w GLYPH_NONE) in *.
  assert (heap m2 !! length (heap m1) = Some (Some g0)) as Hq.
  { rewrite Hh2. by apply list_lookup_middle. }
  destruct (kmscon_glyph_set _ _ m2) as [[[]|e3|] m3] eqn:E3.
  - apply (glyph_set_ok m2 m3 _ g0 c font Hq eq_refl) in E3 as [Hh3 Hc3].
    rewrite ght_insert_fresh.
    2:{ apply ght_lookup_none in Hl. pose proof (font_wf_keys _ _ Hwf) as Hks.
        rewrite Forall_forall in Hl, Hks. apply Forall_forall. intros e' He.
        specialize (Hl e' He). specialize (Hks e' He).
        destruct (key_matches (fst e') ch) eqn:Em; [|done].
        apply key_matches_content in Em; [|done..].
        rewrite <- Hl. symmetry. apply key_matches_content; [done..|congruence]. }
    erewrite glyph_ref_run; [done|].
    rewrite Hh3, Hh2. apply list_lookup_insert_eq.
    rewrite length_app. simpl. lia.
  - apply (glyph_set_failed m2 m3 _ g0 c font _ Hq eq_refl) in E3
      as (He3 & Hh3 & Hc3); [|done].
    erewrite glyph_unref_last; [|by rewrite Hh3|done].
    simpl. intros [= <- <- <-]. split; [done|].
    split; [by destruct He3 as [[= ->]|[= ->]]; auto|].
    simpl. split; [right|congruence].
    rewrite Hh3, Hh2, insert_app_r_alt by lia.
    rewrite Nat.sub_diag. simpl. congruence.
  - apply (glyph_set_failed m2 m3 _ g0 c font _ Hq eq_refl) in E3
      as ([?|?] & _); done.
Qed.

(** On a well-formed cache the lookup never runs into a dangling pointer. *)
Lemma lookup_defined `{CPlatform} `{PangoEngine} (font font' : kmscon_font)
  (key : kmscon_char) (m m' : machine) :
  font_wf font m -> char_wf key ->
  kmscon_font_lookup font (Some key) true m <> (Undef, font', m').
Proof.
  intros Hwf Hkey. unfold kmscon_font_lookup.
  destruct (g_hash_table_lookup (font_glyphs font) key) as [p|] eqn:Hl.
  { destruct (ght_lookup_in _ _ _ Hl) as (k & Hin & _).
    destruct (font_wf_live font m k p Hwf Hin) as (_ & _ & g & Hg & _).
    by rewrite (glyph_ref_run m p g Hg). }
  destruct (kmscon_char_dup true (Some key) m) as [[ch|e1|] m1] eqn:E1;
    [|done|by apply dup_not_undef in E1].
  apply dup_ok in E1 as (Hchwf & Hchlen & Hchc & Hh1 & Hc1); [|done].
  destruct (kmscon_glyph_new true (Some key) m1) as [[q|e2|] m2] eqn:E2; [|done|].
  2:{ revert E2. unfold kmscon_glyph_new.
      destruct (ch_len key =? 0)%nat; [done|].
      destruct (malloc m1) as [[junk|] m1']; [|done].
      destruct (kmscon_char_dup _ _ _) as [[c|e3|] m3] eqn:E3;
        [done|done|by apply dup_not_undef in E3]. }
  apply glyph_new_ok in E2 as (-> & Hpos & c & w & Hh2 & Hcwf & _ & Hcc & Hc2);
    [|done].
  set (g0 := Glyph 1 (Some c) w GLYPH_NONE) in *.
  assert (heap m2 !! length (heap m1) = Some (Some g0)) as Hq.
  { rewrite Hh2. by apply list_lookup_middle. }
  destruct (kmscon_glyph_set _ _ m2) as [[[]|e3|] m3] eqn:E3; [|done|].
  - apply (glyph_set_ok m2 m3 _ g0 c font Hq eq_refl) in E3 as [Hh3 Hc3].
    rewrite ght_insert_fresh.
    2:{ apply ght_lookup_none in Hl. pose proof (font_wf_keys _ _ Hwf) as Hks.
        rewrite Forall_forall in Hl, Hks. apply Forall_forall. intros e' He.
        specialize (Hl e' He). specialize (Hks e' He).
        destruct (key_matches (fst e') ch) eqn:Em; [|done].
        apply key_matches_content in Em; [|done..].
        rewrite <- Hl. symmetry. apply key_matches_content; [done..|congruence]. }
    erewrite glyph_ref_run; [done|].
    rewrite Hh3, Hh2. apply list_lookup_insert_eq.
    rewrite length_app. simpl. lia.
  - apply (glyph_set_failed m2 m3 _ g0 c font _ Hq eq_refl) in E3
      as ([?|?] & _); done.
Qed.

Lemma dup_frame (o : kmscon_char) (m m' : machine) (r : result kmscon_char) :
  kmscon_char_dup true (Some o) m = (r, m') ->
  heap m' = heap m /\ cairo m' = cairo m.
Proof.
  destruct r as [d|e|]; intros E.
  - revert E. unfold kmscon_char_dup, bind.
    destruct (new_char true (ch_size o) m) as [[ch| |] m1] eqn:E1; [|done..].
    apply new_char_inv in E1 as (_ & Hh & Hc).
    unfold kmscon_char_set_u8, realloc.
    destruct (_ <? _)%nat; [|by intros [= <- <-]].
    destruct (malloc m1) as [[j|] m2] eqn:E2; [|done].
    apply malloc_frame in E2 as [? ?]. intros [= <- <-]. split; congruence.
  - by apply dup_errno in E as (_ & ? & ?).
  - by apply dup_not_undef in E.
Qed.

Lemma empty_key_misses `{CPlatform} (font : kmscon_font) (m : machine)
  (key : kmscon_char) :
  font_wf font m -> ch_len key = 0 ->
  g_hash_table_lookup (font_glyphs font) key = None.
Proof.
  intros [Hall _] Hlen. apply ght_lookup_none.
  eapply Forall_impl; [exact Hall|]. intros [k p] (_ & Hpos & _). simpl in *.
  unfold key_matches, kmscon_char_equal.
  destruct (Nat.eqb_spec (ch_len k) (ch_len key)); [lia|].
  by rewrite andb_false_r.
Qed.

(** C5 as the code has it: for an empty key, lookup and draw fail and leave
    the table as it was; the status is [-EINVAL], unless the copy of the
    key that the lookup makes before the glyph is created cannot be
    allocated, in which case it is [-ENOMEM]. *)
Theorem lookup_draw_empty_key `{CPlatform} `{PangoEngine}
  (font : kmscon_font) (key : kmscon_char) (cr : cairo_t) (x y : Z)
  (m : machine) :
  font_wf font m -> ch_len key = 0 ->
  exists e m',
    kmscon_font_lookup font (Some key) true m = (Err e, font, m')
    /\ kmscon_font_draw font (Some key) (Some cr) x y m = (Err e, font, m')
    /\ heap m' = heap m /\ cairo m' = cairo m
    /\ (e = errno_of_kind InvalidArgument \/ e = errno_of_kind OutOfMemory)
    /\ (all_granted m -> e = errno_of_kind InvalidArgument)
    /\ (e = errno_of_kind OutOfMemory <->
        exists m1, kmscon_char_dup true (Some key) m = (Err ENOMEM, m1)).
Proof.
  intros Hwf Hlen.
  pose proof (empty_key_misses font m key Hwf Hlen) as Hmiss.
  destruct (kmscon_char_dup true (Some key) m) as [[ch|e1|] m1] eqn:E1.
  - exists EINVAL, m1.
    assert (kmscon_font_lookup font (Some key) true m = (Err EINVAL, font, m1))
      as Hlk.
    { unfold kmscon_font_lookup. rewrite Hmiss, E1.
      by rewrite (glyph_new_empty key m1 Hlen). }
    destruct (dup_frame _ _ _ _ E1) as [Hh Hc].
    split; [done|]. split; [unfold kmscon_font_draw; by rewrite Hlk|].
    split_and!; try done; [by left|]. split; [done|]. by intros (? & ?).
  - exists e1, m1. pose proof E1 as E1'. apply dup_errno in E1' as (-> & Hh & Hc).
    assert (kmscon_font_lookup font (Some key) true m = (Err ENOMEM, font, m1))
      as Hlk.
    { unfold kmscon_font_lookup. by rewrite Hmiss, E1. }
    split; [done|]. split; [unfold kmscon_font_draw; by rewrite Hlk|].
    split_and!; try done.
    + by right.
    + intros Hg. destruct (dup_granted key m Hg) as (d & m2 & E2 & _).
      congruence.
    + split; [by eauto|done].
  - by apply dup_not_undef in E1.
Qed.

Lemma font_wf_demo : font_wf demo_font demo_machine.
Proof. split; simpl; constructor. Qed.

Lemma lookup_draw_empty_key_witness :
  font_wf demo_font demo_machine /\ ch_len key_empty = 0 /\
  exists e m',
    @kmscon_font_lookup signed_char demo_engine demo_font (Some key_empty)
      true demo_machine = (Err e, demo_font, m')
    /\ e = EINVAL.
Proof.
  split; [exact font_wf_demo|]. split; [reflexivity|].
  destruct (@lookup_draw_empty_key signed_char demo_engine demo_font key_empty
              0 0%Z 0%Z demo_machine font_wf_demo eq_refl)
    as (e & m' & Hl & _ & _ & _ & _ & Hg & _).
  exists e, m'. split; [exact Hl|]. exact (Hg eq_refl).
Defined.

(** C5 as stated fails: with an empty table and an empty key, a refused
    allocation makes the lookup fail with [-ENOMEM]. *)
Lemma lookup_empty_key_out_of_memory :
  font_wf demo_font (Machine [AllocFail] [] []) /\ ch_len key_empty = 0 /\
  fst (fst (@kmscon_font_lookup signed_char demo_engine demo_font
              (Some key_empty) true (Machine [AllocFail] [] [])))
  <> Err (errno_of_kind InvalidArgument).
Proof.
  split; [split; simpl; constructor|]. split; [reflexivity|].
  vm_compute. discriminate.
Qed.

Lemma to_size_t_succ (x : Z) :
  (0 <= x < SIZE_MAX)%Z -> to_size_t (x + 1) = (x + 1)%Z.
Proof. unfold SIZE_MAX, to_size_t. intros Hx. apply Z.mod_small. lia. Qed.

(** Looking up a key whose content is already entered. *)
Lemma lookup_again `{CPlatform} `{PangoEngine} (font : kmscon_font)
  (key key2 : kmscon_char) (m : machine) (p : glyph_ptr) (g : kmscon_glyph) :
  Forall (fun e => char_wf (fst e)) (font_glyphs font) ->
  char_wf key -> char_wf key2 -> content key2 = content key ->
  g_hash_table_lookup (font_glyphs font) key = Some p ->
  heap m !! p = Some (Some g) ->
  exists m' g',
    kmscon_font_lookup font (Some key2) true m = (Ok p, font, m')
    /\ heap m' !! p = Some (Some g')
    /\ glyph_ref g' = to_size_t (glyph_ref g + 1).
Proof.
  intros Hks Hk Hk2 Hc Hl Hp.
  rewrite <- (ght_lookup_ext _ key key2 Hks Hk Hk2 Hc) in Hl.
  rewrite (lookup_hit font key2 m p g Hl Hp).
  eexists _, _. split; [done|]. split.
  - simpl. apply list_lookup_insert_eq. by eapply lookup_lt_Some.
  - done.
Qed.

(** C7: a successful lookup returns a live glyph that the table enters
    exactly once under the key.  On a hit the glyph is the one entered and
    its count is one more than before; on a miss the glyph is new and its
    count is 2.  A further lookup with any key of the same content returns
    the same glyph, the table unchanged, and the count one more again.
    Counts are [size_t]: "one more" is exact below [SIZE_MAX]. *)
Theorem lookup_reference_counts `{CPlatform} `{PangoEngine}
  (font font' : kmscon_font) (key : kmscon_char) (m m' : machine)
  (glyph : glyph_ptr) :
  font_wf font m -> char_wf key ->
  kmscon_font_lookup font (Some key) true m = (Ok glyph, font', m') ->
  exists g',
    heap m' !! glyph = Some (Some g')
    /\ g_hash_table_lookup (font_glyphs font') key = Some glyph
    /\ table_refs (font_glyphs font') glyph = 1
    /\ match g_hash_table_lookup (font_glyphs font) key with
       | Some hit =>
           hit = glyph /\ font' = font
           /\ exists g,
               heap m !! glyph = Some (Some g)
               /\ glyph_ref g' = to_size_t (glyph_ref g + 1)
               /\ ((glyph_ref g < SIZE_MAX)%Z ->
                   glyph_ref g' = (glyph_ref g + 1)%Z)
       | None => heap m !! glyph = None /\ glyph_ref g' = 2%Z
       end
    /\ forall key2,
        char_wf key2 -> content key2 = content key ->
        exists m'' g'',
          kmscon_font_lookup font' (Some key2) true m' = (Ok glyph, font', m'')
          /\ heap m'' !! glyph = Some (Some g'')
          /\ glyph_ref g'' = to_size_t (glyph_ref g' + 1)
          /\ ((0 <= glyph_ref g' < SIZE_MAX)%Z ->
              glyph_ref g'' = (glyph_ref g' + 1)%Z).
Proof.
  intros Hwf Hkey Hlk.
  destruct (g_hash_table_lookup (font_glyphs font) key) as [p|] eqn:Hl.
  - destruct (ght_lookup_in _ _ _ Hl) as (k & Hin & _).
    destruct (font_wf_live font m k p Hwf Hin) as (_ & _ & g & Hg & Hr & _).
    rewrite (lookup_hit font key m p g Hl Hg) in Hlk.
    injection Hlk as <- <- <-.
    set (g1 := Glyph (to_size_t (glyph_ref g + 1)) (glyph_ch g) (glyph_width g)
                 (glyph_src g)).
    set (m1 := set_heap (<[p := Some g1]> (heap m)) m).
    assert (heap m1 !! p = Some (Some g1)) as Hg1.
    { simpl. apply list_lookup_insert_eq. by eapply lookup_lt_Some. }
    exists g1. split; [done|].
    split; [done|]. split; [by apply (table_refs_once _ k); [apply Hwf|]|].
    split.
    { split; [done|]. split; [done|]. exists g. split; [done|].
      split; [done|]. intros Hlt. simpl. apply to_size_t_succ. lia. }
    intros key2 Hk2 Hc.
    destruct (lookup_again font key key2 m1 p g1 (font_wf_keys _ _ Hwf) Hkey Hk2
                Hc Hl Hg1) as (m'' & g'' & E & Hg'' & Hr'').
    exists m'', g''. split; [done|]. split; [done|]. split; [done|].
    intros Hlt. rewrite Hr''. by apply to_size_t_succ.
  - destruct (lookup_miss font font' key m m' glyph Hwf Hkey Hl Hlk)
      as (-> & Hpos & ch & c & w & Hchwf & Hchlen & Hchc & Hcwf & Hcc & -> & Hh
          & _).
    assert (key_matches ch key = true) as Hm
      by (by apply key_matches_content).
    assert (heap m' !! length (heap m)
            = Some (Some (shaped_glyph font (Glyph 2 (Some c) w GLYPH_NONE) c)))
      as Hg' by (rewrite Hh; by apply list_lookup_middle).
    assert (g_hash_table_lookup (font_glyphs font ++ [(ch, length (heap m))]) key
            = Some (length (heap m))) as Hl' by (by apply ght_lookup_snoc).
    eexists. split; [exact Hg'|]. split; [done|].
    split; [by apply table_refs_snoc, (font_wf_fresh font m)|].
    split; [split; [by apply lookup_ge_None_2|done]|].
    intros key2 Hk2 Hc.
    assert (Forall (fun e => char_wf (fst e))
              (font_glyphs font ++ [(ch, length (heap m))])) as Hks.
    { apply Forall_app. split; [by eapply font_wf_keys|]. by apply Forall_singleton. }
    destruct (lookup_again
                (set_glyphs (font_glyphs font ++ [(ch, length (heap m))]) font)
                key key2 m' _ _ Hks Hkey Hk2 Hc Hl' Hg')
      as (m'' & g'' & E & Hg'' & Hr'').
    exists m'', g''. split; [done|]. split; [done|]. split; [done|].
    intros Hlt. rewrite Hr''. by apply to_size_t_succ.
Qed.

Lemma lookup_reference_counts_witness :
  font_wf demo_font demo_machine /\ char_wf key_A /\
  first_lookup = (Ok 0, font_after_A, machine_after_A) /\
  exists g' m'' g'',
    heap machine_after_A !! 0 = Some (Some g') /\ glyph_ref g' = 2%Z
    /\ @kmscon_font_lookup signed_char demo_engine font_after_A (Some key_A')
         true machine_after_A = (Ok 0, font_after_A, m'')
    /\ heap m'' !! 0 = Some (Some g'') /\ glyph_ref g'' = 3%Z.
Proof.
  assert (char_wf key_A) as HA by (split; simpl; lia).
  assert (char_wf key_A') as HA' by (split; simpl; lia).
  split; [exact font_wf_demo|]. split; [exact HA|]. split; [reflexivity|].
  destruct (@lookup_reference_counts signed_char demo_engine demo_font
              font_after_A key_A demo_machine machine_after_A 0
              font_wf_demo HA eq_refl)
    as (g' & Hg' & _ & _ & [_ Hr] & Hagain).
  destruct (Hagain key_A' HA' eq_refl) as (m'' & g'' & E & Hg'' & _ & Hr'').
  exists g', m'', g''. split; [exact Hg'|]. split; [exact Hr|].
  split; [exact E|]. split; [exact Hg''|].
  rewrite Hr'', Hr; [reflexivity|]. rewrite Hr. unfold SIZE_MAX. lia.
Defined.

(** ** Drawing *)

(** Once the lookup has succeeded the draw returns 0 whatever the dispatch
    found. *)
Lemma draw_status_after_lookup `{CPlatform} `{PangoEngine}
  (font font1 : kmscon_font) (key : kmscon_char) (cr : cairo_t) (x y : Z)
  (m m1 : machine) (p : glyph_ptr) (e : errno) :
  kmscon_font_lookup font (Some key) true m = (Ok p, font1, m1) ->
  fst (fst (kmscon_font_draw font (Some key) (Some cr) x y m)) <> Err e.
Proof.
  intros Hlk. unfold kmscon_font_draw. rewrite Hlk.
  destruct (load p m1) as [[g| |] m2]; [|done..].
  destruct (glyph_src g); cbv beta iota;
    match goal with
    | |- context [kmscon_glyph_unref ?a ?b] =>
        by destruct (kmscon_glyph_unref a b) as [[[]| |] ?]
    end.
Qed.

(** The reference taken by the lookup is given back, whatever the glyph
    holds. *)
Lemma draw_releases `{CPlatform} `{PangoEngine}
  (font font1 : kmscon_font) (key : kmscon_char) (cr : cairo_t) (x y : Z)
  (m m1 : machine) (p : glyph_ptr) (g1 : kmscon_glyph) :
  kmscon_font_lookup font (Some key) true m = (Ok p, font1, m1) ->
  heap m1 !! p = Some (Some g1) -> (1 < glyph_ref g1 <= SIZE_MAX)%Z ->
  exists m2,
    kmscon_font_draw font (Some key) (Some cr) x y m = (Ok tt, font1, m2)
    /\ heap m2
       = <[p := Some (Glyph (glyph_ref g1 - 1) (glyph_ch g1) (glyph_width g1)
                        (glyph_src g1))]> (heap m1).
Proof.
  intros Hlk Hg1 Hr. unfold kmscon_font_draw. rewrite Hlk.
  rewrite (load_ok m1 p g1 Hg1).
  destruct (glyph_src g1) eqn:Esrc; cbv beta iota;
    (erewrite glyph_unref_run;
     [eexists; split; [reflexivity|]; simpl; by rewrite ?Esrc|done..]).
Qed.

(** Outside the invariant of the cache: were the table to hold a glyph
    without a description, the dispatch would take its default branch and
    the draw would still return 0.  No run of the code enters such a glyph:
    the lookup enters a glyph only after [kmscon_glyph_set] has succeeded
    (see [draw_dispatch_follows_spec]). *)
Lemma draw_default_branch_returns_success :
  fst (fst (@kmscon_font_lookup signed_char demo_engine unset_font
              (Some key_A) true unset_machine)) = Ok 0
  /\ heap unset_machine !! 0 = Some (Some unset_glyph)
  /\ glyph_src unset_glyph = GLYPH_NONE
  /\ @kmscon_font_draw signed_char demo_engine unset_font (Some key_A)
       (Some 0) 0 0 unset_machine
     = (Ok tt, unset_font, unset_machine)
  /\ @Ok unit tt <> Err (errno_of_kind UnsupportedState).
Proof. repeat split; done. Qed.

(** ** Width measurement *)

Lemma to_uint_add_shift (w0 a g : Z) :
  to_uint (to_uint (w0 + a) + g) = to_uint (w0 + to_uint (a + g)).
Proof.
  unfold to_uint. rewrite Zplus_mod_idemp_l, Zplus_mod_idemp_r. f_equal. lia.
Qed.

(** The loop only ever adds to the width it starts with. *)
Lemma measure_width_loop_shift `{CPlatform} `{PangoEngine} (w0 : Z) (n : nat)
  (i : Z) (st : measure_state) (m : machine) :
  measure_width_loop n i (shift_width w0 st) m
  = match measure_width_loop n i st m with
    | (Ok st', m') => (Ok (shift_width w0 st'), m')
    | other => other
    end.
Proof.
  revert i st m. induction n as [|n IH]; intros i st m; [done|].
  cbn [measure_width_loop shift_width ms_ch ms_font ms_num ms_width].
  destruct (kmscon_char_set_u8 (ms_ch st) [char_of_uint i] 1 m)
    as [[[[]|e|] ch] m1]; [| |done].
  - destruct (kmscon_font_lookup (ms_font st) (Some ch) true m1)
      as [[[glyph|e|] font] m2]; [| |done].
    + destruct (load glyph m2) as [[g| |] m3]; [|done..].
      destruct (kmscon_glyph_unref (Some glyph) m2) as [[[]|e|] m4]; [| |done].
      * rewrite <- IH. f_equal. unfold shift_width.
        destruct (0 <? glyph_width g)%Z; simpl; [|done].
        by rewrite to_uint_add_shift.
      * rewrite <- IH. f_equal. unfold shift_width.
        destruct (0 <? glyph_width g)%Z; simpl; [|done].
        by rewrite to_uint_add_shift.
    + by rewrite <- IH.
  - by rewrite <- IH.
Qed.

(** What [measure_width] stores depends on the value the accumulator holds
    on entry: it is that value plus the sum of the widths, over the count. *)
Lemma measure_width_initial_value `{CPlatform} `{PangoEngine}
  (font f0 : kmscon_font) (m m' : machine) (w0 : Z) :
  (0 <= w0 < 2 ^ 32)%Z ->
  measure_width font 0 m = (Ok tt, f0, m') ->
  exists sum num,
    font_width f0 = (sum / num)%Z
    /\ measure_width font w0 m
       = (Ok tt, set_width (to_uint (w0 + sum) / num) f0, m').
Proof.
  intros Hw0. unfold measure_width.
  destruct (kmscon_char_new true m) as [[ch| |] m1]; [|done..].
  replace (MeasureState ch font 0 w0)
    with (shift_width w0 (MeasureState ch font 0 0)).
  2:{ unfold shift_width, to_uint. simpl. f_equal.
      rewrite Z.add_0_r. by apply Z.mod_small. }
  rewrite measure_width_loop_shift.
  destruct (measure_width_loop 127 0 _ m1) as [[st| |] m2]; [|done..].
  cbn [shift_width ms_ch ms_font ms_num ms_width].
  destruct (ms_num st =? 0)%Z; [done|].
  intros [= <- <-]. by exists (ms_width st), (ms_num st).
Qed.

(** C2, at a fresh cache with cells of 8 pixels: all 127 probes have width
    8, so the average from zero is 8; entered with 1000 in the accumulator,
    [measure_width] stores (1000 + 127 * 8) / 127 = 15. *)
Theorem measure_width_uninitialised_accumulator :
  let '(r, font, m) :=
    @measure_width signed_char demo_engine demo_font 1000 demo_machine in
  r = Ok tt
  /\ average_width (heap m) = 8%Z
  /\ kmscon_font_get_width (Some font) = 15%Z.
Proof. vm_compute. repeat split; reflexivity. Qed.

(** ** The table invariant is kept by the lookup *)

Lemma entry_wf_mono (m m' : machine) (e : kmscon_char * glyph_ptr) :
  entry_wf m e ->
  (forall g, heap m !! snd e = Some (Some g) -> heap m' !! snd e = Some (Some g)) ->
  entry_wf m' e.
Proof.
  intros (Hwf & Hpos & g & Hg & Hr & Hs) Hkeep.
  split; [done|]. split; [done|]. exists g. by auto.
Qed.

Lemma shaped_src_not_none `{PangoEngine} (layout : PangoLayout) :
  shaped_src layout <> GLYPH_NONE.
Proof.
  unfold shaped_src.
  destruct (pango_layout_get_line_readonly0 layout) as [[[|r [|r2 rs]]]|]; done.
Qed.

(** Every outcome of a lookup leaves a well-formed cache, as long as the
    counter of a glyph that is hit is not saturated. *)
Lemma lookup_preserves_font_wf `{CPlatform} `{PangoEngine}
  (font font' : kmscon_font) (key : kmscon_char) (m m' : machine)
  (r : result glyph_ptr) :
  font_wf font m -> char_wf key ->
  (forall p g,
      g_hash_table_lookup (font_glyphs font) key = Some p ->
      heap m !! p = Some (Some g) -> (glyph_ref g < SIZE_MAX)%Z) ->
  kmscon_font_lookup font (Some key) true m = (r, font', m') ->
  font_wf font' m'.
Proof.
  intros Hwf Hkey Hsat Hlk. destruct r as [p|e|].
  - destruct (g_hash_table_lookup (font_glyphs font) key) as [q|] eqn:Hl.
    + destruct (ght_lookup_in _ _ _ Hl) as (k & Hin & _).
      destruct (font_wf_live font m k q Hwf Hin) as (_ & _ & g & Hg & Hr & Hs).
      specialize (Hsat q g eq_refl Hg).
      rewrite (lookup_hit font key m q g Hl Hg) in Hlk.
      injection Hlk as <- <- <-.
      destruct Hwf as [Hall Hnd]. split; [|done].
      eapply Forall_impl; [exact Hall|].
      intros [k' q'] (Hk' & Hpos' & g' & Hg' & Hr' & Hs'). simpl in *.
      split; [done|]. split; [done|].
      destruct (decide (q' = q)) as [->|Hne].
      * eexists. split.
        { apply list_lookup_insert_eq. by eapply lookup_lt_Some. }
        simpl. rewrite to_size_t_succ by lia. split; [lia|done].
      * exists g'. simpl. rewrite list_lookup_insert_ne by done. by auto.
    + destruct (lookup_miss font font' key m m' p Hwf Hkey Hl Hlk)
        as (-> & Hpos & ch & c & w & Hchwf & Hchlen & Hchc & Hcwf & Hcc & ->
            & Hh & _).
      pose proof (font_wf_fresh font m Hwf) as Hfresh.
      destruct Hwf as [Hall Hnd]. split; simpl.
      * apply Forall_app. split.
        { eapply Forall_impl; [exact Hall|]. intros e He.
          apply (entry_wf_mono m m' e He). intros g Hg.
          rewrite Hh, lookup_app_l; [done|by eapply lookup_lt_Some]. }
        apply Forall_singleton. split; [done|]. split; [simpl; lia|].
        eexists. split; [simpl; rewrite Hh; by apply list_lookup_middle|].
        simpl. unfold SIZE_MAX. split; [lia|]. apply shaped_src_not_none.
      * rewrite fmap_app. simpl. apply NoDup_app. split; [done|].
        split; [|apply NoDup_singleton].
        intros x Hx ->%list_elem_of_singleton. done.
  - destruct (lookup_failed font font' key m m' e Hwf Hkey Hlk)
      as (-> & _ & Hh & _).
    destruct Hwf as [Hall Hnd]. split; [|done].
    eapply Forall_impl; [exact Hall|]. intros e' He'.
    apply (entry_wf_mono m m' e' He'). intros g Hg.
    destruct Hh as [->| ->]; [done|].
    rewrite lookup_app_l; [done|by eapply lookup_lt_Some].
  - by apply lookup_defined in Hlk.
Qed.

(** * Further properties *)

(** ** Growing and overwriting a buffer *)

Lemma realloc_grows (buf : list byte) (n : nat) (m m' : machine)
  (buf' : list byte) :
  length buf <= n -> realloc buf n m = (Some buf', m') ->
  length buf' = n /\ take (length buf) buf' = buf
  /\ heap m' = heap m /\ cairo m' = cairo m.
Proof.
  intros Hn. unfold realloc.
  destruct (malloc m) as [[j|] m1] eqn:E; [|done].
  apply malloc_frame in E as [? ?]. intros [= <- <-].
  rewrite (take_ge buf n) by done.
  rewrite length_app, length_replicate, take_app_length.
  split; [lia|done].
Qed.

Lemma append_u8_ok (ch ch' : kmscon_char) (str : list byte) (len : nat)
  (m m' : machine) :
  char_wf ch -> len <= length str ->
  kmscon_char_append_u8 ch str len m = (Ok tt, ch', m') ->
  char_wf ch' /\ ch_len ch' = ch_len ch + len
  /\ content ch' = content ch ++ take len str
  /\ ch_size ch' = ch_size ch `max` (ch_len ch + len)
  /\ heap m' = heap m /\ cairo m' = cairo m.
Proof.
  intros [Hb Hl] Hs. unfold kmscon_char_append_u8, content.
  destruct (Nat.ltb_spec (ch_size ch) (ch_len ch + len)) as [Hlt|Hge].
  - destruct (realloc _ _ m) as [[buf|] m1] eqn:E; [|done].
    apply realloc_grows in E as (Hn & Hpre & Hh & Hc); [|lia].
    intros [= <- <-]. unfold char_wf, memcpy. simpl.
    assert (take (ch_len ch) buf = take (ch_len ch) (ch_buf ch)) as Hhead.
    { transitivity (take (ch_len ch) (take (length (ch_buf ch)) buf));
        [rewrite take_take; f_equal; lia|by rewrite Hpre]. }
    rewrite drop_ge by lia. rewrite app_nil_r, Hhead.
    rewrite (take_ge (_ ++ _)) by (rewrite length_app, !length_take; lia).
    rewrite length_app, !length_take.
    split_and!; try done; lia.
  - intros [= <- <-]. unfold char_wf, memcpy. simpl.
    rewrite app_assoc, take_app_le, (take_ge (_ ++ _))
      by (rewrite length_app, !length_take; lia).
    rewrite !length_app, !length_take, length_drop.
    split_and!; try done; lia.
Qed.

(** C-level view of a failed write: nothing but the oracle has moved. *)
Lemma append_u8_failed (ch ch' : kmscon_char) (str : list byte) (len : nat)
  (m m' : machine) (r : result unit) :
  kmscon_char_append_u8 ch str len m = (r, ch', m') -> r <> Ok tt ->
  ch' = ch /\ ch_size ch < ch_len ch + len
  /\ heap m' = heap m /\ cairo m' = cairo m
  /\ exists rest, allocs m = AllocFail :: rest.
Proof.
  unfold kmscon_char_append_u8, realloc, malloc.
  destruct (Nat.ltb_spec (ch_size ch) (ch_len ch + len)) as [Hlt|Hge];
    [|by intros [= <- <- <-]].
  destruct (allocs m) as [|[|j] rest]; [by intros [= <- <- <-]| |by intros [= <- <- <-]].
  intros [= <- <- <-] _. by eauto 10.
Qed.

Lemma set_u8_failed (ch ch' : kmscon_char) (str : list byte) (len : nat)
  (m m' : machine) (r : result unit) :
  kmscon_char_set_u8 ch str len m = (r, ch', m') -> r <> Ok tt ->
  r = Err ENOMEM /\ ch' = ch /\ ch_size ch < len
  /\ heap m' = heap m /\ cairo m' = cairo m
  /\ exists rest, allocs m = AllocFail :: rest.
Proof.
  unfold kmscon_char_set_u8, realloc, malloc.
  destruct (Nat.ltb_spec (ch_size ch) len) as [Hlt|Hge];
    [|by intros [= <- <- <-]].
  destruct (allocs m) as [|[|j] rest]; [by intros [= <- <- <-]| |by intros [= <- <- <-]].
  intros [= <- <- <-] _. by eauto 10.
Qed.

Lemma set_u8_size (ch ch' : kmscon_char) (str : list byte) (len : nat)
  (m m' : machine) :
  kmscon_char_set_u8 ch str len m = (Ok tt, ch', m') ->
  ch_size ch' = ch_size ch `max` len.
Proof.
  unfold kmscon_char_set_u8.
  destruct (Nat.ltb_spec (ch_size ch) len) as [Hlt|Hge].
  - destruct (realloc _ _ m) as [[buf|] m1]; [|done].
    intros [= <- <-]. simpl. lia.
  - intros [= <- <-]. simpl. lia.
Qed.

Lemma set_u8_granted (ch : kmscon_char) (str : list byte) (len : nat)
  (m : machine) :
  all_granted m ->
  exists ch' m', kmscon_char_set_u8 ch str len m = (Ok tt, ch', m')
                 /\ all_granted m'.
Proof.
  intros Hg. unfold kmscon_char_set_u8, realloc.
  destruct (_ <? _)%nat; [|by eauto].
  destruct (malloc_granted m Hg) as (j & m1 & -> & Hg1). by eauto.
Qed.

Lemma append_u8_granted (ch : kmscon_char) (str : list byte) (len : nat)
  (m : machine) :
  all_granted m ->
  exists ch' m', kmscon_char_append_u8 ch str len m = (Ok tt, ch', m')
                 /\ all_granted m'.
Proof.
  intros Hg. unfold kmscon_char_append_u8, realloc.
  destruct (_ <? _)%nat; [|by eauto].
  destruct (malloc_granted m Hg) as (j & m1 & -> & Hg1). by eauto.
Qed.

(** X1: an append that returns 0 puts the first [len] bytes of [str] behind
    the content, adds [len] to the length, and leaves the capacity alone
    unless it is too small, in which case the capacity becomes exactly the
    new length; an append that fails has changed nothing, and it can only
    fail when the buffer had to grow. *)
Theorem append_u8_result (ch ch' : kmscon_char) (str : list byte) (len : nat)
  (m m' : machine) (r : result unit) :
  char_wf ch -> len <= length str ->
  kmscon_char_append_u8 ch str len m = (r, ch', m') ->
  match r with
  | Ok _ =>
      char_wf ch'
      /\ content ch' = content ch ++ take len str
      /\ kmscon_char_get_len (Some ch') = ch_len ch + len
      /\ ch_size ch' = ch_size ch `max` (ch_len ch + len)
  | _ => ch' = ch /\ ch_size ch < ch_len ch + len
  end.
Proof.
  intros Hwf Hlen E. destruct r as [[]|e|].
  - apply append_u8_ok in E as (? & ? & ? & ? & _); done.
  - apply append_u8_failed in E as (? & ? & _); done.
  - apply append_u8_failed in E as (? & ? & _); done.
Qed.

Lemma append_u8_result_witness :
  char_wf key_A' /\ 2 <= length [Byte.x42; Byte.x43] /\
  exists ch' m',
    kmscon_char_append_u8 key_A' [Byte.x42; Byte.x43] 2 demo_machine
    = (Ok tt, ch', m')
    /\ content ch' = [Byte.x41; Byte.x42; Byte.x43] /\ ch_size ch' = 3.
Proof.
  assert (char_wf key_A') as Hwf by (split; simpl; lia).
  assert (2 <= length [Byte.x42; Byte.x43]) as Hlen by (simpl; lia).
  split; [exact Hwf|]. split; [exact Hlen|].
  eexists _, _. split; [reflexivity|].
  destruct (append_u8_result key_A' _ [Byte.x42; Byte.x43] 2 demo_machine _ _
              Hwf Hlen eq_refl) as (_ & Hc & _ & Hs).
  split; [exact Hc|exact Hs].
Defined.

(** X2: two appends in a row leave the old content followed by the first
    and then the second string, and the length is the sum of the three
    lengths. *)
Theorem append_u8_twice (ch ch1 ch2 : kmscon_char) (a b : list byte)
  (m m1 m2 : machine) :
  char_wf ch ->
  kmscon_char_append_u8 ch a (length a) m = (Ok tt, ch1, m1) ->
  kmscon_char_append_u8 ch1 b (length b) m1 = (Ok tt, ch2, m2) ->
  take (kmscon_char_get_len (Some ch2)) <$> kmscon_char_get_u8 (Some ch2)
  = Some (content ch ++ a ++ b)
  /\ kmscon_char_get_len (Some ch2) = ch_len ch + length a + length b.
Proof.
  intros Hwf E1 E2.
  apply append_u8_ok in E1 as (Hwf1 & Hl1 & Hc1 & _); [|done..].
  apply append_u8_ok in E2 as (Hwf2 & Hl2 & Hc2 & _); [|done..].
  rewrite !firstn_all in *. simpl. split; [|lia].
  f_equal. fold (content ch2). by rewrite Hc2, Hc1, <- app_assoc.
Qed.

Lemma append_u8_twice_witness :
  char_wf key_empty /\
  exists ch1 m1 ch2 m2,
    kmscon_char_append_u8 key_empty [Byte.x65] 1 demo_machine = (Ok tt, ch1, m1)
    /\ kmscon_char_append_u8 ch1 [Byte.xcc; Byte.x81] 2 m1 = (Ok tt, ch2, m2)
    /\ take (kmscon_char_get_len (Some ch2)) <$> kmscon_char_get_u8 (Some ch2)
       = Some [Byte.x65; Byte.xcc; Byte.x81].
Proof.
  assert (char_wf key_empty) as Hwf by (split; cbv; [reflexivity|lia]).
  split; [exact Hwf|].
  eexists _, _, _, _. split; [reflexivity|]. split; [reflexivity|].
  exact (proj1 (append_u8_twice key_empty _ _ [Byte.x65] [Byte.xcc; Byte.x81]
                  demo_machine _ _ Hwf eq_refl eq_refl)).
Defined.

(** X3: a set that returns 0 replaces the content by the first [len] bytes
    of [str]; the capacity is kept when it suffices and becomes exactly
    [len] otherwise (it never shrinks).  A set that fails returns [-ENOMEM]
    and has changed nothing; it cannot fail when the bytes fit, and then it
    asks for no memory. *)
Theorem set_u8_result (ch ch' : kmscon_char) (str : list byte) (len : nat)
  (m m' : machine) (r : result unit) :
  char_wf ch -> len <= length str ->
  kmscon_char_set_u8 ch str len m = (r, ch', m') ->
  match r with
  | Ok _ =>
      char_wf ch'
      /\ content ch' = take len str
      /\ kmscon_char_get_len (Some ch') = len
      /\ ch_size ch' = ch_size ch `max` len
  | _ => r = Err ENOMEM /\ ch' = ch /\ ch_size ch < len
  end
  /\ (len <= ch_size ch -> r = Ok tt /\ m' = m).
Proof.
  intros Hwf Hlen E. split.
  - destruct r as [[]|e|].
    + pose proof (set_u8_size _ _ _ _ _ _ E) as Hs.
      apply set_u8_ok in E as (? & ? & ? & _); done.
    + apply set_u8_failed in E as (? & ? & ? & _); done.
    + apply set_u8_failed in E as (? & ? & ? & _); done.
  - intros Hfit. rewrite set_u8_in_place in E by done. by injection E as <- <- <-.
Qed.

Lemma set_u8_result_witness :
  char_wf key_A /\ 2 <= length [Byte.xc3; Byte.xa9] /\
  exists ch',
    kmscon_char_set_u8 key_A [Byte.xc3; Byte.xa9] 2 demo_machine
    = (Ok tt, ch', demo_machine)
    /\ content ch' = [Byte.xc3; Byte.xa9] /\ ch_size ch' = 6.
Proof.
  assert (char_wf key_A) as Hwf by (split; simpl; lia).
  assert (2 <= length [Byte.xc3; Byte.xa9]) as Hlen by (simpl; lia).
  split; [exact Hwf|]. split; [exact Hlen|].
  eexists. split; [reflexivity|].
  destruct (set_u8_result key_A _ [Byte.xc3; Byte.xa9] 2 demo_machine _ _
              Hwf Hlen eq_refl) as [(_ & Hc & _ & Hs) _].
  split; [exact Hc|exact Hs].
Defined.

(** ** Reset *)

(** X4: a reset buffer has length 0 and its old capacity; whatever fits in
    that capacity can then be set or appended without a request for memory,
    and both give a buffer that holds exactly the new bytes. *)
Theorem reset_then_write (ch : kmscon_char) (s : list byte) (m : machine) :
  char_wf ch -> length s <= ch_size ch ->
  kmscon_char_get_len (Some (kmscon_char_reset ch)) = 0
  /\ char_wf (kmscon_char_reset ch)
  /\ exists ch1 ch2,
      kmscon_char_set_u8 (kmscon_char_reset ch) s (length s) m = (Ok tt, ch1, m)
      /\ kmscon_char_append_u8 (kmscon_char_reset ch) s (length s) m
         = (Ok tt, ch2, m)
      /\ content ch1 = s /\ content ch2 = s
      /\ ch_size ch1 = ch_size ch /\ ch_size ch2 = ch_size ch.
Proof.
  intros Hwf Hfit.
  assert (char_wf (kmscon_char_reset ch)) as Hwf0.
  { destruct Hwf as [Hb _]. split; simpl; [done|lia]. }
  split; [done|]. split; [done|].
  pose proof (set_u8_in_place (kmscon_char_reset ch) s (length s) m Hfit) as E1.
  assert (exists ch2,
            kmscon_char_append_u8 (kmscon_char_reset ch) s (length s) m
            = (Ok tt, ch2, m)) as [ch2 E2].
  { unfold kmscon_char_append_u8. simpl.
    destruct (Nat.ltb_spec (ch_size ch) (length s)); [lia|]. by eexists. }
  eexists _, ch2. split; [exact E1|]. split; [exact E2|].
  pose proof (set_u8_size _ _ _ _ _ _ E1) as Hs1.
  apply set_u8_ok in E1 as (_ & _ & Hc1 & _); [|done..].
  apply append_u8_ok in E2 as (_ & _ & Hc2 & Hs2 & _); [|done..].
  rewrite firstn_all in Hc1, Hc2. simpl in *.
  split_and!; try done; lia.
Qed.

Lemma reset_then_write_witness :
  char_wf key_A /\ length [Byte.x42; Byte.x43] <= ch_size key_A /\
  exists ch1,
    kmscon_char_set_u8 (kmscon_char_reset key_A) [Byte.x42; Byte.x43] 2
      demo_machine = (Ok tt, ch1, demo_machine)
    /\ content ch1 = [Byte.x42; Byte.x43].
Proof.
  assert (char_wf key_A) as Hwf by (split; simpl; lia).
  assert (length [Byte.x42; Byte.x43] <= ch_size key_A) as Hfit by (simpl; lia).
  split; [exact Hwf|]. split; [exact Hfit|].
  destruct (reset_then_write key_A [Byte.x42; Byte.x43] demo_machine Hwf Hfit)
    as (_ & _ & ch1 & ch2 & E1 & _ & Hc1 & _).
  exists ch1. split; [exact E1|exact Hc1].
Defined.

(** ** Keys: equality, hash, copies *)

Lemma kmscon_char_hash_range `{CPlatform} (ch : kmscon_char) :
  (0 <= kmscon_char_hash ch < 2 ^ 32)%Z.
Proof.
  assert (forall n v i, (0 <= v < 2 ^ 32)%Z ->
            (0 <= kmscon_char_hash_from ch i n v < 2 ^ 32)%Z) as Hgen.
  { induction n as [|n IH]; intros v i Hv; simpl; [done|].
    apply IH. unfold to_uint. apply Z.mod_pos_bound. lia. }
  apply Hgen. lia.
Qed.

(** X5: on constructed buffers the key equality of the cache is an
    equivalence relation, and keys that are equal have the same hash, which
    fits the 32 bits of a [guint]: what a hash table asks of its two
    functions. *)
Theorem kmscon_char_equal_equivalence `{CPlatform} (a b c : kmscon_char) :
  char_wf a -> char_wf b -> char_wf c ->
  kmscon_char_equal a a = true
  /\ kmscon_char_equal a b = kmscon_char_equal b a
  /\ (kmscon_char_equal a b = true -> kmscon_char_equal b c = true ->
      kmscon_char_equal a c = true)
  /\ (kmscon_char_equal a b = true -> kmscon_char_hash a = kmscon_char_hash b)
  /\ (0 <= kmscon_char_hash a < 2 ^ 32)%Z.
Proof.
  intros Ha Hb Hc.
  split; [|split; [|split; [|split]]].
  - by apply kmscon_char_equal_content.
  - apply eq_true_iff_eq. rewrite !kmscon_char_equal_content by done.
    split; by intros [-> ->].
  - rewrite !kmscon_char_equal_content by done.
    intros [-> ->] [-> ->]. done.
  - rewrite kmscon_char_equal_content by done. intros [_ E].
    by rewrite !kmscon_char_hash_djb2, E.
  - apply kmscon_char_hash_range.
Qed.

Lemma kmscon_char_equal_equivalence_witness :
  char_wf key_A /\ char_wf key_A' /\
  @kmscon_char_hash signed_char key_A = @kmscon_char_hash signed_char key_A'.
Proof.
  assert (char_wf key_A) as HA by (split; simpl; lia).
  assert (char_wf key_A') as HA' by (split; simpl; lia).
  split; [exact HA|]. split; [exact HA'|].
  destruct (@kmscon_char_equal_equivalence signed_char key_A key_A' key_A
              HA HA' HA) as (_ & _ & _ & Hh & _).
  exact (Hh eq_refl).
Defined.

(** X6: a duplicate is a constructed buffer with the content, the length and
    (for a constructed original) the capacity of the original; it is equal
    to the original as a key, in both directions, and has the same hash, so
    the table finds under the copy what it finds under the original. *)
Theorem dup_is_equal_key `{CPlatform} (o d : kmscon_char) (m m' : machine)
  (tbl : GHashTable) :
  char_wf o ->
  kmscon_char_dup true (Some o) m = (Ok d, m') ->
  char_wf d /\ content d = content o
  /\ kmscon_char_get_len (Some d) = kmscon_char_get_len (Some o)
  /\ (0 < ch_size o -> ch_size d = ch_size o)
  /\ kmscon_char_equal d o = true /\ kmscon_char_equal o d = true
  /\ kmscon_char_hash d = kmscon_char_hash o
  /\ (Forall (fun e => char_wf (fst e)) tbl ->
      g_hash_table_lookup tbl d = g_hash_table_lookup tbl o).
Proof.
  intros Ho E. pose proof E as E'.
  apply dup_ok in E' as (Hd & Hl & Hc & _); [|done].
  split; [done|]. split; [done|]. split; [done|]. split.
  { intros Hpos. revert E. unfold kmscon_char_dup, bind.
    destruct (new_char true (ch_size o) m) as [[ch| |] m1] eqn:E1; [|done..].
    apply new_char_inv in E1 as (-> & _).
    destruct (Nat.eqb_spec (ch_size o) 0); [lia|].
    rewrite set_u8_in_place by (destruct Ho; simpl; lia).
    by intros [= <- <-]. }
  split; [by apply kmscon_char_equal_content|].
  split; [by apply kmscon_char_equal_content|].
  split; [by rewrite !kmscon_char_hash_djb2, Hc|].
  intros Hks. by apply ght_lookup_ext.
Qed.

Lemma dup_is_equal_key_witness :
  char_wf key_A' /\
  exists d m',
    kmscon_char_dup true (Some key_A') demo_machine = (Ok d, m')
    /\ kmscon_char_equal d key_A' = true /\ ch_size d = 2.
Proof.
  assert (char_wf key_A') as HA' by (split; simpl; lia).
  split; [exact HA'|].
  eexists _, _. split; [reflexivity|].
  destruct (@dup_is_equal_key signed_char key_A' _ demo_machine _ [] HA' eq_refl)
    as (_ & _ & _ & Hs & He & _).
  split; [exact He|]. apply Hs. simpl. lia.
Defined.

(** X7: [kmscon_char_set] makes the receiver a key equal to [orig]: same
    content and length, whatever the receiver held; it reports [-ENOMEM]
    and changes nothing when the receiver is too small and cannot grow. *)
Theorem kmscon_char_set_copies (ch ch' orig : kmscon_char) (m m' : machine)
  (r : result unit) :
  char_wf ch -> char_wf orig ->
  kmscon_char_set ch (Some orig) m = (r, ch', m') ->
  match r with
  | Ok _ =>
      char_wf ch' /\ content ch' = content orig
      /\ kmscon_char_get_len (Some ch') = kmscon_char_get_len (Some orig)
      /\ kmscon_char_equal ch' orig = true
  | _ => r = Err ENOMEM /\ ch' = ch /\ ch_size ch < ch_len orig
  end.
Proof.
  intros Hch Ho E. unfold kmscon_char_set in E.
  assert (ch_len orig <= length (ch_buf orig)) as Hlen by (destruct Ho; lia).
  destruct r as [[]|e|].
  - apply set_u8_ok in E as (Hwf & Hl & Hc & _); [|done..].
    fold (content orig) in Hc.
    split; [done|]. split; [done|]. split; [done|].
    by apply kmscon_char_equal_content.
  - apply set_u8_failed in E as (? & ? & ? & _); done.
  - apply set_u8_failed in E as (? & ? & ? & _); done.
Qed.

Lemma kmscon_char_set_copies_witness :
  char_wf key_A' /\ char_wf key_e_acute /\
  exists ch',
    kmscon_char_set key_A' (Some key_e_acute) demo_machine
    = (Ok tt, ch', demo_machine)
    /\ content ch' = content key_e_acute.
Proof.
  assert (char_wf key_A') as HA' by (split; simpl; lia).
  assert (char_wf key_e_acute) as He by (split; simpl; lia).
  split; [exact HA'|]. split; [exact He|].
  eexists. split; [reflexivity|].
  exact (proj1 (proj2 (kmscon_char_set_copies key_A' _ key_e_acute demo_machine
                         _ _ HA' He eq_refl))).
Defined.

(** ** Buffers from code points *)

(** X8: a buffer created from a non-empty sequence of code points holds
    exactly the UTF-8 string of the conversion, with its length; when the
    conversion fails the call returns [-EFAULT] before any memory is asked
    for, and otherwise it can only fail for lack of memory. *)
Theorem new_ucs4_result `{GLibUnicode} (str : list Z) (len : nat)
  (m m' : machine) (r : result kmscon_char) :
  len <> 0 ->
  kmscon_char_new_ucs4 true (Some str) len m = (r, m') ->
  match r with
  | Ok ch =>
      exists str8,
        g_ucs4_to_utf8 str len = Some str8
        /\ char_wf ch /\ content ch = str8
        /\ kmscon_char_get_len (Some ch) = length str8
  | Err e =>
      (e = EFAULT /\ g_ucs4_to_utf8 str len = None /\ m' = m)
      \/ (e = ENOMEM /\ is_Some (g_ucs4_to_utf8 str len))
  | Undef => False
  end.
Proof.
  intros Hlen. unfold kmscon_char_new_ucs4.
  destruct (Nat.eqb_spec len 0) as [|_]; [done|].
  destruct (g_ucs4_to_utf8 str len) as [str8|] eqn:Ec.
  2:{ intros [= <- <-]. by left. }
  unfold bind.
  destruct (new_char true (length str8) m) as [[ch|e|] m1] eqn:E1.
  - apply new_char_inv in E1 as (-> & _).
    rewrite set_u8_in_place by (simpl; apply default_size_ge).
    intros [= <- <-]. exists str8. split; [done|].
    set (n := if (length str8 =? 0)%nat then KMSCON_CHAR_SIZE else length str8).
    destruct (memcpy_0_content (replicate n Byte.x00) str8 (length str8))
      as [Hc Hn]; [done|rewrite length_replicate; apply default_size_ge|].
    unfold char_wf, content. simpl. rewrite Hc, Hn, length_replicate, firstn_all.
    split; [|done]. split; [done|apply default_size_ge].
  - intros [= <- <-]. right.
    apply new_char_errno in E1 as ([[? ?]|[_ ->]] & _); [done|].
    split; [done|]. by eexists.
  - by apply new_char_not_undef in E1.
Qed.

Lemma new_ucs4_result_witness :
  2 <> 0 /\
  exists ch m',
    @kmscon_char_new_ucs4 ascii_only true (Some [104; 105]%Z) 2 demo_machine
    = (Ok ch, m')
    /\ content ch = [Byte.x68; Byte.x69].
Proof.
  assert (2 <> 0) as Hlen by lia.
  split; [exact Hlen|].
  eexists _, _. split; [vm_compute; reflexivity|].
  destruct (@new_ucs4_result ascii_only [104; 105]%Z 2 demo_machine _ _ Hlen
              eq_refl) as (str8 & Hc & _ & Hcontent & _).
  injection Hc as <-. exact Hcontent.
Defined.

(** X9: setting a buffer from code points either converts and then holds
    exactly the UTF-8 string, or fails without touching the buffer:
    [-EFAULT], with no request for memory, when the conversion fails, and
    [-ENOMEM] when the buffer cannot grow. *)
Theorem set_ucs4_result `{GLibUnicode} (ch ch' : kmscon_char) (str : list Z)
  (len : nat) (m m' : machine) (r : result unit) :
  char_wf ch ->
  kmscon_char_set_ucs4 ch str len m = (r, ch', m') ->
  match r with
  | Ok _ =>
      exists str8,
        g_ucs4_to_utf8 str len = Some str8
        /\ char_wf ch' /\ content ch' = str8
        /\ kmscon_char_get_len (Some ch') = length str8
  | _ =>
      ch' = ch
      /\ ((r = Err EFAULT /\ g_ucs4_to_utf8 str len = None /\ m' = m)
          \/ (r = Err ENOMEM
              /\ exists str8, g_ucs4_to_utf8 str len = Some str8
                              /\ ch_size ch < length str8))
  end.
Proof.
  intros Hwf. unfold kmscon_char_set_ucs4.
  destruct (g_ucs4_to_utf8 str len) as [str8|] eqn:Ec.
  2:{ intros [= <- <- <-]. split; [done|]. by left. }
  intros E. destruct r as [[]|e|].
  - apply set_u8_ok in E as (? & ? & Hc & _); [|done..].
    rewrite firstn_all in Hc. by exists str8.
  - apply set_u8_failed in E as (-> & -> & ? & _); [|done].
    split; [done|]. right. split; [done|]. by exists str8.
  - by apply set_u8_failed in E as (? & _).
Qed.

Lemma set_ucs4_result_witness :
  char_wf key_A /\
  exists ch',
    @kmscon_char_set_ucs4 ascii_only key_A [104; 105]%Z 2 demo_machine
    = (Ok tt, ch', demo_machine)
    /\ content ch' = [Byte.x68; Byte.x69].
Proof.
  assert (char_wf key_A) as Hwf by (split; simpl; lia).
  split; [exact Hwf|].
  eexists. split; [vm_compute; reflexivity|].
  destruct (@set_ucs4_result ascii_only key_A _ [104; 105]%Z 2 demo_machine _ _
              Hwf eq_refl) as (str8 & Hc & _ & Hcontent & _).
  injection Hc as <-. exact Hcontent.
Defined.

(** ** Glyph references *)

Lemma set_heap_same (m : machine) : set_heap (heap m) m = m.
Proof. by destruct m. Qed.

Lemma glyph_eta (g : kmscon_glyph) :
  Glyph (glyph_ref g) (glyph_ch g) (glyph_width g) (glyph_src g) = g.
Proof. by destruct g. Qed.

Lemma glyph_ref_unref (m : machine) (p : glyph_ptr) (g : kmscon_glyph) :
  heap m !! p = Some (Some g) -> (0 < glyph_ref g < SIZE_MAX)%Z ->
  kmscon_glyph_unref (Some p)
    (set_heap (<[p := Some (Glyph (to_size_t (glyph_ref g + 1)) (glyph_ch g)
                              (glyph_width g) (glyph_src g))]> (heap m)) m)
  = (Ok tt, m).
Proof.
  intros Hp Hr. pose proof (lookup_lt_Some _ _ _ Hp) as Hlt.
  rewrite to_size_t_succ by lia.
  erewrite glyph_unref_run;
    [|simpl; by apply list_lookup_insert_eq|simpl; lia].
  simpl. rewrite list_insert_insert_eq.
  replace (glyph_ref g + 1 - 1)%Z with (glyph_ref g) by lia.
  rewrite glyph_eta, list_insert_id by done. by destruct m.
Qed.

(** X10: taking a reference and dropping it again leaves the machine exactly
    as it was, for a live glyph whose counter is not saturated; dropping the
    only reference frees the glyph. *)
Theorem glyph_ref_unref_balanced (m : machine) (p : glyph_ptr)
  (g : kmscon_glyph) :
  heap m !! p = Some (Some g) -> (0 < glyph_ref g < SIZE_MAX)%Z ->
  (kmscon_glyph_ref (Some p) ;;; kmscon_glyph_unref (Some p)) m = (Ok tt, m)
  /\ (glyph_ref g = 1%Z ->
      exists m', kmscon_glyph_unref (Some p) m = (Ok tt, m')
                 /\ heap m' !! p = Some None
                 /\ forall q, q <> p -> heap m' !! q = heap m !! q).
Proof.
  intros Hp Hr. split.
  - unfold bind. rewrite (glyph_ref_run m p g Hp). by apply glyph_ref_unref.
  - intros H1. rewrite (glyph_unref_last m p g Hp H1). eexists. split; [done|].
    simpl. split.
    + apply list_lookup_insert_eq. by eapply lookup_lt_Some.
    + intros q Hq. by apply list_lookup_insert_ne.
Qed.

Lemma glyph_ref_unref_balanced_witness :
  heap unset_machine !! 0 = Some (Some unset_glyph) /\
  (0 < glyph_ref unset_glyph < SIZE_MAX)%Z /\
  (kmscon_glyph_ref (Some 0) ;;; kmscon_glyph_unref (Some 0)) unset_machine
  = (Ok tt, unset_machine).
Proof.
  assert (0 < glyph_ref unset_glyph < SIZE_MAX)%Z as Hr by (by vm_compute).
  split; [reflexivity|]. split; [exact Hr|].
  exact (proj1 (glyph_ref_unref_balanced unset_machine 0 unset_glyph eq_refl Hr)).
Defined.

(** ** Shaping again *)

(** X11: [kmscon_glyph_set] changes nothing but the glyph it is given, and
    of that glyph only the description and the width: the reference count
    and the owned key stay.  When it fails, with [-EINVAL] or [-ENOMEM], the
    store is as before.  Shaping a glyph that was already shaped for the
    same font leaves the store as it is, whether the call succeeds or
    fails. *)
Theorem glyph_set_effect `{PangoEngine} (m m1 m2 : machine) (p : glyph_ptr)
  (g : kmscon_glyph) (c : kmscon_char) (f : kmscon_font)
  (r1 r2 : result unit) :
  heap m !! p = Some (Some g) -> glyph_ch g = Some c ->
  kmscon_glyph_set (Some p) (Some f) m = (r1, m1) ->
  cairo m1 = cairo m
  /\ (forall q, q <> p -> heap m1 !! q = heap m !! q)
  /\ match r1 with
     | Ok _ =>
         exists g1,
           heap m1 !! p = Some (Some g1)
           /\ glyph_ref g1 = glyph_ref g /\ glyph_ch g1 = glyph_ch g
           /\ glyph_src g1 <> GLYPH_NONE
           /\ (kmscon_glyph_set (Some p) (Some f) m1 = (r2, m2) ->
               heap m2 = heap m1)
     | _ => (r1 = Err EINVAL \/ r1 = Err ENOMEM) /\ heap m1 = heap m
     end.
Proof.
  intros Hp Hch E. pose proof (lookup_lt_Some _ _ _ Hp) as Hlt.
  destruct r1 as [[]|e|].
  - apply (glyph_set_ok m m1 p g c f Hp Hch) in E as [Hh Hc].
    split; [done|]. split.
    { intros q Hq. rewrite Hh. by apply list_lookup_insert_ne. }
    assert (heap m1 !! p = Some (Some (shaped_glyph f g c))) as Hp1.
    { rewrite Hh. by apply list_lookup_insert_eq. }
    exists (shaped_glyph f g c). split; [done|]. split; [done|].
    split; [done|]. split; [apply shaped_src_not_none|].
    intros E2. destruct r2 as [[]|e2|].
    + apply (glyph_set_ok m1 m2 p _ c f Hp1 Hch) in E2 as [Hh2 _].
      rewrite Hh2. by apply list_insert_id.
    + by apply (glyph_set_failed m1 m2 p _ c f _ Hp1 Hch) in E2 as (_ & ? & _).
    + by apply (glyph_set_failed m1 m2 p _ c f _ Hp1 Hch) in E2 as (_ & ? & _).
  - apply (glyph_set_failed m m1 p g c f _ Hp Hch) in E as (He & Hh & Hc);
      [|done].
    split; [done|]. split; [by intros; rewrite Hh|done].
  - apply (glyph_set_failed m m1 p g c f _ Hp Hch) in E as (He & Hh & Hc);
      [|done].
    split; [done|]. split; [by intros; rewrite Hh|done].
Qed.

Lemma glyph_set_effect_witness :
  heap unset_machine !! 0 = Some (Some unset_glyph) /\
  glyph_ch unset_glyph = Some key_A /\
  exists m1 g1,
    @kmscon_glyph_set demo_engine (Some 0) (Some unset_font) unset_machine
    = (Ok tt, m1)
    /\ heap m1 !! 0 = Some (Some g1) /\ glyph_ref g1 = 1%Z.
Proof.
  split; [reflexivity|]. split; [reflexivity|].
  pose (m1 := snd (@kmscon_glyph_set demo_engine (Some 0) (Some unset_font)
                     unset_machine)).
  destruct (@glyph_set_effect demo_engine unset_machine m1 unset_machine 0
              unset_glyph key_A unset_font (Ok tt) (Ok tt) eq_refl eq_refl
              eq_refl) as (_ & _ & g1 & Hg1 & Hr & _).
  exists m1, g1. split; [reflexivity|]. split; [exact Hg1|exact Hr].
Defined.

(** ** The cache under lookups *)

Lemma font_wf_heap (font : kmscon_font) (m m' : machine) :
  heap m' = heap m -> font_wf font m -> font_wf font m'.
Proof.
  intros Hh [Hall Hnd]. split; [|done].
  eapply Forall_impl; [exact Hall|]. intros e He.
  apply (entry_wf_mono m m' e He). by rewrite Hh.
Qed.

Lemma ght_lookup_app_l `{CPlatform} (tbl tbl' : GHashTable)
  (key : kmscon_char) (p : glyph_ptr) :
  g_hash_table_lookup tbl key = Some p ->
  g_hash_table_lookup (tbl ++ tbl') key = Some p.
Proof.
  induction tbl as [|[k v] tbl IH]; simpl; [done|].
  by destruct (key_matches k key).
Qed.

Lemma hit_is_live `{CPlatform} (font : kmscon_font) (key : kmscon_char)
  (m : machine) (p : glyph_ptr) :
  font_wf font m ->
  g_hash_table_lookup (font_glyphs font) key = Some p ->
  exists g, heap m !! p = Some (Some g) /\ (0 < glyph_ref g <= SIZE_MAX)%Z
            /\ glyph_src g <> GLYPH_NONE.
Proof.
  intros Hwf Hl. destruct (ght_lookup_in _ _ _ Hl) as (k & Hin & _).
  by destruct (font_wf_live font m k p Hwf Hin) as (_ & _ & ?).
Qed.

(** A lookup that does not return a glyph was a miss. *)
Lemma lookup_not_ok_missed `{CPlatform} `{PangoEngine}
  (font font' : kmscon_font) (key : kmscon_char) (m m' : machine)
  (r : result glyph_ptr) :
  font_wf font m ->
  kmscon_font_lookup font (Some key) true m = (r, font', m') ->
  (forall p, r <> Ok p) ->
  g_hash_table_lookup (font_glyphs font) key = None.
Proof.
  intros Hwf E Hr.
  destruct (g_hash_table_lookup (font_glyphs font) key) as [p|] eqn:Hl; [|done].
  destruct (hit_is_live font key m p Hwf Hl) as (g & Hg & _).
  rewrite (lookup_hit font key m p g Hl Hg) in E. injection E as <- _ _.
  by destruct (Hr p).
Qed.

(** X12: a lookup that fails returns [-EINVAL] or [-ENOMEM] and leaves the
    cache as it found it: the table is the same, no glyph is touched, the
    glyph it may have started to build is freed again, nothing is drawn,
    and the cache is still well formed. *)
Theorem failed_lookup_leaves_cache `{CPlatform} `{PangoEngine}
  (font font' : kmscon_font) (key : kmscon_char) (m m' : machine)
  (r : result glyph_ptr) :
  font_wf font m -> char_wf key ->
  kmscon_font_lookup font (Some key) true m = (r, font', m') ->
  (forall p, r <> Ok p) ->
  (r = Err EINVAL \/ r = Err ENOMEM)
  /\ font' = font
  /\ (heap m' = heap m \/ heap m' = heap m ++ [None])
  /\ (forall q g, heap m !! q = Some (Some g) -> heap m' !! q = Some (Some g))
  /\ cairo m' = cairo m
  /\ font_wf font m'.
Proof.
  intros Hwf Hkey E Hr.
  pose proof (lookup_not_ok_missed _ _ _ _ _ _ Hwf E Hr) as Hmiss.
  assert (font_wf font' m') as Hwf'.
  { eapply lookup_preserves_font_wf; [exact Hwf|exact Hkey| |exact E].
    intros p g Hl. by rewrite Hmiss in Hl. }
  destruct r as [p|e|]; [by destruct (Hr p)| |by apply lookup_defined in E].
  destruct (lookup_failed font font' key m m' e Hwf Hkey E)
    as (-> & He & Hh & Hc).
  split; [by destruct He as [-> | ->]; auto|]. split; [done|].
  split; [done|]. split; [|done].
  intros q g Hq. destruct Hh as [-> | ->]; [done|].
  rewrite lookup_app_l; [done|by eapply lookup_lt_Some].
Qed.

Lemma failed_lookup_leaves_cache_witness :
  let m :=
    set_allocs [AllocGrant Byte.x00; AllocGrant Byte.x00; AllocGrant Byte.x00;
                AllocGrant Byte.x00; AllocGrant Byte.x00; AllocFail]
      machine_after_A in
  font_wf font_after_A m /\ char_wf key_e_acute /\
  exists m',
    @kmscon_font_lookup signed_char demo_engine font_after_A
      (Some key_e_acute) true m = (Err EINVAL, font_after_A, m')
    /\ heap m' = heap m ++ [None].
Proof.
  intros m.
  assert (char_wf key_A) as HA by (split; simpl; lia).
  assert (char_wf key_e_acute) as He by (split; simpl; lia).
  assert (font_wf font_after_A m) as Hwf.
  { apply (font_wf_heap _ machine_after_A); [reflexivity|].
    apply (@lookup_preserves_font_wf signed_char demo_engine demo_font
             font_after_A key_A demo_machine machine_after_A (Ok 0)
             font_wf_demo HA); [by intros p g [=]|reflexivity]. }
  split; [exact Hwf|]. split; [exact He|].
  pose (m' := snd (@kmscon_font_lookup signed_char demo_engine font_after_A
                     (Some key_e_acute) true m)).
  exists m'. split; [vm_compute; reflexivity|].
  destruct (@failed_lookup_leaves_cache signed_char demo_engine font_after_A
              font_after_A key_e_acute m m' (Err EINVAL) Hwf He
              ltac:(vm_compute; reflexivity) ltac:(done))
    as (_ & _ & [Hh|Hh] & _); [|exact Hh].
  vm_compute in Hh. discriminate Hh.
Defined.

(** X13: a hit does no work beyond the reference: it asks for no memory,
    draws nothing, leaves the table and every other glyph alone, and changes
    nothing about the glyph it returns except the counter. *)
Theorem lookup_hit_frame `{CPlatform} `{PangoEngine} (font : kmscon_font)
  (key : kmscon_char) (m : machine) (p : glyph_ptr) :
  font_wf font m ->
  g_hash_table_lookup (font_glyphs font) key = Some p ->
  exists m' g g',
    kmscon_font_lookup font (Some key) true m = (Ok p, font, m')
    /\ allocs m' = allocs m /\ cairo m' = cairo m
    /\ length (heap m') = length (heap m)
    /\ (forall q, q <> p -> heap m' !! q = heap m !! q)
    /\ heap m !! p = Some (Some g) /\ heap m' !! p = Some (Some g')
    /\ glyph_ch g' = glyph_ch g /\ glyph_width g' = glyph_width g
    /\ glyph_src g' = glyph_src g.
Proof.
  intros Hwf Hl. destruct (hit_is_live font key m p Hwf Hl) as (g & Hg & _).
  pose proof (lookup_lt_Some _ _ _ Hg) as Hlt.
  eexists _, g, _. split; [exact (lookup_hit font key m p g Hl Hg)|]. simpl.
  split; [done|]. split; [done|]. split; [by rewrite length_insert|].
  split; [by intros q Hq; apply list_lookup_insert_ne|].
  split; [done|]. split; [by apply list_lookup_insert_eq|done].
Qed.

Lemma lookup_hit_frame_witness :
  font_wf font_after_A machine_after_A /\
  @g_hash_table_lookup signed_char (font_glyphs font_after_A) key_A' = Some 0 /\
  exists m',
    @kmscon_font_lookup signed_char demo_engine font_after_A (Some key_A') true
      machine_after_A = (Ok 0, font_after_A, m')
    /\ allocs m' = allocs machine_after_A.
Proof.
  assert (char_wf key_A) as HA by (split; simpl; lia).
  assert (font_wf font_after_A machine_after_A) as Hwf.
  { apply (@lookup_preserves_font_wf signed_char demo_engine demo_font
             font_after_A key_A demo_machine machine_after_A (Ok 0)
             font_wf_demo HA); [by intros p g [=]|reflexivity]. }
  split; [exact Hwf|]. split; [reflexivity|].
  destruct (@lookup_hit_frame signed_char demo_engine font_after_A key_A'
              machine_after_A 0 Hwf eq_refl) as (m' & g & g' & E & Ha & _).
  exists m'. split; [exact E|exact Ha].
Defined.

(** X14: the cache never forgets: after any lookup, whatever its outcome,
    every key that was found before is still found, with the same glyph;
    the table has one entry more after a miss that succeeds and is the same
    table otherwise. *)
Theorem lookup_never_evicts `{CPlatform} `{PangoEngine}
  (font font' : kmscon_font) (key : kmscon_char) (m m' : machine)
  (r : result glyph_ptr) :
  font_wf font m -> char_wf key ->
  kmscon_font_lookup font (Some key) true m = (r, font', m') ->
  (forall key2 q,
      g_hash_table_lookup (font_glyphs font) key2 = Some q ->
      g_hash_table_lookup (font_glyphs font') key2 = Some q)
  /\ match r, g_hash_table_lookup (font_glyphs font) key with
     | Ok p, None =>
         exists ch, font_glyphs font' = font_glyphs font ++ [(ch, p)]
                    /\ content ch = content key
     | _, _ => font' = font
     end.
Proof.
  intros Hwf Hkey E.
  destruct (g_hash_table_lookup (font_glyphs font) key) as [p|] eqn:Hl.
  - destruct (hit_is_live font key m p Hwf Hl) as (g & Hg & _).
    rewrite (lookup_hit font key m p g Hl Hg) in E. injection E as <- <- <-.
    done.
  - destruct r as [p|e|].
    + destruct (lookup_miss font font' key m m' p Hwf Hkey Hl E)
        as (_ & _ & ch & c & w & _ & _ & Hc & _ & _ & -> & _).
      split; [|by exists ch]. intros key2 q Hq. simpl.
      by apply ght_lookup_app_l.
    + by destruct (lookup_failed font font' key m m' e Hwf Hkey E) as (-> & _).
    + by apply lookup_defined in E.
Qed.

Lemma lookup_never_evicts_witness :
  font_wf font_after_A machine_after_A /\ char_wf key_e_acute /\
  exists r font' m',
    @kmscon_font_lookup signed_char demo_engine font_after_A
      (Some key_e_acute) true machine_after_A = (r, font', m')
    /\ @g_hash_table_lookup signed_char (font_glyphs font') key_A = Some 0
    /\ length (font_glyphs font') = 2.
Proof.
  assert (char_wf key_A) as HA by (split; simpl; lia).
  assert (char_wf key_e_acute) as He by (split; simpl; lia).
  assert (font_wf font_after_A machine_after_A) as Hwf.
  { apply (@lookup_preserves_font_wf signed_char demo_engine demo_font
             font_after_A key_A demo_machine machine_after_A (Ok 0)
             font_wf_demo HA); [by intros p g [=]|reflexivity]. }
  split; [exact Hwf|]. split; [exact He|].
  destruct (@kmscon_font_lookup signed_char demo_engine font_after_A
              (Some key_e_acute) true machine_after_A) as [[r font'] m'] eqn:E.
  exists r, font', m'. split; [reflexivity|].
  destruct (@lookup_never_evicts signed_char demo_engine font_after_A font'
              key_e_acute machine_after_A m' r Hwf He E) as [Hkeep _].
  split; [exact (Hkeep key_A 0 eq_refl)|].
  vm_compute in E. injection E as _ <- _. reflexivity.
Defined.

Lemma font_wf_unref (font : kmscon_font) (m : machine) (p : glyph_ptr)
  (g : kmscon_glyph) :
  font_wf font m -> heap m !! p = Some (Some g) -> (1 < glyph_ref g)%Z ->
  font_wf font
    (set_heap (<[p := Some (Glyph (glyph_ref g - 1) (glyph_ch g) (glyph_width g)
                              (glyph_src g))]> (heap m)) m).
Proof.
  intros [Hall Hnd] Hp Hr. split; [|done].
  eapply Forall_impl; [exact Hall|].
  intros [k q] (Hk & Hpos & g' & Hg' & Hr' & Hs'). simpl in *.
  split; [done|]. split; [done|]. simpl.
  destruct (decide (q = p)) as [->|Hne].
  - eexists. split; [apply list_lookup_insert_eq; by eapply lookup_lt_Some|].
    assert (g' = g) as -> by congruence. simpl. split; [lia|done].
  - exists g'. rewrite list_lookup_insert_ne by done. by auto.
Qed.

(** What a caller that looks a key up and gives the glyph back gets. *)
Lemma lookup_unref `{CPlatform} `{PangoEngine} (font font1 : kmscon_font)
  (key : kmscon_char) (m m1 : machine) (p : glyph_ptr) :
  font_wf font m -> char_wf key -> hit_not_saturated font key m ->
  kmscon_font_lookup font (Some key) true m = (Ok p, font1, m1) ->
  exists g1 g2,
    heap m1 !! p = Some (Some g1) /\ (1 < glyph_ref g1 <= SIZE_MAX)%Z
    /\ g2 = Glyph (glyph_ref g1 - 1) (glyph_ch g1) (glyph_width g1)
              (glyph_src g1)
    /\ glyph_src g1 <> GLYPH_NONE
    /\ g_hash_table_lookup (font_glyphs font1) key = Some p
    /\ font_wf font1 (set_heap (<[p := Some g2]> (heap m1)) m1)
    /\ (glyph_ref g2 < SIZE_MAX)%Z
    /\ cairo m1 = cairo m
    /\ match g_hash_table_lookup (font_glyphs font) key with
       | Some _ =>
           font1 = font /\ set_heap (<[p := Some g2]> (heap m1)) m1 = m
       | None => <[p := Some g2]> (heap m1) = heap m ++ [Some g2]
                 /\ glyph_ref g2 = 1%Z
       end.
Proof.
  intros Hwf Hkey Hsat E.
  pose proof (lookup_preserves_font_wf font font1 key m m1 (Ok p) Hwf Hkey
                Hsat E) as Hwf1.
  destruct (g_hash_table_lookup (font_glyphs font) key) as [q|] eqn:Hl.
  - destruct (hit_is_live font key m q Hwf Hl) as (g & Hg & Hr & Hs).
    specialize (Hsat q g Hl Hg).
    pose proof (lookup_lt_Some _ _ _ Hg) as Hlt.
    rewrite (lookup_hit font key m q g Hl Hg) in E. injection E as <- <- <-.
    rewrite to_size_t_succ in * by lia.
    eexists _, _. split; [simpl; by apply list_lookup_insert_eq|]. simpl.
    replace (glyph_ref g + 1 - 1)%Z with (glyph_ref g) by lia.
    rewrite glyph_eta. rewrite list_insert_insert_eq, list_insert_id by done.
    assert (forall h, set_heap (heap m) (set_heap h m) = m) as Heta
      by (intros; by destruct m).
    rewrite !Heta. unfold SIZE_MAX in *.
    split; [lia|]. split; [done|]. split; [done|]. split; [done|].
    split; [done|]. split; [lia|]. done.
  - destruct (lookup_miss font font1 key m m1 p Hwf Hkey Hl E)
      as (-> & Hpos & ch & c & w & Hchwf & _ & Hchc & _ & _ & -> & Hh & Hc).
    set (g1 := shaped_glyph font (Glyph 2 (Some c) w GLYPH_NONE) c) in *.
    assert (heap m1 !! length (heap m) = Some (Some g1)) as Hg1
      by (rewrite Hh; by apply list_lookup_middle).
    exists g1, (Glyph (glyph_ref g1 - 1) (glyph_ch g1) (glyph_width g1)
                  (glyph_src g1)).
    split; [done|]. split; [by vm_compute|]. split; [done|].
    split; [apply shaped_src_not_none|].
    split; [simpl; apply ght_lookup_snoc; [done|by apply key_matches_content]|].
    split; [by apply font_wf_unref|]. split; [by vm_compute|]. split; [done|].
    split; [|done]. rewrite Hh, insert_app_r_alt by lia.
    by rewrite Nat.sub_diag.
Qed.

(** X15: a caller that looks a key up and then gives the glyph back leaves a
    cache that knew the key exactly as it was, and a cache that did not
    with one more glyph, held by the table alone (count 1); in both cases
    the cache is well formed and the key is now found. *)
Theorem lookup_unref_balanced `{CPlatform} `{PangoEngine}
  (font font1 : kmscon_font) (key : kmscon_char) (m m1 : machine)
  (p : glyph_ptr) :
  font_wf font m -> char_wf key -> hit_not_saturated font key m ->
  kmscon_font_lookup font (Some key) true m = (Ok p, font1, m1) ->
  exists m2,
    kmscon_glyph_unref (Some p) m1 = (Ok tt, m2)
    /\ font_wf font1 m2
    /\ g_hash_table_lookup (font_glyphs font1) key = Some p
    /\ match g_hash_table_lookup (font_glyphs font) key with
       | Some _ => font1 = font /\ m2 = m
       | None =>
           exists g, heap m2 = heap m ++ [Some g] /\ glyph_ref g = 1%Z
                     /\ glyph_src g <> GLYPH_NONE
       end.
Proof.
  intros Hwf Hkey Hsat E.
  destruct (lookup_unref font font1 key m m1 p Hwf Hkey Hsat E)
    as (g1 & g2 & Hg1 & Hr1 & -> & Hs1 & Hl1 & Hwf2 & _ & _ & Hcase).
  eexists. split; [by apply (glyph_unref_run m1 p g1)|].
  split; [done|]. split; [done|].
  destruct (g_hash_table_lookup (font_glyphs font) key); [done|].
  destruct Hcase as [Hh Hr]. eexists. by rewrite Hh.
Qed.

Lemma lookup_unref_balanced_witness :
  font_wf demo_font demo_machine /\ char_wf key_A /\
  @hit_not_saturated signed_char demo_font key_A demo_machine /\
  exists m2 g,
    kmscon_glyph_unref (Some 0) machine_after_A = (Ok tt, m2)
    /\ heap m2 = [Some g] /\ glyph_ref g = 1%Z.
Proof.
  assert (char_wf key_A) as HA by (split; simpl; lia).
  assert (@hit_not_saturated signed_char demo_font key_A demo_machine) as Hsat
    by (by intros p g [=]).
  split; [exact font_wf_demo|]. split; [exact HA|]. split; [exact Hsat|].
  destruct (@lookup_unref_balanced signed_char demo_engine demo_font
              font_after_A key_A demo_machine machine_after_A 0 font_wf_demo
              HA Hsat eq_refl) as (m2 & E & _ & _ & g & Hh & Hr & _).
  exists m2, g. split; [exact E|]. split; [exact Hh|exact Hr].
Defined.

(** X16: the invariant of the cache.  A cache with an empty table is well
    formed, and every outcome of a lookup on a well-formed cache leaves a
    well-formed cache: keys constructed and not empty, every entry the
    address of a live, shaped glyph with a positive count, no glyph entered
    twice. *)
Theorem lookup_keeps_cache_well_formed `{CPlatform} `{PangoEngine}
  (font font' : kmscon_font) (key : kmscon_char) (m m' : machine)
  (r : result glyph_ptr) :
  (font_glyphs font = [] -> font_wf font m)
  /\ (font_wf font m -> char_wf key -> hit_not_saturated font key m ->
      kmscon_font_lookup font (Some key) true m = (r, font', m') ->
      font_wf font' m').
Proof.
  split.
  - intros E. split; rewrite E; simpl; constructor.
  - intros Hwf Hkey Hsat E.
    exact (lookup_preserves_font_wf font font' key m m' r Hwf Hkey Hsat E).
Qed.

Lemma lookup_keeps_cache_well_formed_witness :
  font_wf demo_font demo_machine /\ char_wf key_A /\
  @hit_not_saturated signed_char demo_font key_A demo_machine /\
  font_wf font_after_A machine_after_A.
Proof.
  assert (char_wf key_A) as HA by (split; simpl; lia).
  assert (@hit_not_saturated signed_char demo_font key_A demo_machine) as Hsat
    by (by intros p g [=]).
  destruct (@lookup_keeps_cache_well_formed signed_char demo_engine demo_font
              font_after_A key_A demo_machine machine_after_A (Ok 0))
    as [Hinit Hkeep].
  split; [exact (Hinit eq_refl)|]. split; [exact HA|]. split; [exact Hsat|].
  exact (Hkeep (Hinit eq_refl) HA Hsat eq_refl).
Defined.

(** ** Drawing on a well-formed cache *)

Lemma draw_commands_not_nil (cr : cairo_t) (x y : Z) (t : glyph_type) :
  t <> GLYPH_NONE -> draw_commands cr x y t <> [].
Proof. by destruct t. Qed.

(** The draw, once its lookup has returned a glyph. *)
Lemma draw_run `{CPlatform} `{PangoEngine} (font font1 : kmscon_font)
  (key : kmscon_char) (cr : cairo_t) (x y : Z) (m m1 : machine)
  (p : glyph_ptr) (g1 : kmscon_glyph) :
  kmscon_font_lookup font (Some key) true m = (Ok p, font1, m1) ->
  heap m1 !! p = Some (Some g1) -> (1 < glyph_ref g1 <= SIZE_MAX)%Z ->
  kmscon_font_draw font (Some key) (Some cr) x y m
  = (Ok tt, font1,
     emit (draw_commands cr x y (glyph_src g1))
       (set_heap (<[p := Some (Glyph (glyph_ref g1 - 1) (glyph_ch g1)
                                 (glyph_width g1) (glyph_src g1))]> (heap m1))
          m1)).
Proof.
  intros E Hg1 Hr. unfold kmscon_font_draw. rewrite E, (load_ok m1 p g1 Hg1).
  destruct (glyph_src g1) eqn:Es; cbv beta iota;
    (erewrite glyph_unref_run; [|exact Hg1|exact Hr]); rewrite Es; try done.
  unfold emit, set_heap. simpl. by rewrite app_nil_r.
Qed.

(** X17: on a well-formed cache a draw either returns 0, and then it has
    issued exactly the commands of the glyph now entered under the key (a
    move-to and a show; never the empty dispatch), or it fails with the
    status of the lookup and has drawn nothing and left the table as it
    was.  In both cases the cache is well formed afterwards and no dangling
    glyph was touched. *)
Theorem draw_result `{CPlatform} `{PangoEngine} (font font1 : kmscon_font)
  (key : kmscon_char) (cr : cairo_t) (x y : Z) (m m1 : machine)
  (r : result unit) :
  font_wf font m -> char_wf key -> hit_not_saturated font key m ->
  kmscon_font_draw font (Some key) (Some cr) x y m = (r, font1, m1) ->
  font_wf font1 m1
  /\ match r with
     | Ok _ =>
         exists p g,
           g_hash_table_lookup (font_glyphs font1) key = Some p
           /\ heap m1 !! p = Some (Some g)
           /\ glyph_src g <> GLYPH_NONE
           /\ cairo m1 = cairo m ++ draw_commands cr x y (glyph_src g)
     | Err e =>
         (e = EINVAL \/ e = ENOMEM) /\ font1 = font /\ cairo m1 = cairo m
     | Undef => False
     end.
Proof.
  intros Hwf Hkey Hsat E.
  destruct (kmscon_font_lookup font (Some key) true m) as [[rl fl] ml] eqn:El.
  destruct rl as [p|e|].
  - destruct (lookup_unref font fl key m ml p Hwf Hkey Hsat El)
      as (g1 & g2 & Hg1 & Hr1 & -> & Hs1 & Hl1 & Hwf2 & _ & Hc & _).
    rewrite (draw_run font fl key cr x y m ml p g1 El Hg1 Hr1) in E.
    injection E as <- <- <-. split; [by eapply font_wf_heap|].
    eexists p, _. split; [done|]. split.
    { simpl. apply list_lookup_insert_eq. by eapply lookup_lt_Some. }
    split; [done|]. simpl. by rewrite Hc.
  - assert (r = Err e /\ font1 = fl /\ m1 = ml) as (-> & -> & ->).
    { revert E. unfold kmscon_font_draw. rewrite El. by intros [= <- <- <-]. }
    destruct (lookup_failed font fl key m ml e Hwf Hkey El)
      as (-> & He & _ & Hc).
    split; [|done].
    eapply lookup_preserves_font_wf; [exact Hwf|exact Hkey|exact Hsat|exact El].
  - by apply lookup_defined in El.
Qed.

Lemma draw_result_witness :
  font_wf demo_font demo_machine /\ char_wf key_A /\
  @hit_not_saturated signed_char demo_font key_A demo_machine /\
  exists font1 m1,
    @kmscon_font_draw signed_char demo_engine demo_font (Some key_A) (Some 7)
      3 4 demo_machine = (Ok tt, font1, m1)
    /\ cairo m1 = [cairo_move_to 7 3 17;
                   pango_cairo_show_glyph_string 7 1 [(65, 8192%Z)]].
Proof.
  assert (char_wf key_A) as HA by (split; simpl; lia).
  assert (@hit_not_saturated signed_char demo_font key_A demo_machine) as Hsat
    by (by intros p g [=]).
  split; [exact font_wf_demo|]. split; [exact HA|]. split; [exact Hsat|].
  destruct (@kmscon_font_draw signed_char demo_engine demo_font (Some key_A)
              (Some 7) 3%Z 4%Z demo_machine) as [[r font1] m1] eqn:E.
  pose proof (@draw_result signed_char demo_engine demo_font font1 key_A 7
                3%Z 4%Z demo_machine m1 r font_wf_demo HA Hsat E) as [_ Hr].
  vm_compute in E. injection E as <- <- <-.
  eexists _, _. split; [reflexivity|]. reflexivity.
Defined.

(** A draw whose key is in the table. *)
Lemma draw_hit_run `{CPlatform} `{PangoEngine} (font : kmscon_font)
  (key : kmscon_char) (cr : cairo_t) (x y : Z) (m : machine) (p : glyph_ptr)
  (g : kmscon_glyph) :
  g_hash_table_lookup (font_glyphs font) key = Some p ->
  heap m !! p = Some (Some g) -> (0 < glyph_ref g < SIZE_MAX)%Z ->
  kmscon_font_draw font (Some key) (Some cr) x y m
  = (Ok tt, font, emit (draw_commands cr x y (glyph_src g)) m).
Proof.
  intros Hl Hg Hr. pose proof (lookup_lt_Some _ _ _ Hg) as Hlt.
  erewrite draw_run;
    [|exact (lookup_hit font key m p g Hl Hg)
     |simpl; by apply list_lookup_insert_eq
     |simpl; rewrite to_size_t_succ by lia; unfold SIZE_MAX in *; lia].
  simpl. rewrite to_size_t_succ by lia.
  replace (glyph_ref g + 1 - 1)%Z with (glyph_ref g) by lia.
  rewrite glyph_eta, list_insert_insert_eq, list_insert_id by done.
  by destruct m.
Qed.

(** X18: drawing a key that is in the table changes nothing but the drawing:
    the font, the oracle and the whole glyph store, counters included, are
    as before, and the commands of the cached glyph are appended to the
    target's log. *)
Theorem draw_hit `{CPlatform} `{PangoEngine} (font : kmscon_font)
  (key : kmscon_char) (cr : cairo_t) (x y : Z) (m : machine) (p : glyph_ptr) :
  font_wf font m -> hit_not_saturated font key m ->
  g_hash_table_lookup (font_glyphs font) key = Some p ->
  exists g m',
    heap m !! p = Some (Some g)
    /\ kmscon_font_draw font (Some key) (Some cr) x y m = (Ok tt, font, m')
    /\ allocs m' = allocs m /\ heap m' = heap m
    /\ cairo m' = cairo m ++ draw_commands cr x y (glyph_src g)
    /\ draw_commands cr x y (glyph_src g) <> [].
Proof.
  intros Hwf Hsat Hl.
  destruct (hit_is_live font key m p Hwf Hl) as (g & Hg & Hr & Hs).
  specialize (Hsat p g Hl Hg).
  exists g, (emit (draw_commands cr x y (glyph_src g)) m).
  split; [done|]. split; [apply (draw_hit_run font key cr x y m p g); [done..|lia]|].
  split; [done|]. split; [done|]. split; [done|].
  by apply draw_commands_not_nil.
Qed.

Lemma draw_hit_witness :
  font_wf font_after_A machine_after_A /\
  @hit_not_saturated signed_char font_after_A key_A' machine_after_A /\
  @g_hash_table_lookup signed_char (font_glyphs font_after_A) key_A' = Some 0 /\
  exists m',
    @kmscon_font_draw signed_char demo_engine font_after_A (Some key_A')
      (Some 7) 3 4 machine_after_A = (Ok tt, font_after_A, m')
    /\ heap m' = heap machine_after_A.
Proof.
  assert (char_wf key_A) as HA by (split; simpl; lia).
  assert (font_wf font_after_A machine_after_A) as Hwf.
  { apply (@lookup_preserves_font_wf signed_char demo_engine demo_font
             font_after_A key_A demo_machine machine_after_A (Ok 0)
             font_wf_demo HA); [by intros p g [=]|reflexivity]. }
  assert (@hit_not_saturated signed_char font_after_A key_A' machine_after_A)
    as Hsat.
  { intros p g Hp Hg. vm_compute in Hp. injection Hp as <-.
    vm_compute in Hg. injection Hg as <-. by vm_compute. }
  split; [exact Hwf|]. split; [exact Hsat|]. split; [reflexivity|].
  destruct (@draw_hit signed_char demo_engine font_after_A key_A' 7 3%Z 4%Z
              machine_after_A 0 Hwf Hsat eq_refl)
    as (g & m' & _ & E & _ & Hh & _).
  exists m'. split; [exact E|exact Hh].
Defined.

(** X19: after a draw that returned 0, drawing the same key again is a hit:
    it returns 0, asks for no memory, leaves font and glyph store as they
    are, and issues the same commands as the first draw did for the same
    target and position. *)
Theorem draw_again `{CPlatform} `{PangoEngine} (font font1 : kmscon_font)
  (key : kmscon_char) (cr : cairo_t) (x y : Z) (m m1 : machine) :
  font_wf font m -> char_wf key -> hit_not_saturated font key m ->
  kmscon_font_draw font (Some key) (Some cr) x y m = (Ok tt, font1, m1) ->
  exists cmds,
    cmds <> []
    /\ cairo m1 = cairo m ++ cmds
    /\ kmscon_font_draw font1 (Some key) (Some cr) x y m1
       = (Ok tt, font1, emit cmds m1).
Proof.
  intros Hwf Hkey Hsat E.
  destruct (kmscon_font_lookup font (Some key) true m) as [[rl fl] ml] eqn:El.
  destruct rl as [p|e|].
  - destruct (lookup_unref font fl key m ml p Hwf Hkey Hsat El)
      as (g1 & g2 & Hg1 & Hr1 & Hg2 & Hs1 & Hl1 & Hwf2 & Hr2 & Hc & _).
    rewrite (draw_run font fl key cr x y m ml p g1 El Hg1 Hr1) in E.
    rewrite <- Hg2 in E. injection E as <- <-.
    exists (draw_commands cr x y (glyph_src g1)).
    split; [by apply draw_commands_not_nil|]. split; [simpl; by rewrite Hc|].
    rewrite (draw_hit_run fl key cr x y _ p g2 Hl1).
    + by rewrite Hg2.
    + simpl. apply list_lookup_insert_eq. by eapply lookup_lt_Some.
    + rewrite Hg2 in *. simpl in *. lia.
  - revert E. unfold kmscon_font_draw. by rewrite El.
  - by apply lookup_defined in El.
Qed.

Lemma draw_again_witness :
  font_wf demo_font demo_machine /\ char_wf key_A /\
  @hit_not_saturated signed_char demo_font key_A demo_machine /\
  exists font1 m1 m2,
    @kmscon_font_draw signed_char demo_engine demo_font (Some key_A) (Some 7)
      3 4 demo_machine = (Ok tt, font1, m1)
    /\ @kmscon_font_draw signed_char demo_engine font1 (Some key_A) (Some 7)
         3 4 m1 = (Ok tt, font1, m2)
    /\ heap m2 = heap m1 /\ length (cairo m2) = 4.
Proof.
  assert (char_wf key_A) as HA by (split; simpl; lia).
  assert (@hit_not_saturated signed_char demo_font key_A demo_machine) as Hsat
    by (by intros p g [=]).
  split; [exact font_wf_demo|]. split; [exact HA|]. split; [exact Hsat|].
  pose (d := @kmscon_font_draw signed_char demo_engine demo_font (Some key_A)
               (Some 7) 3%Z 4%Z demo_machine).
  destruct (@draw_again signed_char demo_engine demo_font (snd (fst d)) key_A 7
              3%Z 4%Z demo_machine (snd d) font_wf_demo HA Hsat eq_refl)
    as (cmds & _ & Hc & E2).
  exists (snd (fst d)), (snd d), (emit cmds (snd d)).
  split; [reflexivity|]. split; [exact E2|]. split; [reflexivity|].
  change (length (cairo (snd d) ++ cmds) = 4).
  vm_compute in Hc. subst cmds. reflexivity.
Defined.

(** ** When memory is granted *)

Lemma all_granted_allocs (m m' : machine) :
  allocs m' = allocs m -> all_granted m -> all_granted m'.
Proof. unfold all_granted. by intros ->. Qed.

Lemma glyph_new_granted (key : kmscon_char) (m : machine) :
  all_granted m -> 0 < ch_len key ->
  exists p m', kmscon_glyph_new true (Some key) m = (Ok p, m')
               /\ all_granted m'.
Proof.
  intros Hg Hpos. unfold kmscon_glyph_new.
  destruct (Nat.eqb_spec (ch_len key) 0); [lia|].
  destruct (malloc_granted m Hg) as (junk & m1 & -> & Hg1).
  edestruct (dup_granted key) as (c & m3 & -> & Hg3);
    [|unfold bind, store, ret; eexists _, _; split; [reflexivity|]].
  - by apply (all_granted_allocs m1).
  - by apply (all_granted_allocs m3).
Qed.

Lemma glyph_set_granted `{PangoEngine} (m : machine) (p : glyph_ptr)
  (g : kmscon_glyph) (c : kmscon_char) (f : kmscon_font) :
  all_granted m -> heap m !! p = Some (Some g) -> glyph_ch g = Some c ->
  exists m', kmscon_glyph_set (Some p) (Some f) m = (Ok tt, m')
             /\ all_granted m'.
Proof.
  intros Hg Hp Hch. rewrite (glyph_set_run m p g c f Hp Hch).
  destruct (malloc_granted m Hg) as (j1 & m1 & -> & Hg1).
  destruct (single_run _).
  - destruct (malloc_granted m1 Hg1) as (j2 & m2 & -> & Hg2).
    eexists. split; [done|]. by apply (all_granted_allocs m2).
  - eexists. split; [done|]. by apply (all_granted_allocs m1).
Qed.

Lemma lookup_granted `{CPlatform} `{PangoEngine} (font : kmscon_font)
  (key : kmscon_char) (m : machine) :
  all_granted m -> font_wf font m -> char_wf key -> 0 < ch_len key ->
  exists p font' m',
    kmscon_font_lookup font (Some key) true m = (Ok p, font', m')
    /\ all_granted m'.
Proof.
  intros Hg Hwf Hkey Hpos.
  destruct (g_hash_table_lookup (font_glyphs font) key) as [p|] eqn:Hl.
  { destruct (hit_is_live font key m p Hwf Hl) as (g & Hp & _).
    eexists _, _, _. split; [exact (lookup_hit font key m p g Hl Hp)|].
    by apply (all_granted_allocs m). }
  unfold kmscon_font_lookup. rewrite Hl.
  destruct (dup_granted key m Hg) as (ch & m1 & E1 & Hg1). rewrite E1.
  apply dup_ok in E1 as (Hchwf & _ & Hchc & Hh1 & _); [|done].
  destruct (glyph_new_granted key m1 Hg1 Hpos) as (q & m2 & E2 & Hg2).
  rewrite E2.
  apply glyph_new_ok in E2 as (-> & _ & c & w & Hh2 & Hcwf & _ & Hcc & _);
    [|done].
  set (g0 := Glyph 1 (Some c) w GLYPH_NONE) in *.
  assert (heap m2 !! length (heap m1) = Some (Some g0)) as Hq.
  { rewrite Hh2. by apply list_lookup_middle. }
  destruct (glyph_set_granted m2 _ g0 c font Hg2 Hq eq_refl) as (m3 & E3 & Hg3).
  rewrite E3.
  apply (glyph_set_ok m2 m3 _ g0 c font Hq eq_refl) in E3 as [Hh3 _].
  rewrite ght_insert_fresh.
  2:{ apply ght_lookup_none in Hl. pose proof (font_wf_keys _ _ Hwf) as Hks.
      rewrite Forall_forall in Hl, Hks. apply Forall_forall. intros e' He.
      specialize (Hl e' He). specialize (Hks e' He).
      destruct (key_matches (fst e') ch) eqn:Em; [|done].
      apply key_matches_content in Em; [|done..].
      rewrite <- Hl. symmetry. apply key_matches_content; [done..|congruence]. }
  erewrite glyph_ref_run.
  2:{ rewrite Hh3, Hh2. apply list_lookup_insert_eq.
      rewrite length_app. simpl. lia. }
  eexists _, _, _. split; [done|]. by apply (all_granted_allocs m3).
Qed.

(** ** One probe of the width measurement *)

Lemma cache_quiet_wf (font : kmscon_font) (m : machine) :
  cache_quiet font m -> font_wf font m.
Proof. by intros [? _]. Qed.

Lemma cache_quiet_not_saturated `{CPlatform} (font : kmscon_font)
  (key : kmscon_char) (m : machine) :
  cache_quiet font m -> hit_not_saturated font key m.
Proof.
  intros [_ Hall] p g Hl Hg. destruct (ght_lookup_in _ _ _ Hl) as (k & Hin & _).
  rewrite Forall_forall in Hall. destruct (Hall _ Hin) as (g' & Hg' & Hr).
  simpl in Hg'. assert (g' = g) as -> by congruence.
  rewrite Hr. by vm_compute.
Qed.

Lemma cache_quiet_mono (font : kmscon_font) (m m' : machine) :
  cache_quiet font m ->
  (forall q g, heap m !! q = Some (Some g) -> heap m' !! q = Some (Some g)) ->
  cache_quiet font m'.
Proof.
  intros [[Hall Hnd] Hq] Hkeep. split; [split; [|done]|].
  - eapply Forall_impl; [exact Hall|]. intros e He.
    apply (entry_wf_mono m m' e He). apply Hkeep.
  - eapply Forall_impl; [exact Hq|]. intros e (g & Hg & Hr). by eauto.
Qed.

(** A lookup on a quiet cache, followed by the release of the glyph. *)
Lemma probe_step `{CPlatform} `{PangoEngine}
  (h0 : list (option kmscon_glyph)) (font font1 : kmscon_font)
  (key : kmscon_char) (m m1 : machine) (r : result glyph_ptr) :
  cache_quiet font m -> grown_from h0 font m -> char_wf key ->
  kmscon_font_lookup font (Some key) true m = (r, font1, m1) ->
  (forall k q, g_hash_table_lookup (font_glyphs font) k = Some q ->
               g_hash_table_lookup (font_glyphs font1) k = Some q)
  /\ font_ref font1 = font_ref font /\ font_height font1 = font_height font
  /\ font_width font1 = font_width font /\ font_ctx font1 = font_ctx font
  /\ match r with
     | Ok p =>
         exists g1 m2,
           heap m1 !! p = Some (Some g1)
           /\ kmscon_glyph_unref (Some p) m1 = (Ok tt, m2)
           /\ cache_quiet font1 m2 /\ grown_from h0 font1 m2
           /\ g_hash_table_lookup (font_glyphs font1) key = Some p
           /\ cairo m2 = cairo m /\ allocs m2 = allocs m1
     | Err _ =>
         cache_quiet font1 m1 /\ grown_from h0 font1 m1 /\ cairo m1 = cairo m
     | Undef => False
     end.
Proof.
  intros Hq Hgrow Hkey E. pose proof (cache_quiet_wf _ _ Hq) as Hwf.
  destruct r as [p|e|].
  - destruct (g_hash_table_lookup (font_glyphs font) key) as [p'|] eqn:Hl.
    + destruct (ght_lookup_in _ _ _ Hl) as (k & Hin & _).
      destruct Hq as [_ Hall]. pose proof Hall as Hall'.
      rewrite Forall_forall in Hall'.
      destruct (Hall' _ Hin) as (g & Hg & Hr). simpl in Hg.
      rewrite (lookup_hit font key m p' g Hl Hg) in E.
      injection E as <- <- <-. split; [done|]. split_and!; try done.
      eexists _, m. split.
      { simpl. apply list_lookup_insert_eq. by eapply lookup_lt_Some. }
      split; [apply glyph_ref_unref; [done|rewrite Hr; by vm_compute]|].
      by split_and!.
    + destruct (lookup_miss font font1 key m m1 p Hwf Hkey Hl E)
        as (-> & Hpos & ch & c & w & Hchwf & Hchlen & Hchc & _ & _ & -> & Hh
            & Hc).
      split; [intros k q Hk; simpl; by apply ght_lookup_app_l|].
      split_and!; try done.
      set (g1 := shaped_glyph font (Glyph 2 (Some c) w GLYPH_NONE) c) in *.
      set (g2 := Glyph (glyph_ref g1 - 1) (glyph_ch g1) (glyph_width g1)
                   (glyph_src g1)).
      assert (heap m1 !! length (heap m) = Some (Some g1)) as Hg1
        by (rewrite Hh; by apply list_lookup_middle).
      assert (<[length (heap m) := Some g2]> (heap m1) = heap m ++ [Some g2])
        as Hh2.
      { rewrite Hh, insert_app_r_alt by lia. by rewrite Nat.sub_diag. }
      exists g1, (set_heap (<[length (heap m) := Some g2]> (heap m1)) m1).
      split; [done|].
      split; [apply glyph_unref_run; [done|by vm_compute]|].
      assert (font_wf (set_glyphs (font_glyphs font ++ [(ch, length (heap m))])
                         font) m1) as Hwf1.
      { eapply lookup_preserves_font_wf; [exact Hwf|exact Hkey| |exact E].
        intros q g. by rewrite Hl. }
      split; [split|].
      * apply font_wf_unref; [done..|by vm_compute].
      * simpl. rewrite Hh2. apply Forall_app. split.
        { destruct Hq as [_ Hall]. eapply Forall_impl; [exact Hall|].
          intros e (g & Hg & Hr). exists g. split; [|done].
          rewrite lookup_app_l; [done|by eapply lookup_lt_Some]. }
        apply Forall_singleton. exists g2. simpl.
        split; [by apply list_lookup_middle|done].
      * simpl. rewrite Hh2. split.
        { destruct Hgrow as ([t Ht] & Hge & Hown). split; [|split]; simpl.
          - exists (t ++ [Some g2]). by rewrite Ht, app_assoc.
          - rewrite fmap_app. apply Forall_app. split; [done|].
            apply Forall_singleton. simpl. rewrite Ht, length_app. lia.
          - intros q g Hlen Hg. rewrite fmap_app. apply elem_of_app.
            destruct (decide (q < length (heap m))) as [Hlt|Hnlt].
            + left. apply (Hown q g Hlen). by rewrite lookup_app_l in Hg.
            + right. apply lookup_lt_Some in Hg.
              rewrite length_app in Hg. simpl in *.
              apply list_elem_of_singleton. lia. }
        split; [apply ght_lookup_snoc; [done|by apply key_matches_content]|].
        done.
  - destruct (lookup_failed font font1 key m m1 e Hwf Hkey E)
      as (-> & _ & Hh & Hc).
    split; [done|]. split_and!; try done.
    + apply (cache_quiet_mono font m m1 Hq). intros q g Hg.
      destruct Hh as [-> | ->]; [done|].
      rewrite lookup_app_l; [done|by eapply lookup_lt_Some].
    + destruct Hgrow as ([t Ht] & Hge & Hown). split; [|split; [done|]].
      * destruct Hh as [-> | ->]; [by exists t|].
        exists (t ++ [None]). by rewrite Ht, app_assoc.
      * intros q g Hlen Hg. destruct Hh as [Hh|Hh]; rewrite Hh in Hg;
          [by eapply Hown|].
        destruct (decide (q < length (heap m))) as [Hlt|Hnlt].
        -- rewrite lookup_app_l in Hg by done. by eapply Hown.
        -- apply lookup_lt_Some in Hg as Hlt'. rewrite length_app in Hlt'.
           simpl in Hlt'. assert (q = length (heap m)) as -> by lia.
           by rewrite list_lookup_middle in Hg.
  - by apply lookup_defined in E.
Qed.

(** ** The loop of the width measurement *)

Lemma measure_width_loop_inv `{CPlatform} `{PangoEngine}
  (h0 : list (option kmscon_glyph)) (n : nat) :
  forall (i : Z) (st : measure_state) (m m' : machine)
         (r : result measure_state),
    cache_quiet (ms_font st) m -> grown_from h0 (ms_font st) m ->
    char_wf (ms_ch st) -> 1 <= ch_size (ms_ch st) ->
    measure_width_loop n i st m = (r, m') ->
    exists st',
      r = Ok st'
      /\ cache_quiet (ms_font st') m' /\ grown_from h0 (ms_font st') m'
      /\ cairo m' = cairo m
      /\ (forall k q,
             g_hash_table_lookup (font_glyphs (ms_font st)) k = Some q ->
             g_hash_table_lookup (font_glyphs (ms_font st')) k = Some q)
      /\ font_ref (ms_font st') = font_ref (ms_font st)
      /\ font_height (ms_font st') = font_height (ms_font st)
      /\ font_ctx (ms_font st') = font_ctx (ms_font st)
      /\ (all_granted m ->
          all_granted m'
          /\ forall j, (i <= j < i + Z.of_nat n)%Z ->
               exists ch q,
                 char_wf ch /\ content ch = [char_of_uint j]
                 /\ g_hash_table_lookup (font_glyphs (ms_font st')) ch
                    = Some q).
Proof.
  induction n as [|n IH]; intros i st m m' r Hq Hgrow Hch Hsz E.
  { injection E as <- <-. exists st. split_and!; try done.
    intros Hg. split; [done|]. intros j Hj. lia. }
  cbn [measure_width_loop] in E.
  rewrite set_u8_in_place in E by done.
  set (ch1 := Char (memcpy (ch_buf (ms_ch st)) 0 [char_of_uint i] 1)
                (ch_size (ms_ch st)) 1) in *.
  assert (char_wf ch1 /\ content ch1 = [char_of_uint i]) as [Hch1 Hc1].
  { pose proof (set_u8_in_place (ms_ch st) [char_of_uint i] 1 m Hsz) as Es.
    apply set_u8_ok in Es as (? & _ & ? & _); [done|done|simpl; lia]. }
  destruct (kmscon_font_lookup (ms_font st) (Some ch1) true m)
    as [[rl fl] ml] eqn:El.
  destruct (probe_step h0 (ms_font st) fl ch1 m ml rl Hq Hgrow Hch1 El)
    as (Hmono & Hr & Hh & Hw & Hx & Hcase).
  destruct rl as [p|e|]; [| |done].
  - destruct Hcase as (g1 & m2 & Hg1 & Hun & Hq2 & Hgrow2 & Hl2 & Hc2 & Ha2).
    rewrite (load_ok ml p g1 Hg1), Hun in E.
    assert (exists num w,
              measure_width_loop n (i + 1) (MeasureState ch1 fl num w) m2
              = (r, m')) as (num & w & E').
    { destruct (0 <? glyph_width g1)%Z; by eexists _, _. }
    destruct (IH (i + 1)%Z (MeasureState ch1 fl num w) m2 m' r Hq2 Hgrow2 Hch1
                Hsz E')
      as (st' & -> & Hq' & Hgrow' & Hc' & Hmono' & Hr' & Hh' & Hx' & Hgr').
    exists st'. cbn [ms_font ms_ch ms_num ms_width] in *.
    split_and!; try done; try congruence.
    { intros k q Hk. by apply Hmono', Hmono. }
    intros Hg.
    destruct (lookup_granted (ms_font st) ch1 m Hg (cache_quiet_wf _ _ Hq) Hch1)
      as (p' & f' & m1' & El' & Hg1'); [simpl; lia|].
    rewrite El in El'. injection El' as <- <- <-.
    destruct (Hgr' (all_granted_allocs ml m2 Ha2 Hg1')) as [Hg' Hfound].
    split; [done|]. intros j Hj.
    destruct (decide (j = i)) as [->|Hne].
    + exists ch1, p. split_and!; try done. by apply Hmono'.
    + apply Hfound. lia.
  - destruct Hcase as (Hq1 & Hgrow1 & Hc1').
    destruct (IH (i + 1)%Z (MeasureState ch1 fl (ms_num st) (ms_width st)) ml m'
                r Hq1 Hgrow1 Hch1 Hsz E)
      as (st' & -> & Hq' & Hgrow' & Hc' & Hmono' & Hr' & Hh' & Hx' & Hgr').
    exists st'. cbn [ms_font ms_ch ms_num ms_width] in *.
    split_and!; try done; try congruence.
    { intros k q Hk. by apply Hmono', Hmono. }
    intros Hg.
    destruct (lookup_granted (ms_font st) ch1 m Hg (cache_quiet_wf _ _ Hq) Hch1)
      as (p' & f' & m1' & El' & Hg1'); [simpl; lia|].
    rewrite El in El'. done.
Qed.

(** [measure_width] on a quiet cache. *)
Lemma measure_width_inv `{CPlatform} `{PangoEngine}
  (h0 : list (option kmscon_glyph)) (font font' : kmscon_font) (w0 : Z)
  (m m' : machine) (r : result unit) :
  cache_quiet font m -> grown_from h0 font m ->
  measure_width font w0 m = (r, font', m') ->
  r <> Undef
  /\ cache_quiet font' m' /\ grown_from h0 font' m' /\ cairo m' = cairo m
  /\ (forall k q,
         g_hash_table_lookup (font_glyphs font) k = Some q ->
         g_hash_table_lookup (font_glyphs font') k = Some q)
  /\ font_ref font' = font_ref font /\ font_height font' = font_height font
  /\ font_ctx font' = font_ctx font
  /\ (forall e, r = Err e -> e = ENOMEM \/ e = EFAULT)
  /\ (all_granted m ->
      all_granted m'
      /\ (r = Ok tt \/ r = Err EFAULT)
      /\ forall j, (0 <= j < 127)%Z ->
           exists ch q,
             char_wf ch /\ content ch = [char_of_uint j]
             /\ g_hash_table_lookup (font_glyphs font') ch = Some q).
Proof.
  intros Hq Hgrow. unfold measure_width, kmscon_char_new.
  remember 127 as N eqn:HN.
  destruct (new_char true 0 m) as [[ch|e|] m1] eqn:E1.
  - pose proof E1 as E1'. apply new_char_inv in E1' as (Hch & Hh1 & Hc1).
    assert (char_wf ch /\ 1 <= ch_size ch) as [Hwf Hsz].
    { rewrite Hch. split; [split|]; cbv; [reflexivity|lia|lia]. }
    clear Hch.
    assert (cache_quiet font m1) as Hq1.
    { apply (cache_quiet_mono font m m1 Hq). by rewrite Hh1. }
    assert (grown_from h0 font m1) as Hgrow1.
    { destruct Hgrow as (Ht & Hge & Hown). split; [by rewrite Hh1|].
      split; [done|]. intros q g. rewrite Hh1. apply Hown. }
    destruct (measure_width_loop N 0 (MeasureState ch font 0 w0) m1)
      as [rl ml] eqn:El.
    destruct (measure_width_loop_inv h0 N 0 (MeasureState ch font 0 w0) m1 ml
                rl Hq1 Hgrow1 Hwf Hsz El)
      as (st' & -> & Hq' & Hgrow' & Hc' & Hmono & Hr' & Hh' & Hx' & Hgr').
    clear El. cbn [ms_font ms_ch ms_num ms_width] in *.
    assert (all_granted m -> all_granted m1) as Hg1.
    { intros Hg. destruct (new_char_granted 0 m Hg) as (c & m1' & E & Hg').
      rewrite E1 in E. by injection E as _ <-. }
    assert (forall j, (0 <= j < 127)%Z -> (0 <= j < 0 + Z.of_nat N)%Z) as HjN.
    { intros j Hj. rewrite HN. change (Z.of_nat 127) with 127%Z. lia. }
    clear HN.
    cbn [kmscon_char_free ret snd].
    destruct (ms_num st' =? 0)%Z; intros [= <- <- <-];
      cbn [set_width font_glyphs font_ref font_height font_ctx].
    + split_and!; try done; try congruence.
      * intros e [= <-]. by right.
      * intros Hg. destruct (Hgr' (Hg1 Hg)) as [? ?]. split_and!; auto.
    + split_and!; try done; try congruence.
      intros Hg. destruct (Hgr' (Hg1 Hg)) as [? ?]. split_and!; auto.
  - intros [= <- <- <-]. pose proof E1 as E1'.
    apply new_char_errno in E1' as ([[? ?]|[_ ->]] & Hh1 & Hc1); [done|].
    split_and!; try done.
    + apply (cache_quiet_mono font m m1 Hq). by rewrite Hh1.
    + destruct Hgrow as (Ht & Hge & Hown). split; [by rewrite Hh1|].
      split; [done|]. intros q g. rewrite Hh1. apply Hown.
    + intros e [= <-]. by left.
    + intros Hg. destruct (new_char_granted 0 m Hg) as (c & m1' & E & Hg').
      by rewrite E1 in E.
  - by apply new_char_not_undef in E1.
Qed.

(** ** Releasing the table *)

(** [g_hash_table_unref] on a table whose glyphs it alone holds frees every
    one of them and nothing else. *)
Lemma table_unref_quiet (tbl : GHashTable) :
  forall m : machine,
    NoDup tbl.*2 ->
    Forall (fun e => exists g, heap m !! snd e = Some (Some g)
                               /\ glyph_ref g = 1%Z) tbl ->
    exists m',
      g_hash_table_unref tbl m = (Ok tt, m')
      /\ allocs m' = allocs m /\ cairo m' = cairo m
      /\ length (heap m') = length (heap m)
      /\ (forall q, q ∈ tbl.*2 -> heap m' !! q = Some None)
      /\ (forall q, q ∉ tbl.*2 -> heap m' !! q = heap m !! q).
Proof.
  induction tbl as [|[k v] tbl IH]; intros m Hnd Hall.
  - exists m. split_and!; try done. intros q Hq. by apply elem_of_nil in Hq.
  - rewrite fmap_cons in Hnd. apply NoDup_cons in Hnd as [Hv Hnd].
    apply Forall_cons in Hall as [(g & Hg & Hr) Hall]. cbn [snd] in Hg, Hv.
    pose proof (lookup_lt_Some _ _ _ Hg) as Hlt.
    change (g_hash_table_unref ((k, v) :: tbl) m)
      with (bind (kmscon_glyph_unref (Some v))
              (fun _ => g_hash_table_unref tbl) m).
    unfold bind. rewrite (glyph_unref_last m v g Hg Hr).
    set (m1 := set_heap (<[v := None]> (heap m)) m).
    destruct (IH m1 Hnd) as (m' & E & Ha & Hc & Hlen & Hin & Hout).
    { rewrite Forall_forall in Hall. apply Forall_forall.
      intros [k' q] He. destruct (Hall _ He) as (g' & Hg' & Hr').
      exists g'. split; [|done]. cbn [snd] in *. unfold m1. simpl.
      rewrite list_lookup_insert_ne; [done|]. intros <-. apply Hv.
      apply list_elem_of_fmap. by exists (k', v). }
    exists m'. split; [done|]. split; [done|]. split; [done|].
    split; [by rewrite Hlen; unfold m1; simpl; rewrite length_insert|].
    split.
    + intros q Hq. rewrite fmap_cons in Hq. cbn [snd] in Hq.
      destruct (decide (q ∈ tbl.*2)) as [Hq'|Hq']; [by apply Hin|].
      apply elem_of_cons in Hq as [->|Hq]; [|done].
      rewrite (Hout v Hq'). unfold m1. simpl.
      by rewrite list_lookup_insert_eq.
    + intros q Hq. rewrite fmap_cons, not_elem_of_cons in Hq.
      cbn [snd] in Hq. destruct Hq as [Hne Hq].
      rewrite (Hout q Hq). unfold m1. simpl.
      by rewrite list_lookup_insert_ne.
Qed.

(** Releasing a quiet table whose glyphs lie behind [h0] leaves [h0]
    followed by free cells. *)
Lemma table_unref_grown (h0 : list (option kmscon_glyph)) (font : kmscon_font)
  (m : machine) :
  cache_quiet font m -> grown_from h0 font m ->
  exists m' t,
    g_hash_table_unref (font_glyphs font) m = (Ok tt, m')
    /\ allocs m' = allocs m /\ cairo m' = cairo m
    /\ heap m' = h0 ++ t /\ Forall (eq None) t.
Proof.
  intros [[_ Hnd] Hq] ([t Ht] & Hge & Hown).
  destruct (table_unref_quiet (font_glyphs font) m Hnd Hq)
    as (m' & E & Ha & Hc & Hlen & Hin & Hout).
  unfold glyph_ptr in *.
  exists m', (drop (length h0) (heap m')).
  split; [done|]. split; [done|]. split; [done|].
  rewrite Forall_forall in Hge.
  assert (take (length h0) (heap m') = h0) as Htake.
  { apply list_eq. intros i. destruct (decide (i < length h0)) as [Hi|Hi].
    - rewrite lookup_take_lt by done. rewrite Hout.
      + by rewrite Ht, lookup_app_l.
      + intros Hin'. apply Hge in Hin'. lia.
    - rewrite lookup_take_ge by lia. symmetry. apply lookup_ge_None. lia. }
  split.
  - by rewrite <- Htake at 1; rewrite take_drop.
  - apply Forall_lookup. intros i x Hx. rewrite lookup_drop in Hx.
    destruct (decide (length h0 + i ∈ (font_glyphs font).*2)) as [Hi|Hi].
    + pose proof (Hin _ Hi) as Hn. congruence.
    + pose proof (Hout _ Hi) as Hn. rewrite Hn in Hx. destruct x as [g|]; [|done].
      exfalso. apply Hi. apply (Hown _ g); [lia|done].
Qed.

(** ** Creating a font *)

Lemma malloc_step (m : machine) :
  exists r m1,
    malloc m = (r, m1) /\ heap m1 = heap m /\ cairo m1 = cairo m
    /\ (all_granted m -> all_granted m1 /\ r <> None).
Proof.
  destruct (malloc m) as [r m1] eqn:E. exists r, m1.
  destruct (malloc_frame _ _ _ E) as [Hh Hc]. split_and!; try done.
  intros Hg. destruct (malloc_granted m Hg) as (j & m2 & E2 & Hg2).
  rewrite E in E2. by injection E2 as -> ->.
Qed.

Lemma empty_cache_quiet (font : kmscon_font) (m : machine) :
  font_glyphs font = [] ->
  cache_quiet font m /\ grown_from (heap m) font m.
Proof.
  intros E. unfold cache_quiet, font_wf, grown_from. rewrite E. simpl.
  split_and!; try constructor.
  - exists []. by rewrite app_nil_r.
  - intros q g Hq Hg. apply lookup_lt_Some in Hg. lia.
Qed.

Lemma font_new_failed_early (e : errno) (height : Z) (m mk : machine) :
  e <> EINVAL -> e = ENOMEM \/ e = EFAULT -> height <> 0%Z ->
  heap mk = heap m -> cairo mk = cairo m ->
  (all_granted m -> e = EFAULT) ->
  cairo mk = cairo m
  /\ (e = EINVAL <-> true = false \/ height = 0%Z)
  /\ (e = EINVAL \/ e = ENOMEM \/ e = EFAULT)
  /\ (exists t, heap mk = heap m ++ t /\ Forall (eq None) t)
  /\ (all_granted m -> true = true -> height <> 0%Z -> e = EFAULT).
Proof.
  intros He Hcase Hh Hheap Hc Hg. split; [done|].
  split; [split; [done|by intros [?|?]]|]. split; [by right|].
  split; [|by auto]. exists []. rewrite app_nil_r. by split.
Qed.

(** The pixel size of the description: the height, as far as the product
    with [PANGO_SCALE] fits an [unsigned int]. *)
Lemma sized_pixels (height : Z) :
  (to_uint (PANGO_SCALE * height) / PANGO_SCALE = height mod 2 ^ 22)%Z.
Proof.
  unfold to_uint, PANGO_SCALE.
  change (2 ^ 32)%Z with (1024 * 2 ^ 22)%Z.
  rewrite Z.mul_mod_distr_l by lia.
  rewrite Z.mul_comm. by apply Z.div_mul.
Qed.

(** Every way [kmscon_font_new] can end. *)
Lemma font_new_inv `{CPlatform} `{PangoEngine} `{PangoCairo} (out : bool)
  (height w0 : Z) (m m' : machine) (r : result kmscon_font) :
  kmscon_font_new out height w0 m = (r, m') ->
  cairo m' = cairo m
  /\ match r with
     | Ok font =>
         out = true /\ height <> 0%Z
         /\ font_ref font = 1%Z /\ font_height font = height
         /\ font_ctx font
            = PangoCtx (to_uint (PANGO_SCALE * height) / PANGO_SCALE)
         /\ cache_quiet font m' /\ grown_from (heap m) font m'
         /\ (all_granted m ->
             forall j, (0 <= j < 127)%Z ->
               exists ch q,
                 char_wf ch /\ content ch = [char_of_uint j]
                 /\ g_hash_table_lookup (font_glyphs font) ch = Some q)
     | Err e =>
         (e = EINVAL <-> out = false \/ height = 0%Z)
         /\ (e = EINVAL \/ e = ENOMEM \/ e = EFAULT)
         /\ (exists t, heap m' = heap m ++ t /\ Forall (eq None) t)
         /\ (all_granted m -> out = true -> height <> 0%Z -> e = EFAULT)
     | Undef => False
     end.
Proof.
  unfold kmscon_font_new.
  assert (exists t, heap m = heap m ++ t /\ Forall (eq None) t) as Hnil.
  { exists []. by rewrite app_nil_r. }
  destruct out; cbn [negb orb].
  2:{ intros [= <- <-]. split; [done|]. split; [by split; auto|].
      split; [by auto|]. split; [done|]. by intros _ ?. }
  destruct (Z.eqb_spec height 0) as [->|Hh].
  { intros [= <- <-]. split; [done|]. split; [by split; auto|].
    split; [by auto|]. split; [done|]. by intros _ _ ?. }
  clear Hnil.
  destruct (malloc_step m) as (r1 & m1 & -> & Hh1 & Hc1 & Hg1).
  destruct r1 as [junk|].
  2:{ intros [= <- <-].
      apply font_new_failed_early; [done|by left|done|done|done|].
      intros Hg. by destruct (Hg1 Hg). }
  destruct (malloc_step m1) as (r2 & m2 & -> & Hh2 & Hc2 & Hg2).
  destruct r2 as [?|].
  2:{ intros [= <- <-].
      apply font_new_failed_early;
        [done|by right|done|congruence|congruence|done]. }
  destruct (malloc_step m2) as (r3 & m3 & -> & Hh3 & Hc3 & Hg3).
  destruct r3 as [?|].
  2:{ intros [= <- <-].
      apply font_new_failed_early;
        [done|by right|done|congruence|congruence|done]. }
  destruct (malloc_step m3) as (r4 & m4 & -> & Hh4 & Hc4 & Hg4).
  destruct r4 as [?|].
  2:{ intros [= <- <-].
      apply font_new_failed_early;
        [done|by right|done|congruence|congruence|done]. }
  destruct (malloc_step m4) as (r5 & m5 & -> & Hh5 & Hc5 & Hg5).
  assert (all_granted m -> all_granted m5 /\ r5 <> None) as Hg05.
  { intros Hg. destruct (Hg1 Hg) as [Ha _]. destruct (Hg2 Ha) as [Hb _].
    destruct (Hg3 Hb) as [Hc _]. destruct (Hg4 Hc) as [Hd _].
    by apply Hg5. }
  assert (heap m5 = heap m /\ cairo m5 = cairo m) as [Hh05 Hc05].
  { split; congruence. }
  clear Hg1 Hg2 Hg3 Hg4 Hg5 Hh1 Hh2 Hh3 Hh4 Hh5 Hc1 Hc2 Hc3 Hc4 Hc5.
  destruct r5 as [?|].
  2:{ intros [= <- <-].
      apply font_new_failed_early; [done|by right|done|done|done|done]. }
  assert (exists opt m6,
            (if pango_cairo_context_get_font_options
                  (PangoCtx (to_uint (PANGO_SCALE * height) / PANGO_SCALE))
             then (Some Byte.x00, m5) else malloc m5) = (opt, m6)
            /\ heap m6 = heap m /\ cairo m6 = cairo m
            /\ (all_granted m -> all_granted m6 /\ opt <> None))
    as (opt & m6 & -> & Hh6 & Hc6 & Hg6).
  { destruct (pango_cairo_context_get_font_options _).
    - exists (Some Byte.x00), m5. split_and!; try done.
      intros Hg. by destruct (Hg05 Hg).
    - destruct (malloc_step m5) as (r6 & m6 & -> & Hh6 & Hc6 & Hg6).
      exists r6, m6. split_and!; try congruence.
      intros Hg. destruct (Hg05 Hg) as [Hg' _]. by apply Hg6. }
  destruct opt as [?|].
  2:{ intros [= <- <-].
      apply font_new_failed_early; [done|by right|done|done|done|done]. }
  destruct (malloc_step m6) as (r7 & m7 & -> & Hh7 & Hc7 & Hg7).
  destruct r7 as [?|].
  2:{ intros [= <- <-].
      apply font_new_failed_early; [done|by left|done|congruence|congruence|].
      intros Hg. destruct (Hg6 Hg) as [Hg' _]. by destruct (Hg7 Hg'). }
  set (font0 := Font 1 (junk_uint junk) height []
                  (PangoCtx (to_uint (PANGO_SCALE * height) / PANGO_SCALE))).
  destruct (empty_cache_quiet font0 m7 eq_refl) as [Hq0 Hgrow0].
  rewrite Hh7, Hh6 in Hgrow0.
  destruct (measure_width font0 w0 m7) as [[rm font'] m8] eqn:Em.
  destruct (measure_width_inv (heap m) font0 font' w0 m7 m8 rm Hq0 Hgrow0 Em)
    as (Hdef & Hq8 & Hgrow8 & Hc8 & _ & Hr8 & Hh8 & Hx8 & He8 & Hg8).
  assert (all_granted m -> all_granted m7) as Hg07.
  { intros Hg. destruct (Hg6 Hg) as [Hg' _]. by destruct (Hg7 Hg'). }
  destruct rm as [[]|e|]; [| |done].
  - intros [= <- <-]. split; [congruence|]. split_and!; try done.
    intros Hg. by destruct (Hg8 (Hg07 Hg)) as (_ & _ & ?).
  - destruct (table_unref_grown (heap m) font' m8 Hq8 Hgrow8)
      as (m9 & t & E9 & Ha9 & Hc9 & Hh9 & Hfree).
    unfold bind. rewrite E9. intros [= <- <-].
    split; [congruence|].
    assert (e <> EINVAL) as HeI by (by destruct (He8 e eq_refl) as [->| ->]).
    split; [split; [done|by intros [?|?]]|].
    split; [right; by apply He8|]. split; [by exists t|].
    intros Hg _ _. destruct (Hg8 (Hg07 Hg)) as (_ & [?|?] & _); congruence.
Qed.

(** ** The width measurement and the life of a font *)

(** X20: [measure_width] on a cache whose glyphs the table alone holds
    (every count 1), in a store that is [h0] followed by cells that are free
    or belong to the table: it ends with 0, [-ENOMEM] (the probe buffer was
    refused) or [-EFAULT] (no probe had a width); the cache is again well
    formed with every count 1; the store is still [h0] followed by free cells
    and glyphs of the table, so no glyph is leaked; nothing is drawn, no entry
    is evicted or moved, and count, height and context of the font stay. *)
Theorem measure_width_keeps_cache `{CPlatform} `{PangoEngine}
  (h0 : list (option kmscon_glyph)) (font font' : kmscon_font) (w0 : Z)
  (m m' : machine) (r : result unit) :
  cache_quiet font m -> grown_from h0 font m ->
  measure_width font w0 m = (r, font', m') ->
  (r = Ok tt \/ r = Err ENOMEM \/ r = Err EFAULT)
  /\ cache_quiet font' m' /\ grown_from h0 font' m'
  /\ cairo m' = cairo m
  /\ (forall k q,
         g_hash_table_lookup (font_glyphs font) k = Some q ->
         g_hash_table_lookup (font_glyphs font') k = Some q)
  /\ font_ref font' = font_ref font /\ font_height font' = font_height font
  /\ font_ctx font' = font_ctx font.
Proof.
  intros Hq Hgrow E.
  destruct (measure_width_inv h0 font font' w0 m m' r Hq Hgrow E)
    as (Hdef & Hq' & Hgrow' & Hc & Hmono & Hr & Hh & Hx & He & _).
  split_and!; try done.
  destruct r as [[]|e|]; [by left| |done].
  destruct (He e eq_refl) as [-> | ->]; by auto.
Qed.

Lemma measure_width_keeps_cache_witness :
  let d := @measure_width signed_char demo_engine demo_font 0 demo_machine in
  cache_quiet demo_font demo_machine
  /\ grown_from [] demo_font demo_machine
  /\ length (font_glyphs (snd (fst d))) = 127
  /\ cache_quiet (snd (fst d)) (snd d)
  /\ cairo (snd d) = [].
Proof.
  intros d.
  destruct (empty_cache_quiet demo_font demo_machine eq_refl) as [Hq Hgrow].
  split; [exact Hq|]. split; [exact Hgrow|].
  split; [vm_compute; reflexivity|].
  destruct (@measure_width_keeps_cache signed_char demo_engine [] demo_font
              (snd (fst d)) 0%Z demo_machine (snd d) (fst (fst d)) Hq Hgrow
              ltac:(vm_compute; reflexivity))
    as (_ & Hq' & _ & Hc & _).
  split; [exact Hq'|exact Hc].
Defined.

(** X21: when no allocation is refused, [measure_width] leaves every one of
    its 127 probes in the cache, as its comment says (all ASCII characters are
    already cached): whatever it returns, which is then 0 or [-EFAULT], a key
    of one byte with a value below 127 is found in the table afterwards, at a
    live glyph with a description and a count of 1. *)
Theorem measure_width_caches_ascii `{CPlatform} `{PangoEngine}
  (h0 : list (option kmscon_glyph)) (font font' : kmscon_font) (w0 : Z)
  (m m' : machine) (r : result unit) :
  cache_quiet font m -> grown_from h0 font m -> all_granted m ->
  measure_width font w0 m = (r, font', m') ->
  (r = Ok tt \/ r = Err EFAULT)
  /\ forall (key : kmscon_char) (j : Z),
       char_wf key -> (0 <= j < 127)%Z -> content key = [char_of_uint j] ->
       exists q g,
         g_hash_table_lookup (font_glyphs font') key = Some q
         /\ heap m' !! q = Some (Some g)
         /\ glyph_ref g = 1%Z /\ glyph_src g <> GLYPH_NONE.
Proof.
  intros Hq Hgrow Hg E.
  destruct (measure_width_inv h0 font font' w0 m m' r Hq Hgrow E)
    as (_ & Hq' & _ & _ & _ & _ & _ & _ & _ & Hgr).
  destruct (Hgr Hg) as (_ & Hr & Hfound). split; [done|].
  intros key j Hkey Hj Hc.
  destruct (Hfound j Hj) as (ch & q & Hch & Hcc & Hl).
  pose proof (cache_quiet_wf _ _ Hq') as Hwf.
  rewrite <- (ght_lookup_ext (font_glyphs font') ch key) in Hl;
    [|by apply (font_wf_keys font' m')|done|done|congruence].
  destruct (hit_is_live font' key m' q Hwf Hl) as (g & Hlive & _ & Hsrc).
  exists q, g. split_and!; try done.
  destruct (ght_lookup_in _ _ _ Hl) as (k & Hin & _).
  destruct Hq' as [_ Hone]. rewrite Forall_forall in Hone.
  destruct (Hone _ Hin) as (g' & Hg' & Hone'). cbn [snd] in Hg'. congruence.
Qed.

Lemma measure_width_caches_ascii_witness :
  let d := @measure_width signed_char demo_engine demo_font 0 demo_machine in
  cache_quiet demo_font demo_machine
  /\ grown_from [] demo_font demo_machine
  /\ all_granted demo_machine
  /\ exists q,
       @g_hash_table_lookup signed_char (font_glyphs (snd (fst d))) key_A'
       = Some q.
Proof.
  intros d.
  destruct (empty_cache_quiet demo_font demo_machine eq_refl) as [Hq Hgrow].
  split; [exact Hq|]. split; [exact Hgrow|]. split; [reflexivity|].
  destruct (@measure_width_caches_ascii signed_char demo_engine [] demo_font
              (snd (fst d)) 0%Z demo_machine (snd d) (fst (fst d)) Hq Hgrow
              eq_refl ltac:(vm_compute; reflexivity))
    as [_ Hfound].
  destruct (Hfound key_A' 65%Z) as (q & g & Hl & _);
    [split; simpl; lia|lia|reflexivity|].
  exists q. exact Hl.
Defined.

(** X22: a [kmscon_font_new] that succeeds was given a place for the result
    and a height that is not 0; the font has one reference and the height
    asked for; its context is sized to [PANGO_SCALE * height] as an
    [unsigned int] holds it, which is the height in pixels below 2^22 and the
    height modulo 2^22 from there on; its cache is well formed with every
    glyph held by the table alone; the glyphs that were in the store before
    are untouched and every new live glyph belongs to the table; nothing is
    drawn; and when no allocation is refused, every key of one byte with a
    value below 127 is already cached. *)
Theorem font_new_success `{CPlatform} `{PangoEngine} `{PangoCairo}
  (out : bool) (height w0 : Z) (m m' : machine) (font : kmscon_font) :
  (0 <= height < 2 ^ 32)%Z ->
  kmscon_font_new out height w0 m = (Ok font, m') ->
  out = true /\ height <> 0%Z
  /\ font_ref font = 1%Z
  /\ kmscon_font_get_height (Some font) = height
  /\ font_ctx font = PangoCtx (to_uint (PANGO_SCALE * height) / PANGO_SCALE)
  /\ ctx_height (font_ctx font) = (height mod 2 ^ 22)%Z
  /\ ((height < 2 ^ 22)%Z -> font_ctx font = PangoCtx height)
  /\ cache_quiet font m' /\ grown_from (heap m) font m'
  /\ cairo m' = cairo m
  /\ (all_granted m ->
      forall (key : kmscon_char) (j : Z),
        char_wf key -> (0 <= j < 127)%Z -> content key = [char_of_uint j] ->
        exists q, g_hash_table_lookup (font_glyphs font) key = Some q).
Proof.
  intros Hrange E. destruct (font_new_inv out height w0 m m' (Ok font) E)
    as (Hc & Ho & Hh & Hr & Hht & Hx & Hq & Hgrow & Hfound).
  split_and!; try done.
  - by rewrite Hx; cbn [ctx_height]; apply sized_pixels.
  - intros Hsmall. rewrite Hx, sized_pixels. f_equal. apply Z.mod_small. lia.
  - intros Hg key j Hkey Hj Hcc.
    destruct (Hfound Hg j Hj) as (ch & q & Hch & Hcch & Hl).
    exists q. rewrite <- Hl.
    apply ght_lookup_ext; [|done|done|congruence].
    apply (font_wf_keys font m'). by apply cache_quiet_wf.
Qed.

Lemma font_new_success_witness :
  let d := @kmscon_font_new signed_char demo_engine plain_cairo true 4194320 0
             demo_machine in
  (0 <= 4194320 < 2 ^ 32)%Z
  /\ exists font,
       fst d = Ok font
       /\ kmscon_font_get_height (Some font) = 4194320%Z
       /\ font_ctx font = PangoCtx 16
       /\ kmscon_font_get_width (Some font) = 8%Z
       /\ cache_quiet font (snd d).
Proof.
  intros d.
  assert (0 <= 4194320 < 2 ^ 32)%Z as Hrange by lia.
  split; [exact Hrange|].
  pose (font := match fst d with Ok f => f | _ => demo_font end).
  exists font. split; [vm_compute; reflexivity|].
  destruct (@font_new_success signed_char demo_engine plain_cairo true
              4194320%Z 0%Z demo_machine (snd d) font Hrange
              ltac:(vm_compute; reflexivity))
    as (_ & _ & _ & Hh & Hx & _ & _ & Hq & _).
  split; [exact Hh|]. split; [rewrite Hx; vm_compute; reflexivity|].
  split; [vm_compute; reflexivity|exact Hq].
Defined.

(** X23: [kmscon_font_new] never reads or releases a glyph that is not
    live, whatever value [measure_width] finds in its accumulator (the read
    of that variable, which the source never initialises, is the parameter
    [w0] and is not excluded here).  When the call fails: the code is
    [-EINVAL] exactly when there is no place for the result or the height is
    0, and [-ENOMEM] or [-EFAULT] otherwise; nothing was drawn; the glyph
    store is the one before followed by free cells only, so every glyph the
    width measurement created has been released; and when no allocation is
    refused the only failure left is [-EFAULT]. *)
Theorem font_new_failure `{CPlatform} `{PangoEngine} `{PangoCairo}
  (out : bool) (height w0 : Z) (m m' : machine) (r : result kmscon_font) :
  kmscon_font_new out height w0 m = (r, m') ->
  r <> Undef
  /\ forall e, r = Err e ->
       (e = EINVAL <-> out = false \/ height = 0%Z)
       /\ (e = EINVAL \/ e = ENOMEM \/ e = EFAULT)
       /\ cairo m' = cairo m
       /\ (exists t, heap m' = heap m ++ t /\ Forall (eq None) t)
       /\ (all_granted m -> out = true -> height <> 0%Z -> e = EFAULT).
Proof.
  intros E. destruct (font_new_inv out height w0 m m' r E) as [Hc Hcase].
  split; [by intros ->|]. intros e ->.
  destruct Hcase as (? & ? & ? & ?). by split_and!.
Qed.

Lemma font_new_failure_witness :
  let d := @kmscon_font_new signed_char blank_engine plain_cairo true 16 0
             demo_machine in
  fst d = Err EFAULT
  /\ length (heap (snd d)) = 127
  /\ Forall (eq None) (heap (snd d)).
Proof.
  intros d.
  destruct (@font_new_failure signed_char blank_engine plain_cairo true 16%Z
              0%Z demo_machine (snd d) (fst d) ltac:(vm_compute; reflexivity))
    as [_ Hcase].
  destruct (Hcase EFAULT ltac:(vm_compute; reflexivity))
    as (_ & _ & _ & (t & Ht & Hfree) & _).
  split; [vm_compute; reflexivity|]. split; [vm_compute; reflexivity|].
  rewrite Ht. exact Hfree.
Defined.

(** X24: [kmscon_font_unref] of the last reference to a font whose glyphs
    the table alone holds destroys the font and frees exactly the glyphs of
    its table: their cells are free afterwards, every other cell is as it
    was, and nothing is allocated or drawn. *)
Theorem font_unref_last (font : kmscon_font) (m : machine) :
  font_ref font = 1%Z -> cache_quiet font m ->
  exists m',
    kmscon_font_unref font m = (Ok None, m')
    /\ allocs m' = allocs m /\ cairo m' = cairo m
    /\ length (heap m') = length (heap m)
    /\ (forall q, q ∈ (font_glyphs font).*2 -> heap m' !! q = Some None)
    /\ (forall q, q ∉ (font_glyphs font).*2 -> heap m' !! q = heap m !! q).
Proof.
  intros Hr [[_ Hnd] Hq].
  destruct (table_unref_quiet (font_glyphs font) m Hnd Hq)
    as (m' & E & Ha & Hc & Hlen & Hin & Hout).
  exists m'. split; [|done].
  unfold kmscon_font_unref. rewrite Hr. cbn [Z.eqb Z.sub Z.add Z.opp Z.pos_sub].
  change (to_size_t (1 - 1)) with 0%Z. cbn [Z.eqb negb].
  unfold bind. by rewrite E.
Qed.

Lemma font_unref_last_witness :
  let d := @measure_width signed_char demo_engine demo_font 0 demo_machine in
  font_ref (snd (fst d)) = 1%Z
  /\ cache_quiet (snd (fst d)) (snd d)
  /\ exists m',
       kmscon_font_unref (snd (fst d)) (snd d) = (Ok None, m')
       /\ heap m' !! 64 = Some None.
Proof.
  intros d.
  destruct (empty_cache_quiet demo_font demo_machine eq_refl) as [Hq Hgrow].
  destruct (@measure_width_inv signed_char demo_engine [] demo_font
              (snd (fst d)) 0%Z demo_machine (snd d) (fst (fst d)) Hq Hgrow
              ltac:(vm_compute; reflexivity))
    as (_ & Hq' & _).
  assert (font_ref (snd (fst d)) = 1%Z) as Hr by (vm_compute; reflexivity).
  split; [exact Hr|]. split; [exact Hq'|].
  destruct (font_unref_last (snd (fst d)) (snd d) Hr Hq')
    as (m' & E & _ & _ & _ & Hin & _).
  exists m'. split; [exact E|]. apply Hin. vm_compute.
  apply list_elem_of_In, (nth_error_In _ 64). reflexivity.
Defined.

(** X25: taking a reference to a font and dropping it again is balanced, as
    long as the counter is positive and below [SIZE_MAX]: the font is the
    same afterwards, it is not destroyed, and the machine is untouched. *)
Theorem font_ref_unref_balanced (font : kmscon_font) (m : machine) :
  (0 < font_ref font < SIZE_MAX)%Z ->
  kmscon_font_unref (kmscon_font_ref font) m = (Ok (Some font), m).
Proof.
  intros Hr. unfold SIZE_MAX in Hr. unfold kmscon_font_unref, kmscon_font_ref.
  cbn [font_ref font_width font_height font_glyphs font_ctx].
  assert (to_size_t (font_ref font + 1) = (font_ref font + 1)%Z) as ->.
  { unfold to_size_t. apply Z.mod_small. lia. }
  destruct (Z.eqb_spec (font_ref font + 1) 0); [lia|].
  replace (font_ref font + 1 - 1)%Z with (font_ref font) by lia.
  assert (to_size_t (font_ref font) = font_ref font) as ->.
  { unfold to_size_t. apply Z.mod_small. lia. }
  destruct (Z.eqb_spec (font_ref font) 0); [lia|].
  cbn [negb]. unfold ret. by destruct font.
Qed.

Lemma font_ref_unref_balanced_witness :
  (0 < font_ref demo_font < SIZE_MAX)%Z
  /\ kmscon_font_unref (kmscon_font_ref demo_font) unset_machine
     = (Ok (Some demo_font), unset_machine).
Proof.
  assert (0 < font_ref demo_font < SIZE_MAX)%Z as Hr by (by vm_compute).
  split; [exact Hr|]. exact (font_ref_unref_balanced demo_font unset_machine Hr).
Defined.

(** X26: a font that [kmscon_font_new] created and that nobody else has
    touched is destroyed by one [kmscon_font_unref] without a leak: the
    store is the one before the font was created, followed by free cells
    only, and nothing has been drawn. *)
Theorem font_new_then_unref `{CPlatform} `{PangoEngine} `{PangoCairo}
  (out : bool) (height w0 : Z) (m m1 : machine) (font : kmscon_font) :
  kmscon_font_new out height w0 m = (Ok font, m1) ->
  exists m2 t,
    kmscon_font_unref font m1 = (Ok None, m2)
    /\ heap m2 = heap m ++ t /\ Forall (eq None) t
    /\ cairo m2 = cairo m /\ allocs m2 = allocs m1.
Proof.
  intros E. destruct (font_new_inv out height w0 m m1 (Ok font) E)
    as (Hc & _ & _ & Hr & _ & _ & Hq & Hgrow & _).
  destruct (table_unref_grown (heap m) font m1 Hq Hgrow)
    as (m2 & t & E2 & Ha & Hc2 & Hh & Hfree).
  exists m2, t. split; [|split_and!; try done; congruence].
  unfold kmscon_font_unref. rewrite Hr.
  change (to_size_t (1 - 1)) with 0%Z. cbn [Z.eqb negb].
  unfold bind. by rewrite E2.
Qed.

Lemma font_new_then_unref_witness :
  let d := @kmscon_font_new signed_char demo_engine plain_cairo true 16 0
             unset_machine in
  exists font m2,
    fst d = Ok font
    /\ kmscon_font_unref font (snd d) = (Ok None, m2)
    /\ heap m2 !! 0 = Some (Some unset_glyph)
    /\ cairo m2 = [].
Proof.
  intros d.
  pose (font := match fst d with Ok f => f | _ => demo_font end).
  destruct (@font_new_then_unref signed_char demo_engine plain_cairo true
              16%Z 0%Z unset_machine (snd d) font
              ltac:(vm_compute; reflexivity))
    as (m2 & t & E & Hh & _ & Hc & _).
  exists font, m2. split; [vm_compute; reflexivity|]. split; [exact E|].
  rewrite Hh. split; [reflexivity|exact Hc].
Defined.

(** X27: the value the accumulator of [measure_width] happens to hold on
    entry reaches nothing but the stored width: for any two such values the
    status, the machine left behind, the table and the count, height and
    context of the font are the same. *)
Theorem measure_width_accumulator_only `{CPlatform} `{PangoEngine}
  (font f0 : kmscon_font) (w0 w1 : Z) (m m' : machine) (r : result unit) :
  (0 <= w0 < 2 ^ 32)%Z -> (0 <= w1 < 2 ^ 32)%Z ->
  measure_width font w0 m = (r, f0, m') ->
  exists f1,
    measure_width font w1 m = (r, f1, m')
    /\ font_glyphs f1 = font_glyphs f0 /\ font_ref f1 = font_ref f0
    /\ font_height f1 = font_height f0 /\ font_ctx f1 = font_ctx f0.
Proof.
  intros Hw0 Hw1. unfold measure_width.
  destruct (kmscon_char_new true m) as [[ch|e|] m1];
    [|intros [= <- <- <-]; by exists font..].
  assert (forall w, (0 <= w < 2 ^ 32)%Z ->
            MeasureState ch font 0 w
            = shift_width w (MeasureState ch font 0 0)) as Hshift.
  { intros w Hw. unfold shift_width, to_uint. simpl. f_equal.
    rewrite Z.add_0_r. symmetry. by apply Z.mod_small. }
  rewrite (Hshift w0 Hw0), (Hshift w1 Hw1).
  rewrite (measure_width_loop_shift w0), (measure_width_loop_shift w1).
  destruct (measure_width_loop 127 0 _ m1) as [[st|e|] m2];
    [|intros [= <- <- <-]; by exists font..].
  cbn [shift_width ms_ch ms_font ms_num ms_width].
  destruct (ms_num st =? 0)%Z; intros [= <- <- <-]; by eexists.
Qed.

Lemma measure_width_accumulator_only_witness :
  let d0 := @measure_width signed_char demo_engine demo_font 0 demo_machine in
  (0 <= 0 < 2 ^ 32)%Z /\ (0 <= 1000 < 2 ^ 32)%Z
  /\ exists f1,
       @measure_width signed_char demo_engine demo_font 1000 demo_machine
       = (fst (fst d0), f1, snd d0)
       /\ font_glyphs f1 = font_glyphs (snd (fst d0)).
Proof.
  intros d0.
  assert (0 <= 0 < 2 ^ 32)%Z as H0 by lia.
  assert (0 <= 1000 < 2 ^ 32)%Z as H1 by lia.
  split; [exact H0|]. split; [exact H1|].
  destruct (@measure_width_accumulator_only signed_char demo_engine demo_font
              (snd (fst d0)) 0%Z 1000%Z demo_machine (snd d0) (fst (fst d0))
              H0 H1 ltac:(vm_compute; reflexivity))
    as (f1 & E & Hgl & _).
  exists f1. split; [exact E|exact Hgl].
Defined.

(** ** The dispatch of the draw *)


